(** * markchecker2: term ingestion, resilient fetch, normalisation, chunk
      orchestration

    A shallow embedding of [src/app.py] and the properties of its
    specification.

    Conventions of the embedding.
    - A Python [str] is a [string]; one [ascii] stands for one code point, so
      the embedding covers text whose code points are below 256.  The
      character classes ([str.isspace], the regex classes [\d], [\w], [\s])
      are the Unicode ones restricted to that range.
    - A JSON value as [json.loads] builds it is a [JValue]; a JSON object is
      an association list in insertion order (Python dictionaries keep it).
    - A Python float is a [spec_float] at binary64 precision.
    - Code that may raise is a value of [PyResult]; every [try]/[except] of
      the source is a [match] on it.
    - What the program cannot compute by itself (the upstream answer to a
      request, [json.loads], the compilation of a regex built at run time,
      the order in which worker threads finish) is an explicit input.
    - [int] and [float] read ASCII literals; the bound some Python versions
      put on the number of digits [int] accepts is not modelled. *)

From Stdlib Require Import ZArith List String Ascii Bool Lia Permutation.
From Stdlib Require Import Floats.SpecFloat.
Import ListNotations.

Open Scope list_scope.
Open Scope string_scope.
Open Scope nat_scope.

(* ================================================================== *)
(** * Python strings *)
(* ================================================================== *)

Module PyStr.

Definition code (c : ascii) : nat := nat_of_ascii c.

(** [str.isspace] on one code point below 256: TAB, LF, VT, FF, CR,
    FS, GS, RS, US, SPACE, NEL (0x85), NBSP (0xA0). *)
Definition is_space (c : ascii) : bool :=
  let n := code c in
  ((9 <=? n) && (n <=? 13)) || ((28 <=? n) && (n <=? 32))
  || (n =? 133) || (n =? 160).

(** [\d]: the decimal digits; below 256 these are 0-9. *)
Definition is_digit (c : ascii) : bool :=
  let n := code c in (48 <=? n) && (n <=? 57).

(** [\w]: alphanumeric code points and the underscore. *)
Definition is_word (c : ascii) : bool :=
  let n := code c in
  is_digit c
  || ((65 <=? n) && (n <=? 90)) || ((97 <=? n) && (n <=? 122))
  || (n =? 95)
  || (n =? 170) || (n =? 178) || (n =? 179) || (n =? 181)
  || (n =? 185) || (n =? 186) || ((188 <=? n) && (n <=? 190))
  || ((192 <=? n) && (n <=? 214)) || ((216 <=? n) && (n <=? 246))
  || ((248 <=? n) && (n <=? 255)).

Fixpoint rev_acc (s acc : string) : string :=
  match s with
  | EmptyString => acc
  | String c s' => rev_acc s' (String c acc)
  end.

Definition rev (s : string) : string := rev_acc s EmptyString.

Fixpoint lstrip (s : string) : string :=
  match s with
  | String c s' => if is_space c then lstrip s' else s
  | EmptyString => EmptyString
  end.

(** [s.strip()] *)
Definition strip (s : string) : string := rev (lstrip (rev (lstrip s))).

(** [s.startswith(p)] *)
Fixpoint startswith (p s : string) : bool :=
  match p, s with
  | EmptyString, _ => true
  | String a p', String b s' => Ascii.eqb a b && startswith p' s'
  | String _ _, EmptyString => false
  end.

(** [needle in s] *)
Fixpoint contains (needle s : string) : bool :=
  startswith needle s ||
  match s with
  | EmptyString => false
  | String _ s' => contains needle s'
  end.

(** [s[n:]] for [0 <= n] *)
Fixpoint drop (n : nat) (s : string) : string :=
  match n, s with
  | O, _ => s
  | S n', String _ s' => drop n' s'
  | S _, EmptyString => EmptyString
  end.

(** [s[:n]] for [0 <= n] *)
Fixpoint take (n : nat) (s : string) : string :=
  match n, s with
  | O, _ => EmptyString
  | S n', String c s' => String c (take n' s')
  | S _, EmptyString => EmptyString
  end.

(** [s[i:j]] for [0 <= i], [0 <= j] *)
Definition slice (i j : nat) (s : string) : string := take (j - i) (drop i s).

(** [s.split()]: the maximal runs of non-space characters.  [cur] holds the
    run being read, reversed. *)
Fixpoint split_ws_aux (s cur : string) : list string :=
  match s with
  | EmptyString =>
      match cur with EmptyString => [] | _ => [rev cur] end
  | String c s' =>
      if is_space c
      then match cur with
           | EmptyString => split_ws_aux s' EmptyString
           | _ => rev cur :: split_ws_aux s' EmptyString
           end
      else split_ws_aux s' (String c cur)
  end.

Definition split_ws (s : string) : list string := split_ws_aux s EmptyString.

(** [re.split] on a one-character class such as [[,\n]]: every separator
    ends a piece, empty pieces are kept. *)
Fixpoint split_on_aux (sep : ascii -> bool) (s cur : string) : list string :=
  match s with
  | EmptyString => [rev cur]
  | String c s' =>
      if sep c then rev cur :: split_on_aux sep s' EmptyString
      else split_on_aux sep s' (String c cur)
  end.

Definition split_on (sep : ascii -> bool) (s : string) : list string :=
  split_on_aux sep s EmptyString.

(** [s.replace(old, new)], every non-overlapping occurrence from the left,
    for a non-empty [old]. *)
Fixpoint replace_aux (fuel : nat) (old new s : string) : string :=
  match fuel with
  | O => s
  | S fuel' =>
      match s with
      | EmptyString => EmptyString
      | String c s' =>
          if startswith old s
          then new ++ replace_aux fuel' old new (drop (String.length old) s)
          else String c (replace_aux fuel' old new s')
      end
  end.

Definition replace (old new s : string) : string :=
  replace_aux (String.length s) old new s.

(** [s.rfind(c, 0, stop)] for a one-character [c]: the last index below
    [stop] that holds [c]. *)
Fixpoint rfind_aux (c : ascii) (s : string) (pos stop : nat)
  (best : option nat) : option nat :=
  match s with
  | EmptyString => best
  | String d s' =>
      if stop <=? pos then best
      else rfind_aux c s' (S pos) stop
             (if Ascii.eqb c d then Some pos else best)
  end.

Definition rfind (c : ascii) (s : string) (stop : nat) : option nat :=
  rfind_aux c s 0 stop None.

End PyStr.

(* ================================================================== *)
(** * Regular expressions, as Python's backtracking matcher reads them *)
(* ================================================================== *)

Module Re.

Inductive regex : Type :=
| Eps
| Chr (c : ascii)
| Cls (p : ascii -> bool)
| Cat (r1 r2 : regex)
| Alt (r1 r2 : regex)
| Star (r : regex)          (* greedy *)
| Grp (r : regex)           (* the capturing group 1 *)
| WordB.                    (* \b *)

Definition Plus (r : regex) : regex := Cat r (Star r).

Fixpoint Lit (s : string) : regex :=
  match s with
  | EmptyString => Eps
  | String c s' => Cat (Chr c) (Lit s')
  end.

Definition head_char (s : string) : option ascii :=
  match s with
  | EmptyString => None
  | String c _ => Some c
  end.

Definition word_side (c : option ascii) : bool :=
  match c with
  | Some c => PyStr.is_word c
  | None => false
  end.

(** The state of a match in progress: the character just before the
    position, the text from the position on, and what group 1 holds. *)
Record mstate : Type := MState {
  ms_prev : option ascii;
  ms_rest : string;
  ms_group : option string
}.

(** [run r prev s g k]: match [r] at the head of [s], then continue with
    [k]; alternatives are tried in order and the first success wins. *)
Fixpoint run {A : Type} (r : regex) (prev : option ascii) (s : string)
  (g : option string) (k : mstate -> option A) {struct r} : option A :=
  match r with
  | Eps => k (MState prev s g)
  | Chr c =>
      match s with
      | String d s' => if Ascii.eqb c d then k (MState (Some d) s' g) else None
      | EmptyString => None
      end
  | Cls p =>
      match s with
      | String d s' => if p d then k (MState (Some d) s' g) else None
      | EmptyString => None
      end
  | Cat r1 r2 =>
      run r1 prev s g (fun m => run r2 (ms_prev m) (ms_rest m) (ms_group m) k)
  | Alt r1 r2 =>
      match run r1 prev s g k with
      | Some x => Some x
      | None => run r2 prev s g k
      end
  | Star r1 =>
      (fix loop (n : nat) (prev : option ascii) (s : string)
           (g : option string) {struct n} : option A :=
         match n with
         | O => k (MState prev s g)
         | S n' =>
             match run r1 prev s g
                     (fun m =>
                        if String.length (ms_rest m) <? String.length s
                        then loop n' (ms_prev m) (ms_rest m) (ms_group m)
                        else None) with
             | Some x => Some x
             | None => k (MState prev s g)
             end
         end) (String.length s) prev s g
  | Grp r1 =>
      run r1 prev s g
        (fun m =>
           k (MState (ms_prev m) (ms_rest m)
                (Some (PyStr.take
                         (String.length s - String.length (ms_rest m)) s))))
  | WordB =>
      if xorb (word_side prev) (word_side (head_char s))
      then k (MState prev s g) else None
  end.

Definition match_at (r : regex) (prev : option ascii) (s : string)
  : option mstate :=
  run r prev s None (fun m => Some m).

(** A match object: [start()], [end()], [group(0)], [group(1)]. *)
Record rmatch : Type := RMatch {
  m_start : nat;
  m_end : nat;
  m_text : string;
  m_group1 : option string
}.

Definition group1 (m : rmatch) : string :=
  match m_group1 m with
  | Some g => g
  | None => EmptyString
  end.

(** [re.search(r, s)]: the leftmost match. *)
Fixpoint search_from (r : regex) (prev : option ascii) (s : string)
  (pos : nat) : option rmatch :=
  match match_at r prev s with
  | Some m =>
      let n := String.length s - String.length (ms_rest m) in
      Some (RMatch pos (pos + n) (PyStr.take n s) (ms_group m))
  | None =>
      match s with
      | EmptyString => None
      | String c s' => search_from r (Some c) s' (S pos)
      end
  end.

Definition search (r : regex) (s : string) : option rmatch :=
  search_from r None s 0.

(** [re.finditer(r, s)]: the non-overlapping matches from the left; after an
    empty match the scan moves one character on. *)
Fixpoint finditer_aux (fuel : nat) (r : regex) (prev : option ascii)
  (s : string) (pos : nat) : list rmatch :=
  match fuel with
  | O => []
  | S fuel' =>
      match match_at r prev s with
      | Some m =>
          let n := String.length s - String.length (ms_rest m) in
          let here := RMatch pos (pos + n) (PyStr.take n s) (ms_group m) in
          match n with
          | O =>
              match s with
              | EmptyString => [here]
              | String c s' => here :: finditer_aux fuel' r (Some c) s' (S pos)
              end
          | S _ =>
              here :: finditer_aux fuel' r (ms_prev m) (ms_rest m) (pos + n)
          end
      | None =>
          match s with
          | EmptyString => []
          | String c s' => finditer_aux fuel' r (Some c) s' (S pos)
          end
      end
  end.

Definition finditer (r : regex) (s : string) : list rmatch :=
  finditer_aux (S (String.length s)) r None s 0.

(** [re.findall(r, s)] for a pattern without groups: the matched texts. *)
Definition findall (r : regex) (s : string) : list string :=
  map m_text (finditer r s).

(** [re.sub(r, repl, s)] where [repl] is a function of the match: the text
    between the matches is kept. *)
Fixpoint sub_aux (repl : rmatch -> string) (ms : list rmatch) (s : string)
  (pos : nat) : string :=
  match ms with
  | [] => s
  | m :: ms' =>
      PyStr.take (m_start m - pos) s ++ repl m
      ++ sub_aux repl ms' (PyStr.drop (m_end m - pos) s) (m_end m)
  end.

Definition sub (r : regex) (repl : rmatch -> string) (s : string) : string :=
  sub_aux repl (finditer r s) s 0.

Definition digit : regex := Cls PyStr.is_digit.
Definition space : regex := Cls PyStr.is_space.

End Re.

(* ================================================================== *)
(** * Term parser: [parse_search_terms] *)
(* ================================================================== *)

Definition mem (t : string) (seen : list string) : bool :=
  existsb (String.eqb t) seen.

(** The loop [for term in terms: ...] of [parse_search_terms], with its three
    accumulators: the set [seen] and the lists [unique_terms] and
    [duplicates]. *)
Fixpoint dedup_loop (terms seen unique_terms duplicates : list string)
  : list string * list string :=
  match terms with
  | [] => (unique_terms, duplicates)
  | term :: rest =>
      if negb (mem term seen)
      then dedup_loop rest (term :: seen) (unique_terms ++ [term]) duplicates
      else dedup_loop rest seen unique_terms (duplicates ++ [term])
  end.

(** [r'(\d+EA)'] *)
Definition continuous_ea_pattern : Re.regex :=
  Re.Grp (Re.Cat (Re.Plus Re.digit) (Re.Lit "EA")).

(** [r'\b\d+EA\b'] *)
Definition ea_code_pattern : Re.regex :=
  Re.Cat Re.WordB (Re.Cat (Re.Plus Re.digit) (Re.Cat (Re.Lit "EA") Re.WordB)).

Definition is_comma_or_newline (c : ascii) : bool :=
  Ascii.eqb c "," || Ascii.eqb c "010".

Definition nonempty (s : string) : bool :=
  negb (String.eqb s EmptyString).

(** The candidates before stripping: the first part of
    [parse_search_terms], returning the split [terms] and the flag
    [contains_ea_codes]. *)
Definition split_candidates (search_input : string) : list string * bool :=
  let contains_ea_codes := PyStr.contains "EA" search_input in
  let search_input :=
    if contains_ea_codes
    then Re.sub continuous_ea_pattern (fun m => Re.group1 m ++ " ") search_input
    else search_input in
  if PyStr.contains "," search_input
     || PyStr.contains (String "010" EmptyString) search_input
  then (PyStr.split_on is_comma_or_newline search_input, contains_ea_codes)
  else
    let ea_codes := Re.findall ea_code_pattern search_input in
    match ea_codes with
    | _ :: _ => (ea_codes, true)
    | [] =>
        if (50 <? String.length search_input)
           && PyStr.contains " " search_input
        then (PyStr.split_ws search_input, contains_ea_codes)
        else ([search_input], contains_ea_codes)
    end.

(** [terms = [term.strip() for term in terms if term.strip()]]: the raw
    split candidates the deduplication counts. *)
Definition raw_candidates (search_input : string) : list string :=
  filter nonempty (map PyStr.strip (fst (split_candidates search_input))).

Record ParseResult : Type := {
  unique_terms : list string;
  duplicate_count : Z;
  contains_ea_codes : bool;
  duplicates : list string
}.

Definition parse_search_terms (search_input : string) : ParseResult :=
  let terms := raw_candidates search_input in
  let total_terms := Z.of_nat (List.length terms) in
  let '(unique, dups) := dedup_loop terms [] [] [] in
  {| unique_terms := unique;
     duplicate_count := (total_terms - Z.of_nat (List.length unique))%Z;
     contains_ea_codes := snd (split_candidates search_input);
     duplicates := dups |}.

(* ================================================================== *)
(** * Python values, exceptions and numbers *)
(* ================================================================== *)

(** The exception classes the modelled code can meet.  All of them derive
    from [Exception], so an [except Exception] clause catches each one. *)
Inductive PyExc : Type :=
| Timeout                (* requests.exceptions.Timeout *)
| RequestError           (* any other failure of requests.get *)
| RecursionError
| ValueError
| TypeError
| OverflowError
| ZeroDivisionError
| ReError                (* re.error: the pattern does not compile *)
| DatabaseError.         (* sqlite3.Error and its subclasses *)

Inductive PyResult (A : Type) : Type :=
| PyOk (a : A)
| PyRaise (e : PyExc).

Arguments PyOk {A} a.
Arguments PyRaise {A} e.

Definition bind {A B : Type} (m : PyResult A) (f : A -> PyResult B)
  : PyResult B :=
  match m with
  | PyOk a => f a
  | PyRaise e => PyRaise e
  end.

Notation "x <- m ;; f" := (bind m (fun x => f))
  (at level 61, m at next level, right associativity).

(** A value built by [json.loads]. *)
#[warnings="-register-all"]
Inductive JValue : Type :=
| JNull
| JBool (b : bool)
| JInt (z : Z)
| JFloat (f : spec_float)
| JStr (s : string)
| JList (l : list JValue)
| JDict (d : list (string * JValue)).

(** A Python dictionary with string keys, in insertion order. *)
Definition Dict : Type := list (string * JValue).

(** [d.get(k)] as an option; [None] here is the absent key. *)
Fixpoint dict_lookup (k : string) (d : Dict) : option JValue :=
  match d with
  | [] => None
  | (k', v) :: d' => if String.eqb k k' then Some v else dict_lookup k d'
  end.

(** [d.get(k)] *)
Definition dict_get (k : string) (d : Dict) : JValue :=
  match dict_lookup k d with
  | Some v => v
  | None => JNull
  end.

(** [d.get(k, default)] *)
Definition dict_get_default (k : string) (default : JValue) (d : Dict)
  : JValue :=
  match dict_lookup k d with
  | Some v => v
  | None => default
  end.

(** [k in d and isinstance(d[k], dict)] gives the inner dictionary. *)
Definition dict_sub (k : string) (d : Dict) : option Dict :=
  match dict_lookup k d with
  | Some (JDict d') => Some d'
  | _ => None
  end.

Module PyNum.

Definition prec : Z := 53.
Definition emax : Z := 1024.

(** The float nearest to an integer (ties to even); an infinity when the
    integer is out of range. *)
Definition float_of_Z (z : Z) : spec_float :=
  binary_normalize prec emax z 0 false.

(** The float nearest to [m / d] for positive [m] and [d]. *)
Definition float_of_ratio (neg : bool) (m d : positive) : spec_float :=
  SFdiv prec emax (S754_finite neg m 0) (S754_finite false d 0).

(** The float nearest to [m * 10^e10]: how a decimal literal is read. *)
Definition float_of_decimal (neg : bool) (m : Z) (e10 : Z) : spec_float :=
  match m with
  | Zpos p =>
      if (0 <=? e10)%Z
      then binary_normalize prec emax
             (if neg then - (m * 10 ^ e10) else m * 10 ^ e10)%Z 0 false
      else float_of_ratio neg p (Z.to_pos (10 ^ (- e10)))
  | _ => S754_zero neg
  end.

Definition is_ascii_digit (c : ascii) : bool := PyStr.is_digit c.

Definition digit_value (c : ascii) : Z := Z.of_nat (nat_of_ascii c) - 48.

(** Underscores in a numeric literal: each one stands between two digits.
    The result is the text without them. *)
Fixpoint strip_underscores (prev : option ascii) (s : string)
  : option string :=
  match s with
  | EmptyString =>
      match prev with
      | Some "_"%char => None
      | _ => Some EmptyString
      end
  | String c s' =>
      if Ascii.eqb c "_"
      then match prev with
           | Some p =>
               if is_ascii_digit p then strip_underscores (Some c) s' else None
           | None => None
           end
      else
        let ok := match prev with
                  | Some "_"%char => is_ascii_digit c
                  | _ => true
                  end in
        if ok
        then match strip_underscores (Some c) s' with
             | Some t => Some (String c t)
             | None => None
             end
        else None
  end.

(** A maximal run of digits at the head: its value, its length, the rest. *)
Fixpoint read_digits (s : string) (acc : Z) (n : nat) : Z * nat * string :=
  match s with
  | String c s' =>
      if is_ascii_digit c
      then read_digits s' (acc * 10 + digit_value c)%Z (S n)
      else (acc, n, s)
  | EmptyString => (acc, n, s)
  end.

Definition read_sign (s : string) : bool * string :=
  match s with
  | String "-" s' => (true, s')
  | String "+" s' => (false, s')
  | _ => (false, s)
  end.

Definition lower (c : ascii) : ascii :=
  let n := nat_of_ascii c in
  if (65 <=? n) && (n <=? 90) then ascii_of_nat (n + 32) else c.

Fixpoint lower_str (s : string) : string :=
  match s with
  | EmptyString => EmptyString
  | String c s' => String (lower c) (lower_str s')
  end.

(** The white space [int] and [float] skip around a literal.  It is the C
    locale's: TAB, LF, VT, FF, CR and SPACE.  A text with a code point
    above 127 is first rewritten, NEL (0x85) and NBSP (0xA0) becoming
    spaces, so there these two are skipped as well.  FS, GS, RS and US,
    which [str.strip] removes, are never skipped. *)
Fixpoint is_ascii_text (s : string) : bool :=
  match s with
  | EmptyString => true
  | String c s' => (nat_of_ascii c <? 128) && is_ascii_text s'
  end.

Definition literal_space (ascii_only : bool) (c : ascii) : bool :=
  let n := nat_of_ascii c in
  ((9 <=? n) && (n <=? 13)) || (n =? 32)
  || (negb ascii_only && ((n =? 133) || (n =? 160))).

Fixpoint lstrip_literal (ascii_only : bool) (s : string) : string :=
  match s with
  | String c s' =>
      if literal_space ascii_only c then lstrip_literal ascii_only s' else s
  | EmptyString => EmptyString
  end.

Definition strip_literal (s : string) : string :=
  let ascii_only := is_ascii_text s in
  PyStr.rev
    (lstrip_literal ascii_only (PyStr.rev (lstrip_literal ascii_only s))).

(** [sys.get_int_max_str_digits()]: the longest run of digits [int]
    converts. *)
Definition int_max_str_digits : nat := 4300.

(** [int(s)] for a string: white space around, a sign, decimal digits with
    single underscores between them, and no more digits than the limit. *)
Definition int_of_string (s : string) : PyResult Z :=
  match strip_underscores None (strip_literal s) with
  | None => PyRaise ValueError
  | Some t =>
      let '(neg, body) := read_sign t in
      let '(v, n, rest) := read_digits body 0%Z 0 in
      match n, rest with
      | S _, EmptyString =>
          if int_max_str_digits <? n then PyRaise ValueError
          else PyOk (if neg then (- v)%Z else v)
      | _, _ => PyRaise ValueError
      end
  end.

(** The exponent part of a float literal, when there is one. *)
Definition read_exponent (s : string) : option Z :=
  match s with
  | EmptyString => Some 0%Z
  | String c s' =>
      if Ascii.eqb (lower c) "e"
      then
        let '(neg, body) := read_sign s' in
        let '(v, n, rest) := read_digits body 0%Z 0 in
        match n, rest with
        | S _, EmptyString => Some (if neg then (- v)%Z else v)
        | _, _ => None
        end
      else None
  end.

(** [float(s)] for a string. *)
Definition float_of_string (s : string) : PyResult spec_float :=
  match strip_underscores None (strip_literal s) with
  | None => PyRaise ValueError
  | Some t =>
      let '(neg, body) := read_sign t in
      let low := lower_str body in
      if String.eqb low "inf" || String.eqb low "infinity"
      then PyOk (S754_infinity neg)
      else if String.eqb low "nan" then PyOk S754_nan
      else
        let '(ip, ni, rest) := read_digits body 0%Z 0 in
        let '(m, nf, rest) :=
          match rest with
          | String "." rest' =>
              let '(m, nf, rest'') := read_digits rest' ip 0 in (m, nf, rest'')
          | _ => (ip, 0, rest)
          end in
        match ni + nf with
        | O => PyRaise ValueError
        | S _ =>
            match read_exponent rest with
            | Some e => PyOk (float_of_decimal neg m (e - Z.of_nat nf))
            | None => PyRaise ValueError
            end
        end
  end.

(** [float(v)] *)
Definition py_float (v : JValue) : PyResult spec_float :=
  match v with
  | JNull => PyRaise TypeError
  | JBool b => PyOk (float_of_Z (if b then 1 else 0))
  | JInt z =>
      match float_of_Z z with
      | S754_infinity _ => PyRaise OverflowError
      | f => PyOk f
      end
  | JFloat f => PyOk f
  | JStr s => float_of_string s
  | JList _ => PyRaise TypeError
  | JDict _ => PyRaise TypeError
  end.

(** [x > y] on floats *)
Definition gt (x y : spec_float) : bool := SFltb y x.

(** [x >= y] on floats *)
Definition ge (x y : spec_float) : bool := SFleb y x.

(** [x - y] *)
Definition fsub (x y : spec_float) : spec_float := SFsub prec emax x y.

(** [x * y] *)
Definition fmul (x y : spec_float) : spec_float := SFmul prec emax x y.

(** [x / y]: Python raises on a zero divisor. *)
Definition truediv (x y : spec_float) : PyResult spec_float :=
  match y with
  | S754_zero _ => PyRaise ZeroDivisionError
  | _ => PyOk (SFdiv prec emax x y)
  end.

(** [round(x)]: the nearest integer, ties to even. *)
Definition py_round (x : spec_float) : PyResult Z :=
  match x with
  | S754_nan => PyRaise ValueError
  | S754_infinity _ => PyRaise OverflowError
  | S754_zero _ => PyOk 0%Z
  | S754_finite neg m e =>
      let mag :=
        match e with
        | Zneg k =>
            let d := (2 ^ Zpos k)%Z in
            let q := (Zpos m / d)%Z in
            let r := (Zpos m mod d)%Z in
            match (2 * r ?= d)%Z with
            | Lt => q
            | Gt => (q + 1)%Z
            | Eq => if Z.even q then q else (q + 1)%Z
            end
        | _ => (Zpos m * 2 ^ e)%Z
        end in
      PyOk (if neg then (- mag)%Z else mag)
  end.

End PyNum.

(* ================================================================== *)
(** * Product normaliser: [extract_product_info] *)
(* ================================================================== *)

(** The canonical product record.  The dictionary the source builds has a
    fixed set of possible keys; a key that may be missing is an [option]
    field, [None] meaning that the key is absent.  A key present with the
    Python value [None] holds [JNull]. *)
Record ProductRecord : Type := {
  found : bool;
  searchTerm : string;
  productId : JValue;
  retailerProductId : option JValue;
  name : JValue;
  brand : JValue;
  available : JValue;
  imageUrl : JValue;
  currency : option JValue;
  category : string;
  currentPrice : option JValue;
  originalPrice : option JValue;
  discountPercentage : option Z;
  unitPrice : option JValue;
  unitLabel : option JValue;
  offers : option (list JValue);
  primaryOffer : option JValue;
  notFoundMessage : option string;
  message : option string
}.

(** [sep.join(items)]: every item has to be a string. *)
Fixpoint join (sep : string) (items : list JValue) : PyResult string :=
  match items with
  | [] => PyOk EmptyString
  | [JStr s] => PyOk s
  | JStr s :: rest => t <- join sep rest ;; PyOk (s ++ sep ++ t)
  | _ :: _ => PyRaise TypeError
  end.

(** The [try] block that computes the discount, lines 587-593. *)
Definition discount_try (current original : JValue) : PyResult (option Z) :=
  current_price <- PyNum.py_float current ;;
  original_price <- PyNum.py_float original ;;
  if PyNum.gt original_price current_price
  then
    q <- PyNum.truediv (PyNum.fsub original_price current_price)
           original_price ;;
    let discount := PyNum.fmul q (PyNum.float_of_Z 100) in
    d <- PyNum.py_round discount ;;
    PyOk (Some d)
  else PyOk None.

(** The same block under its [except (ValueError, TypeError): pass]. *)
Definition discount_of (current original : JValue) : PyResult (option Z) :=
  match discount_try current original with
  | PyRaise ValueError => PyOk None
  | PyRaise TypeError => PyOk None
  | r => r
  end.

Definition is_none (v : JValue) : bool :=
  match v with
  | JNull => true
  | _ => false
  end.

(** What the [price] block contributes: [currentPrice], [currency],
    [originalPrice], [discountPercentage], [unitPrice], [unitLabel]. *)
Record PriceFields : Type := {
  pf_currentPrice : option JValue;
  pf_currency : JValue;
  pf_originalPrice : option JValue;
  pf_discountPercentage : option Z;
  pf_unitPrice : option JValue;
  pf_unitLabel : option JValue
}.

Definition no_price : PriceFields :=
  {| pf_currentPrice := None; pf_currency := JStr "CAD";
     pf_originalPrice := None; pf_discountPercentage := None;
     pf_unitPrice := None; pf_unitLabel := None |}.

Definition price_block (product : Dict) : PyResult PriceFields :=
  match dict_sub "price" product with
  | None => PyOk no_price
  | Some price_info =>
      let '(cur, ccy) :=
        match dict_sub "current" price_info with
        | Some c =>
            (Some (dict_get "amount" c),
             dict_get_default "currency" (JStr "CAD") c)
        | None => (None, JStr "CAD")
        end in
      orig_disc <-
        match dict_sub "original" price_info with
        | Some o =>
            let original := dict_get "amount" o in
            match cur with
            | Some current =>
                if negb (is_none current) && negb (is_none original)
                then d <- discount_of current original ;;
                     PyOk (Some original, d)
                else PyOk (Some original, None)
            | None => PyOk (Some original, None)
            end
        | None => PyOk (None, None)
        end ;;
      let '(unit_price, unit_label) :=
        match dict_sub "unit" price_info with
        | Some u =>
            (match dict_sub "current" u with
             | Some uc => Some (dict_get "amount" uc)
             | None => None
             end,
             Some (dict_get "label" u))
        | None => (None, None)
        end in
      PyOk {| pf_currentPrice := cur; pf_currency := ccy;
              pf_originalPrice := fst orig_disc;
              pf_discountPercentage := snd orig_disc;
              pf_unitPrice := unit_price; pf_unitLabel := unit_label |}
  end.

Definition extract_product_info (product : Dict) (search_term : string)
  : PyResult ProductRecord :=
  let image_url :=
    match dict_sub "image" product with
    | Some image => dict_get "src" image
    | None => JNull
    end in
  cat <-
    match dict_lookup "categoryPath" product with
    | Some (JList path) => join " > " path
    | _ => PyOk EmptyString
    end ;;
  price <- price_block product ;;
  PyOk {| found := true;
          searchTerm := search_term;
          productId := dict_get "productId" product;
          retailerProductId := Some (dict_get "retailerProductId" product);
          name := dict_get "name" product;
          brand := dict_get "brand" product;
          available := dict_get_default "available" (JBool false) product;
          imageUrl := image_url;
          currency := Some (pf_currency price);
          category := cat;
          currentPrice := pf_currentPrice price;
          originalPrice := pf_originalPrice price;
          discountPercentage := pf_discountPercentage price;
          unitPrice := pf_unitPrice price;
          unitLabel := pf_unitLabel price;
          offers :=
            match dict_lookup "offers" product with
            | Some (JList l) => Some (firstn 5 l)
            | _ => None
            end;
          primaryOffer := dict_lookup "offer" product;
          notFoundMessage := None;
          message := None |}.

(* ================================================================== *)
(** * Regex field recovery: [extract_product_fields] *)
(* ================================================================== *)

Definition dq : ascii := "034"%char.
Definition bs : ascii := "092"%char.
Definition nl : ascii := "010"%char.

(** A key or string literal of JSON text: the name between double quotes. *)
Definition quoted (k : string) : string :=
  String dq k ++ String dq EmptyString.

Definition not_quote (c : ascii) : bool := negb (Ascii.eqb c dq).

Definition plain_char (c : ascii) : bool :=
  negb (Ascii.eqb c dq) && negb (Ascii.eqb c bs).

(** [.] without DOTALL *)
Definition dot (c : ascii) : bool := negb (Ascii.eqb c nl).

Fixpoint seq (rs : list Re.regex) : Re.regex :=
  match rs with
  | [] => Re.Eps
  | [r] => r
  | r :: rs' => Re.Cat r (seq rs')
  end.

(** The pattern text [QkeyQ\s*:\s*], writing Q for the double quote. *)
Definition key_colon (k : string) : Re.regex :=
  seq [Re.Lit (quoted k); Re.Star Re.space; Re.Chr ":"; Re.Star Re.space].

(** [QkeyQ\s*:\s*Q([^Q]+)Q] *)
Definition simple_string_field (k : string) : Re.regex :=
  seq [key_colon k; Re.Chr dq; Re.Grp (Re.Plus (Re.Cls not_quote)); Re.Chr dq].

(** The same with a group that reads a JSON string body: a run of
    characters other than Q and backslash, then any number of times a
    backslash, one character other than a newline, and such a run again. *)
Definition escaped_string_field (k : string) : Re.regex :=
  seq [key_colon k; Re.Chr dq;
       Re.Grp (Re.Cat (Re.Star (Re.Cls plain_char))
                 (Re.Star (seq [Re.Chr bs; Re.Cls dot;
                                Re.Star (Re.Cls plain_char)])));
       Re.Chr dq].

(** [QavailableQ\s*:\s*(true|false)] *)
Definition available_pattern : Re.regex :=
  seq [key_colon "available"; Re.Grp (Re.Alt (Re.Lit "true") (Re.Lit "false"))].

(** [QcurrentQ\s*:\s*{\s*QamountQ\s*:\s*Q([^Q]+)Q] *)
Definition price_pattern : Re.regex :=
  seq [key_colon "current"; Re.Chr "{"; Re.Star Re.space;
       simple_string_field "amount"].

(** [.replace] of backslash-quote by a quote *)
Definition unescape_quote (s : string) : string :=
  PyStr.replace (String bs (String dq EmptyString)) (String dq EmptyString) s.

(** both replacements: backslash-quote by a quote, then two backslashes
    by one *)
Definition unescape (s : string) : string :=
  PyStr.replace (String bs (String bs EmptyString)) (String bs EmptyString)
    (unescape_quote s).

(** [prod_id[9:] if prod_id.startswith("retailer_") else prod_id] *)
Definition clean_id (prod_id : string) : string :=
  if PyStr.startswith "retailer_" prod_id then PyStr.drop 9 prod_id
  else prod_id.

Definition field_or_none (r : Re.regex) (f : string -> string) (text : string)
  : JValue :=
  match Re.search r text with
  | Some m => JStr (f (Re.group1 m))
  | None => JNull
  end.

(** [extract_product_fields]: the dictionary literal of the source with the
    values the later assignments leave in it.  Nothing in the body raises,
    so the [except Exception: return None] clause never runs and the result
    is always a dictionary. *)
Definition extract_product_fields (product_json product_id : string) : Dict :=
  List.app
  [ ("productId", JStr (clean_id product_id));
    ("retailerProductId",
       field_or_none (escaped_string_field "retailerProductId")
         unescape_quote product_json);
    ("name", field_or_none (escaped_string_field "name") unescape product_json);
    ("available",
       match Re.search available_pattern product_json with
       | Some m => JBool (String.eqb (Re.group1 m) "true")
       | None => JBool true
       end);
    ("brand",
       field_or_none (escaped_string_field "brand") unescape product_json);
    ("categoryPath", JList []);
    ("price",
       JDict [("current",
               JDict [("amount",
                       field_or_none price_pattern (fun s => s) product_json);
                      ("currency", JStr "CAD")])]) ]
  match Re.search (escaped_string_field "src") product_json with
  | Some m => [("image", JDict [("src", JStr (unescape (Re.group1 m)))])]
  | None => []
  end.

(* ================================================================== *)
(** * Resilient product fetcher: [fetch_product_data] *)
(* ================================================================== *)

(** What [requests.get] does: it raises [Timeout], raises something else,
    or returns a response with a status code and a body. *)
Inductive HttpOutcome : Type :=
| HttpTimeout
| HttpFailure
| HttpResponse (status_code : Z) (text : string).

(** What [json.loads] does on a text that starts with an opening brace: a
    dictionary, [JSONDecodeError], [RecursionError] when the nesting
    exceeds the recursion limit, or a [ValueError] that is no
    [JSONDecodeError] when an integer literal has more digits than [int]
    converts. *)
Inductive LoadResult : Type :=
| Loaded (d : Dict)
| JSONDecodeError
| LoadRecursionError
| LoadValueError.

(** The mapping [result["entities"]["product"]], in insertion order.  Its
    keys are the values used as keys in the source: strings on every path
    but one, where the key is whatever the parsed object holds under
    [productId]. *)
Definition ProductMap : Type := list (JValue * Dict).

Definition hashable (v : JValue) : bool :=
  match v with
  | JList _ | JDict _ => false
  | _ => true
  end.

(** [float == int] *)
Definition float_eq_Z (f : spec_float) (z : Z) : bool :=
  match f with
  | S754_zero _ => (z =? 0)%Z
  | S754_finite neg m e =>
      let sg := fun x : Z => if neg then (- x)%Z else x in
      match e with
      | Zneg k =>
          ((Zpos m mod 2 ^ Zpos k =? 0) && (sg (Zpos m / 2 ^ Zpos k) =? z))%Z
      | _ => (sg (Zpos m * 2 ^ e) =? z)%Z
      end
  | _ => false
  end.

(** Equality of two dictionary keys: numbers compare by value across
    [bool], [int] and [float]; a NaN equals nothing. *)
Definition key_eqb (a b : JValue) : bool :=
  let as_Z := fun v =>
    match v with
    | JBool x => Some (if x then 1 else 0)%Z
    | JInt z => Some z
    | _ => None
    end in
  match a, b with
  | JNull, JNull => true
  | JStr x, JStr y => String.eqb x y
  | JFloat x, JFloat y => SFeqb x y
  | JFloat x, _ =>
      match as_Z b with Some z => float_eq_Z x z | None => false end
  | _, JFloat y =>
      match as_Z a with Some z => float_eq_Z y z | None => false end
  | _, _ =>
      match as_Z a, as_Z b with
      | Some x, Some y => (x =? y)%Z
      | _, _ => false
      end
  end.

(** [m[k] = v] for a hashable [k]: an existing key keeps its place. *)
Fixpoint map_put (k : JValue) (v : Dict) (m : ProductMap) : ProductMap :=
  match m with
  | [] => [(k, v)]
  | (k', v') :: m' =>
      if key_eqb k k' then (k', v) :: m' else (k', v') :: map_put k v m'
  end.

(** [m[k] = v] *)
Definition map_set (k : JValue) (v : Dict) (m : ProductMap)
  : PyResult ProductMap :=
  if hashable k then PyOk (map_put k v m) else PyRaise TypeError.

Fixpoint map_lookup (k : JValue) (m : ProductMap) : option Dict :=
  match m with
  | [] => None
  | (k', v) :: m' => if key_eqb k k' then Some v else map_lookup k m'
  end.

(** [QproductIdQ\s*:\s*Q([^Q]+)Q], writing Q for the double quote *)
Definition product_id_pattern : Re.regex := simple_string_field "productId".

(** [QretailerProductIdQ\s*:\s*Q([^Q]+)Q] *)
Definition retailer_id_pattern : Re.regex :=
  simple_string_field "retailerProductId".

(** The text of the pattern the loop builds for one identifier. *)
Definition search_pattern (prod_id : string) : string :=
  if negb (PyStr.startswith "retailer_" prod_id)
  then quoted "productId" ++ "\s*:\s*" ++ quoted prod_id
  else quoted "retailerProductId" ++ "\s*:\s*" ++ quoted (PyStr.drop 9 prod_id).

(** The [while brace_count > 0 and obj_end < len(text_response)] loop; [s] is
    the text from [obj_end] on. *)
Fixpoint brace_scan (s : string) (brace_count obj_end : nat) : nat * nat :=
  match brace_count with
  | O => (brace_count, obj_end)
  | S below =>
      match s with
      | EmptyString => (brace_count, obj_end)
      | String c s' =>
          brace_scan s'
            (if Ascii.eqb c "{" then S brace_count
             else if Ascii.eqb c "}" then below
             else brace_count)
            (S obj_end)
      end
  end.

(** The substring [text_response[obj_start:obj_end]] of the object that
    encloses position [start], when its braces balance. *)
Definition isolate_object (text_response : string) (start : nat)
  : option string :=
  match PyStr.rfind "{" text_response start with
  | None => None
  | Some obj_start =>
      let '(brace_count, obj_end) :=
        brace_scan (PyStr.drop (S obj_start) text_response) 1 (S obj_start) in
      if brace_count =? 0
      then Some (PyStr.slice obj_start obj_end text_response)
      else None
  end.

(** The placeholder of lines 485-490. *)
Definition placeholder (product_id cid : string) : Dict :=
  [ ("productId", JStr cid);
    ("retailerProductId", JStr product_id);
    ("name", JStr ("Product " ++ cid));
    ("available", JBool true) ].

(** The loop of lines 483-490. *)
Fixpoint placeholders (product_id : string) (product_ids : list string)
  (result : ProductMap) : ProductMap :=
  match product_ids with
  | [] => result
  | prod_id :: rest =>
      placeholders product_id rest
        (map_put (JStr (clean_id prod_id))
           (placeholder product_id (clean_id prod_id)) result)
  end.

Definition is_empty {A : Type} (l : list A) : bool :=
  match l with
  | [] => true
  | _ :: _ => false
  end.

Section Fetcher.

(** [json.loads], on the isolated object texts. *)
Variable json_loads : string -> LoadResult.

(** The compilation [re.search] performs on a pattern text built at run
    time; [None] is [re.error]. *)
Variable re_compile : string -> option Re.regex.

(** One turn of [for prod_id in product_ids], lines 449-479. *)
Definition fetch_one (text_response : string) (result : ProductMap)
  (prod_id : string) : PyResult ProductMap :=
  match re_compile (search_pattern prod_id) with
  | None => PyRaise ReError
  | Some pattern =>
      match Re.search pattern text_response with
      | None => PyOk result
      | Some id_match =>
          match isolate_object text_response (Re.m_start id_match) with
          | None => PyOk result
          | Some product_json =>
              match json_loads product_json with
              | Loaded product_data =>
                  let actual_id :=
                    if negb (PyStr.startswith "retailer_" prod_id)
                    then JStr prod_id
                    else dict_get_default "productId" (JStr prod_id)
                           product_data in
                  map_set actual_id product_data result
              | JSONDecodeError =>
                  let fallback_product :=
                    extract_product_fields product_json prod_id in
                  if negb (is_empty fallback_product)
                  then map_set (JStr prod_id) fallback_product result
                  else PyOk result
              | LoadRecursionError => PyRaise RecursionError
              | LoadValueError => PyRaise ValueError
              end
          end
      end
  end.

Fixpoint fetch_loop (text_response : string) (product_ids : list string)
  (result : ProductMap) : PyResult ProductMap :=
  match product_ids with
  | [] => PyOk result
  | prod_id :: rest =>
      result' <- fetch_one text_response result prod_id ;;
      fetch_loop text_response rest result'
  end.

(** The identifiers found in the body, lines 439-447. *)
Definition discover_ids (text_response : string) : list string :=
  let product_ids :=
    map Re.group1 (Re.finditer product_id_pattern text_response) in
  if is_empty product_ids
  then map (fun m => "retailer_" ++ Re.group1 m)
         (Re.finditer retailer_id_pattern text_response)
  else product_ids.

(** The body of the [try] of [fetch_product_data].  The result is the
    mapping under [entities.product], or [None] for Python's [None]. *)
Definition fetch_try (product_id : string) (outcome : HttpOutcome)
  : PyResult (option ProductMap) :=
  match outcome with
  | HttpTimeout => PyRaise Timeout
  | HttpFailure => PyRaise RequestError
  | HttpResponse status_code text_response =>
      if negb (status_code =? 200)%Z then PyOk None
      else if negb (PyStr.contains (quoted "productId") text_response)
              && negb (PyStr.contains (quoted "retailerProductId")
                         text_response)
      then PyOk (Some [])
      else
        let product_ids := discover_ids text_response in
        result <- fetch_loop text_response product_ids [] ;;
        if is_empty result && negb (is_empty product_ids)
        then PyOk (Some (placeholders product_id product_ids result))
        else PyOk (Some result)
  end.

(** [fetch_product_data]: the [try] under its three [except] clauses. *)
Definition fetch_product_data (product_id : string) (outcome : HttpOutcome)
  : PyResult (option ProductMap) :=
  match fetch_try product_id outcome with
  | PyOk r => PyOk r
  | PyRaise Timeout => PyOk None
  | PyRaise RecursionError => PyOk (Some [])
  | PyRaise _ => PyOk None
  end.

End Fetcher.

(** A compiler for the pattern texts of [search_pattern] whose identifier
    is made of letters, digits, [-] and [_], where every character of the
    identifier stands for itself. *)
Definition literal_id_char (c : ascii) : bool :=
  PyStr.is_digit c || Ascii.eqb c "-" || Ascii.eqb c "_"
  || ((65 <=? nat_of_ascii c) && (nat_of_ascii c <=? 90))
  || ((97 <=? nat_of_ascii c) && (nat_of_ascii c <=? 122)).

Fixpoint all_chars (p : ascii -> bool) (s : string) : bool :=
  match s with
  | EmptyString => true
  | String c s' => p c && all_chars p s'
  end.

Definition compile_literal_id (pattern : string) : option Re.regex :=
  let try_key := fun k : string =>
    let head := quoted k ++ "\s*:\s*" ++ String dq EmptyString in
    if PyStr.startswith head pattern
    then
      let tail := PyStr.drop (String.length head) pattern in
      let id := PyStr.take (String.length tail - 1) tail in
      if String.eqb tail (id ++ String dq EmptyString)
         && all_chars literal_id_char id
      then Some (seq [key_colon k; Re.Lit (quoted id)])
      else None
    else None in
  match try_key "productId" with
  | Some r => Some r
  | None => try_key "retailerProductId"
  end.

(* ================================================================== *)
(** * Per-term processing: [process_term] *)
(* ================================================================== *)

Definition not_found_text (term : string) : string :=
  "The article " ++ quoted term
  ++ " was not found. It may not be published yet or could be a typo.".

Definition placeholder_record (term : string) (title : string)
  (text : string) : ProductRecord :=
  {| found := false;
     searchTerm := term;
     productId := JNull;
     retailerProductId := Some JNull;
     name := JStr (title ++ term);
     brand := JNull;
     available := JBool false;
     imageUrl := JNull;
     currency := None;
     category := EmptyString;
     currentPrice := None;
     originalPrice := None;
     discountPercentage := None;
     unitPrice := None;
     unitLabel := None;
     offers := None;
     primaryOffer := None;
     notFoundMessage := Some text;
     message := None |}.

(** The record of lines 617-628 and 680-691. *)
Definition not_found_record (term : string) : ProductRecord :=
  placeholder_record term "Article Not Found: " (not_found_text term).

(** The record of the [except RecursionError] clause, lines 695-706. *)
Definition too_complex_record (term : string) : ProductRecord :=
  placeholder_record term "Processing Error: "
    "Data too complex to process. Try a more specific search term.".

(** The record of the [except Exception] clauses, lines 709-720 and
    816-827. *)
Definition error_record (term : string) : ProductRecord :=
  placeholder_record term "Article Not Found: "
    "Error processing the article. Please try again.".

(** The record of lines 667-678. *)
Definition partial_record (product : Dict) (term : string) : ProductRecord :=
  {| found := true;
     searchTerm := term;
     productId := dict_get "productId" product;
     retailerProductId := None;
     name := dict_get_default "name" (JStr "Product Name Unavailable") product;
     brand := dict_get_default "brand" (JStr "Brand Unavailable") product;
     available := JBool false;
     imageUrl := JNull;
     currency := None;
     category := EmptyString;
     currentPrice := Some JNull;
     originalPrice := None;
     discountPercentage := None;
     unitPrice := None;
     unitLabel := None;
     offers := None;
     primaryOffer := None;
     notFoundMessage := None;
     message := Some "Product data too complex to fully process" |}.

(** [l[:n]] for a Python integer [n]. *)
Definition slice_int {A : Type} (n : Z) (l : list A) : list A :=
  if (0 <=? n)%Z then firstn (Z.to_nat n) l
  else firstn (List.length l - Z.to_nat (- n)) l.

(** [l[:bound]]: [None] keeps the list, an integer or a boolean cuts it, any
    other value is a [TypeError]. *)
Definition py_slice_upto {A : Type} (bound : JValue) (l : list A)
  : PyResult (list A) :=
  match bound with
  | JNull => PyOk l
  | JBool b => PyOk (firstn (if b then 1 else 0) l)
  | JInt n => PyOk (slice_int n l)
  | _ => PyRaise TypeError
  end.

(** [limit != 'all'] *)
Definition is_all (limit : JValue) : bool :=
  match limit with
  | JStr s => String.eqb s "all"
  | _ => false
  end.

(** [int(limit) if isinstance(limit, str) else limit] *)
Definition max_items_of (limit : JValue) : PyResult JValue :=
  match limit with
  | JStr s => n <- PyNum.int_of_string s ;; PyOk (JInt n)
  | _ => PyOk limit
  end.

(** The choice of [product_keys], lines 636-646; the entries stand for
    their keys. *)
Definition select_keys (product_entities : ProductMap) (limit : JValue)
  (is_article_search : bool) : PyResult ProductMap :=
  if is_article_search then PyOk (firstn 1 product_entities)
  else if negb (is_all limit)
  then
    match (max_items <- max_items_of limit ;;
           py_slice_upto max_items product_entities) with
    | PyRaise ValueError => PyOk (firstn 10 product_entities)
    | PyRaise TypeError => PyOk (firstn 10 product_entities)
    | r => r
    end
  else PyOk (firstn 50 product_entities).

(** What [process_term] returns first: one record or a list of records. *)
Inductive ProductResult : Type :=
| One (r : ProductRecord)
| Many (l : list ProductRecord).

(** [[extract_product_info(product_entities[k], term) for k in keys]] *)
Fixpoint extract_all (items : ProductMap) (term : string)
  : PyResult (list ProductRecord) :=
  match items with
  | [] => PyOk []
  | (_, product) :: rest =>
      product_info <- extract_product_info product term ;;
      more <- extract_all rest term ;;
      PyOk (product_info :: more)
  end.

Section Orchestrator.

Variable json_loads : string -> LoadResult.
Variable re_compile : string -> option Re.regex.

(** The body of the [try] of [process_term]. *)
Definition process_term_try (term : string) (outcome : HttpOutcome)
  (limit : JValue) (is_article_search : bool)
  : PyResult (ProductResult * Z) :=
  raw_data <- fetch_product_data json_loads re_compile term outcome ;;
  match raw_data with
  | None => PyOk (One (not_found_record term), 0%Z)
  | Some product_entities =>
      if is_empty product_entities
      then PyOk (One (not_found_record term), 0%Z)
      else
        let total_found := Z.of_nat (List.length product_entities) in
        product_keys <- select_keys product_entities limit is_article_search ;;
        if negb is_article_search && (0 <? List.length product_keys)
        then
          all_products <- extract_all product_keys term ;;
          PyOk (Many all_products, total_found)
        else
          match product_keys with
          | (_, product) :: _ =>
              match extract_product_info product term with
              | PyOk product_info => PyOk (One product_info, total_found)
              | PyRaise RecursionError =>
                  PyOk (One (partial_record product term), 1%Z)
              | PyRaise e => PyRaise e
              end
          | [] => PyOk (One (not_found_record term), 0%Z)
          end
  end.

(** [process_term]: the [try] under [except RecursionError] and
    [except Exception]. *)
Definition process_term (term : string) (outcome : HttpOutcome)
  (limit : JValue) (is_article_search : bool)
  : PyResult (ProductResult * Z) :=
  match process_term_try term outcome limit is_article_search with
  | PyOk r => PyOk r
  | PyRaise RecursionError => PyOk (One (too_complex_record term), 0%Z)
  | PyRaise _ => PyOk (One (error_record term), 0%Z)
  end.

End Orchestrator.

(* ================================================================== *)
(** * Session and product repository *)
(* ================================================================== *)

(** A value SQLite stores.  [SqlJson v] is the text [json.dumps(v)]. *)
Inductive SqlValue : Type :=
| SqlNull
| SqlInteger (z : Z)
| SqlReal (f : spec_float)
| SqlText (s : string)
| SqlJson (v : JValue).

(** One row of the table [products]: the session and the bound values of
    the INSERT, in the order of its column list from [search_term] on. *)
Record ProductRow : Type := {
  row_session : string;
  row_values : list SqlValue
}.

Record SessionRow : Type := {
  total_terms : Z;
  processed_terms : Z;
  total_products : Z
}.

Record DB : Type := {
  sessions : list (string * SessionRow);
  products : list ProductRow
}.

(** Binding one Python value as a parameter of a statement. *)
Definition bind_param (v : JValue) : PyResult SqlValue :=
  match v with
  | JNull => PyOk SqlNull
  | JBool b => PyOk (SqlInteger (if b then 1 else 0))
  | JInt z =>
      if ((- 2 ^ 63 <=? z) && (z <? 2 ^ 63))%Z then PyOk (SqlInteger z)
      else PyRaise OverflowError
  | JFloat f => PyOk (SqlReal f)
  | JStr s => PyOk (SqlText s)
  | JList _ => PyRaise DatabaseError
  | JDict _ => PyRaise DatabaseError
  end.

Definition opt_value (o : option JValue) : JValue :=
  match o with
  | Some v => v
  | None => JNull
  end.

Definition opt_text (o : option string) : JValue :=
  match o with
  | Some s => JStr s
  | None => JNull
  end.

Fixpoint bind_all (vs : list JValue) : PyResult (list SqlValue) :=
  match vs with
  | [] => PyOk []
  | v :: rest =>
      b <- bind_param v ;;
      bs <- bind_all rest ;;
      PyOk (b :: bs)
  end.

(** The parameter tuple of the INSERT, lines 158-175, without the leading
    [session_id] and with [offers_json] apart. *)
Definition insert_params (product : ProductRecord) : list JValue :=
  [ JStr (searchTerm product);
    JBool (found product);
    productId product;
    opt_value (retailerProductId product);
    name product;
    brand product;
    available product;
    JStr (category product);
    imageUrl product;
    opt_value (currentPrice product);
    opt_value (originalPrice product);
    match discountPercentage product with
    | Some d => JInt d
    | None => JNull
    end;
    opt_value (unitPrice product);
    opt_value (unitLabel product);
    match currency product with
    | Some c => c
    | None => JStr "CAD"
    end ].

(** [json.dumps(product.get('offers', [])) if product.get('offers') else
    None] *)
Definition offers_json (product : ProductRecord) : SqlValue :=
  match offers product with
  | Some (o :: l) => SqlJson (JList (o :: l))
  | _ => SqlNull
  end.

Definition insert_row (session_id : string) (product : ProductRecord)
  : PyResult ProductRow :=
  vs <- bind_all (insert_params product) ;;
  nf <- bind_param (opt_text (notFoundMessage product)) ;;
  PyOk {| row_session := session_id;
          row_values := vs ++ [offers_json product; nf] |}.

Fixpoint insert_rows (session_id : string) (products_data : list ProductRecord)
  : PyResult (list ProductRow) :=
  match products_data with
  | [] => PyOk []
  | product :: rest =>
      row <- insert_row session_id product ;;
      rows <- insert_rows session_id rest ;;
      PyOk (row :: rows)
  end.

(** [store_products_batch]: one INSERT per record and one commit; when a
    statement raises, the connection rolls back and nothing is stored. *)
Definition store_products_batch (db : DB) (session_id : string)
  (products_data : list ProductRecord) : PyResult DB :=
  rows <- insert_rows session_id products_data ;;
  PyOk {| sessions := sessions db; products := products db ++ rows |}.

(** The SELECT of lines 835-839. *)
Fixpoint select_session (rows : list (string * SessionRow))
  (session_id : string) : option SessionRow :=
  match rows with
  | [] => None
  | (sid, row) :: rest =>
      if String.eqb sid session_id then Some row
      else select_session rest session_id
  end.

(** [update_session_progress] with both counters given: the UPDATE of every
    row whose [session_id] matches. *)
Definition update_session_progress (db : DB) (session_id : string)
  (new_processed new_total_products : Z) : DB :=
  {| sessions :=
       map (fun '(sid, row) =>
              if String.eqb sid session_id
              then (sid, {| total_terms := total_terms row;
                            processed_terms := new_processed;
                            total_products := new_total_products |})
              else (sid, row))
           (sessions db);
     products := products db |}.

(* ================================================================== *)
(** * Chunk orchestrator: [process_chunk] *)
(* ================================================================== *)

Record ChunkRequest : Type := {
  req_sessionId : string;
  req_voilaSessionId : string;
  req_chunkIndex : Z;
  req_searchTerms : list string;
  req_limit : JValue;
  req_searchType : string
}.

Record ChunkCounts : Type := {
  chunk_index : Z;
  processed_count : Z;
  products_found : Z;
  total_found : Z
}.

Inductive Response : Type :=
| Ok200 (c : ChunkCounts)
| Err400
| Err500.

(** A finished future: the term it was submitted for and what
    [future.result()] gives. *)
Definition Future : Type := (string * PyResult (ProductResult * Z))%type.

(** The three accumulators of the collecting loop. *)
Record Collected : Type := {
  chunk_products : list ProductRecord;
  acc_total_found : Z;
  acc_processed_count : Z
}.

(** One turn of [for future in as_completed(futures)], lines 802-827. *)
Definition collect_one (acc : Collected) (future : Future) : Collected :=
  let '(term, result) := future in
  let processed := (acc_processed_count acc + 1)%Z in
  match result with
  | PyOk (product_result, term_total_found) =>
      {| chunk_products :=
           match product_result with
           | Many l => chunk_products acc ++ l
           | One r => chunk_products acc ++ [r]
           end;
         acc_total_found := (acc_total_found acc + term_total_found)%Z;
         acc_processed_count := processed |}
  | PyRaise _ =>
      {| chunk_products := chunk_products acc ++ [error_record term];
         acc_total_found := acc_total_found acc;
         acc_processed_count := processed |}
  end.

Definition collect (futures : list Future) : Collected :=
  fold_left collect_one futures
    {| chunk_products := []; acc_total_found := 0%Z;
       acc_processed_count := 0%Z |}.

(** The progress update of lines 834-848: a SELECT of the two counters and
    then an UPDATE with the sums. *)
Definition update_progress (db : DB) (session_id : string)
  (processed : Z) (stored : Z) : DB :=
  match select_session (sessions db) session_id with
  | Some row =>
      update_session_progress db session_id
        (processed_terms row + processed)%Z
        (total_products row + stored)%Z
  | None => db
  end.

Section Chunk.

Variable json_loads : string -> LoadResult.
Variable re_compile : string -> option Re.regex.

(** The answer of the upstream service to the request of the [i]-th
    submitted task, which asks for [term]. *)
Variable upstream : nat -> string -> HttpOutcome.

(** The order in which [as_completed] hands the futures back. *)
Variable as_completed : list Future -> list Future.

(** [executor.submit(process_term, ...)] for every term, line 799. *)
Definition submit_all (search_terms : list string) (limit : JValue)
  (is_article_search : bool) : list Future :=
  map (fun '(i, term) =>
         (term,
          process_term json_loads re_compile term (upstream i term) limit
            is_article_search))
      (combine (List.seq 0 (List.length search_terms)) search_terms).

(** The body of the [try] of [process_chunk], after the parameter check. *)
Definition process_chunk_try (db : DB) (req : ChunkRequest)
  : PyResult (DB * ChunkCounts) :=
  let is_article_search := String.eqb (req_searchType req) "article" in
  let done :=
    collect (as_completed
               (submit_all (req_searchTerms req) (req_limit req)
                  is_article_search)) in
  db1 <- (if is_empty (chunk_products done) then PyOk db
          else store_products_batch db (req_sessionId req)
                 (chunk_products done)) ;;
  let stored := Z.of_nat (List.length (chunk_products done)) in
  let db2 :=
    update_progress db1 (req_sessionId req) (acc_processed_count done) stored in
  PyOk (db2, {| chunk_index := req_chunkIndex req;
                processed_count := acc_processed_count done;
                products_found := stored;
                total_found := acc_total_found done |}).

(** [process_chunk]: the new state of the repository and the response. *)
Definition process_chunk (db : DB) (req : ChunkRequest) : DB * Response :=
  if String.eqb (req_sessionId req) EmptyString
     || String.eqb (req_voilaSessionId req) EmptyString
     || is_empty (req_searchTerms req)
  then (db, Err400)
  else
    match process_chunk_try db req with
    | PyOk (db', counts) => (db', Ok200 counts)
    | PyRaise _ => (db, Err500)
    end.

End Chunk.

(* ================================================================== *)
(** * Two chunk submissions at once *)
(* ================================================================== *)

(** The progress update is two statements on two connections, a SELECT and
    an UPDATE; [db_lock] is declared in the source and never acquired.  A
    request that is updating the progress is at one of three points. *)
Inductive ProgressPoint : Type :=
| BeforeSelect
| BeforeUpdate (new_processed new_total_products : Z)
| Finished.

Record ProgressTask : Type := {
  task_session : string;
  task_processed_count : Z;
  task_stored : Z;
  task_point : ProgressPoint
}.

Definition at_point (t : ProgressTask) (p : ProgressPoint) : ProgressTask :=
  {| task_session := task_session t;
     task_processed_count := task_processed_count t;
     task_stored := task_stored t;
     task_point := p |}.

(** One statement of one request. *)
Definition progress_step (db : DB) (t : ProgressTask) : DB * ProgressTask :=
  match task_point t with
  | BeforeSelect =>
      match select_session (sessions db) (task_session t) with
      | Some row =>
          (db, at_point t
                 (BeforeUpdate
                    (processed_terms row + task_processed_count t)%Z
                    (total_products row + task_stored t)%Z))
      | None => (db, at_point t Finished)
      end
  | BeforeUpdate new_processed new_total_products =>
      (update_session_progress db (task_session t) new_processed
         new_total_products,
       at_point t Finished)
  | Finished => (db, t)
  end.

(** A schedule names, statement by statement, which of the two requests
    runs next: [false] the first, [true] the second. *)
Fixpoint run_schedule (schedule : list bool) (db : DB)
  (t1 t2 : ProgressTask) : DB * ProgressTask * ProgressTask :=
  match schedule with
  | [] => (db, t1, t2)
  | false :: rest =>
      let '(db', t1') := progress_step db t1 in run_schedule rest db' t1' t2
  | true :: rest =>
      let '(db', t2') := progress_step db t2 in run_schedule rest db' t1 t2'
  end.

Definition start_task (session_id : string) (processed stored : Z)
  : ProgressTask :=
  {| task_session := session_id; task_processed_count := processed;
     task_stored := stored; task_point := BeforeSelect |}.

(* ================================================================== *)
(** * Properties of the term parser *)
(* ================================================================== *)

(** The specification's wording of the deduplication, to compare the loop
    with: a candidate is kept when no earlier candidate equals it ... *)
Fixpoint spec_first_occurrences (earlier candidates : list string)
  : list string :=
  match candidates with
  | [] => []
  | t :: rest =>
      if mem t earlier then spec_first_occurrences (earlier ++ [t]) rest
      else t :: spec_first_occurrences (earlier ++ [t]) rest
  end.

(** ... and goes to the duplicates when an earlier candidate equals it. *)
Fixpoint spec_repeats (earlier candidates : list string) : list string :=
  match candidates with
  | [] => []
  | t :: rest =>
      if mem t earlier then t :: spec_repeats (earlier ++ [t]) rest
      else spec_repeats (earlier ++ [t]) rest
  end.

Lemma mem_true_iff (t : string) (l : list string) :
  mem t l = true <-> In t l.
Proof.
  unfold mem. rewrite existsb_exists. split.
  - intros [x [Hin Heq]]. apply String.eqb_eq in Heq. now subst.
  - intros Hin. exists t. split; [assumption | apply String.eqb_refl].
Qed.

Lemma mem_app (t : string) (l1 l2 : list string) :
  mem t (l1 ++ l2) = mem t l1 || mem t l2.
Proof. unfold mem. apply existsb_app. Qed.

Lemma mem_cons (t u : string) (l : list string) :
  mem t (u :: l) = String.eqb t u || mem t l.
Proof. reflexivity. Qed.

Lemma mem_single (t u : string) : mem t [u] = String.eqb t u.
Proof. cbn. apply orb_false_r. Qed.

Lemma mem_snoc_seen (t u : string) (earlier : list string) :
  mem u earlier = true -> mem t (earlier ++ [u]) = mem t earlier.
Proof.
  intros Hu. rewrite mem_app, mem_single.
  destruct (String.eqb t u) eqn:E.
  - apply String.eqb_eq in E. subst. rewrite Hu. reflexivity.
  - apply orb_false_r.
Qed.

(** The loop computes the two lists of the specification, whatever the
    accumulators hold when it starts, as long as [seen] is the set of the
    candidates read so far. *)
Lemma dedup_loop_spec (terms : list string) :
  forall seen unique dups earlier,
    (forall t, mem t seen = mem t earlier) ->
    dedup_loop terms seen unique dups =
    ((unique ++ spec_first_occurrences earlier terms)%list,
     (dups ++ spec_repeats earlier terms)%list).
Proof.
  induction terms as [|term rest IH]; intros seen unique dups earlier Hseen.
  - cbn. now rewrite !app_nil_r.
  - cbn [dedup_loop spec_first_occurrences spec_repeats].
    rewrite <- (Hseen term). destruct (mem term seen) eqn:Hm; cbn [negb].
    + rewrite (IH seen unique (dups ++ [term])%list (earlier ++ [term])%list).
      * now rewrite <- app_assoc.
      * intros t. rewrite mem_snoc_seen; [apply Hseen | now rewrite <- Hseen].
    + rewrite (IH (term :: seen) (unique ++ [term])%list dups
                 (earlier ++ [term])%list).
      * now rewrite <- app_assoc.
      * intros t. rewrite mem_app, mem_cons, mem_single, Hseen.
        apply orb_comm.
Qed.

Lemma spec_first_occurrences_fresh (candidates : list string) :
  forall earlier x,
    In x (spec_first_occurrences earlier candidates) ->
    mem x earlier = false /\ In x candidates.
Proof.
  induction candidates as [|t rest IH]; intros earlier x Hin; [easy|].
  cbn in Hin. destruct (mem t earlier) eqn:Hm.
  - apply IH in Hin as [Hx Hr]. rewrite mem_app in Hx.
    apply orb_false_iff in Hx as [Hx _]. split; [assumption | now right].
  - destruct Hin as [<- | Hin]; [split; [assumption | now left]|].
    apply IH in Hin as [Hx Hr]. rewrite mem_app in Hx.
    apply orb_false_iff in Hx as [Hx _]. split; [assumption | now right].
Qed.

Lemma spec_first_occurrences_NoDup (candidates : list string) :
  forall earlier, NoDup (spec_first_occurrences earlier candidates).
Proof.
  induction candidates as [|t rest IH]; intros earlier; cbn; [constructor|].
  destruct (mem t earlier); [apply IH|].
  constructor; [|apply IH].
  intros Hin. apply spec_first_occurrences_fresh in Hin as [Hx _].
  rewrite mem_app, mem_single, String.eqb_refl in Hx.
  now rewrite orb_true_r in Hx.
Qed.

Lemma spec_split_length (candidates : list string) :
  forall earlier,
    List.length (spec_first_occurrences earlier candidates)
    + List.length (spec_repeats earlier candidates)
    = List.length candidates.
Proof.
  induction candidates as [|t rest IH]; intros earlier; cbn; [reflexivity|].
  destruct (mem t earlier); cbn; rewrite <- (IH (earlier ++ [t])%list); lia.
Qed.

Lemma spec_repeats_seen (candidates : list string) :
  forall earlier x,
    In x (spec_repeats earlier candidates) ->
    In x earlier \/ In x (spec_first_occurrences earlier candidates).
Proof.
  induction candidates as [|t rest IH]; intros earlier x Hin; [easy|].
  cbn in Hin |- *. destruct (mem t earlier) eqn:Hm.
  - destruct Hin as [<- | Hin]; [left; now apply mem_true_iff|].
    apply IH in Hin as [Hin | Hin]; [|now right].
    apply in_app_or in Hin as [Hin | [<- | []]]; left;
      [assumption | now apply mem_true_iff].
  - apply IH in Hin as [Hin | Hin]; [|right; now right].
    apply in_app_or in Hin as [Hin | [<- | []]];
      [now left | right; now left].
Qed.

Lemma parse_search_terms_lists (search_input : string) :
  unique_terms (parse_search_terms search_input)
  = spec_first_occurrences [] (raw_candidates search_input)
  /\ duplicates (parse_search_terms search_input)
     = spec_repeats [] (raw_candidates search_input).
Proof.
  unfold parse_search_terms.
  rewrite (dedup_loop_spec (raw_candidates search_input) [] [] [] [])
    by reflexivity.
  cbn. split; reflexivity.
Qed.

(** C4.  The term parser is a function of its input; the returned terms have
    no repetition and are the first occurrences of the raw split candidates
    in their order; the duplicates are the later repeats, each one a repeat
    of a returned term; and [duplicate_count] plus the number of returned
    terms is the number of raw split candidates.  The raw split candidates
    are the pieces of the split, stripped, without the empty ones: the list
    whose length the source calls [total_terms]. *)
Theorem parse_search_terms_dedup (search_input : string) :
  (forall other, other = search_input ->
     parse_search_terms other = parse_search_terms search_input)
  /\ NoDup (unique_terms (parse_search_terms search_input))
  /\ unique_terms (parse_search_terms search_input)
     = spec_first_occurrences [] (raw_candidates search_input)
  /\ duplicates (parse_search_terms search_input)
     = spec_repeats [] (raw_candidates search_input)
  /\ (forall t, In t (duplicates (parse_search_terms search_input)) ->
        In t (unique_terms (parse_search_terms search_input)))
  /\ (duplicate_count (parse_search_terms search_input)
      + Z.of_nat (List.length (unique_terms (parse_search_terms search_input)))
      = Z.of_nat (List.length (raw_candidates search_input)))%Z
  /\ duplicate_count (parse_search_terms search_input)
     = Z.of_nat (List.length (duplicates (parse_search_terms search_input))).
Proof.
  destruct (parse_search_terms_lists search_input) as [Hu Hd].
  assert (Hc : duplicate_count (parse_search_terms search_input)
               = (Z.of_nat (List.length (raw_candidates search_input))
                  - Z.of_nat (List.length
                       (unique_terms (parse_search_terms search_input))))%Z).
  { unfold parse_search_terms.
    destruct (dedup_loop (raw_candidates search_input) [] [] []).
    reflexivity. }
  pose proof (spec_split_length (raw_candidates search_input) []) as Hlen.
  rewrite <- Hu, <- Hd in Hlen.
  repeat split.
  - intros other ->. reflexivity.
  - rewrite Hu. apply spec_first_occurrences_NoDup.
  - exact Hu.
  - exact Hd.
  - intros t Ht. rewrite Hd in Ht. rewrite Hu.
    apply spec_repeats_seen in Ht as [[] | Ht]. exact Ht.
  - rewrite Hc. lia.
  - rewrite Hc. lia.
Qed.

(** C8.  The input [123EA456EA] parses to the two terms [123EA] and
    [456EA], flagged as dense codes, with no duplicate. *)
Theorem parse_dense_codes :
  parse_search_terms "123EA456EA"
  = {| unique_terms := ["123EA"; "456EA"];
       duplicate_count := 0;
       contains_ea_codes := true;
       duplicates := [] |}.
Proof. vm_compute. reflexivity. Qed.

Example parse_split_precedence :
  unique_terms (parse_search_terms ("a, b" ++ String nl "c")) = ["a"; "b"; "c"]
  /\ unique_terms (parse_search_terms "0123456789") = ["0123456789"]
  /\ unique_terms
       (parse_search_terms
          "alpha beta gamma delta epsilon zeta eta theta iota kappa lam")
     = ["alpha"; "beta"; "gamma"; "delta"; "epsilon"; "zeta"; "eta"; "theta";
        "iota"; "kappa"; "lam"].
Proof. vm_compute. repeat split. Qed.

(** Empty pieces are not candidates: they count neither as terms nor as
    duplicates. *)
Example parse_drops_empty_pieces :
  raw_candidates "a,, ,b," = ["a"; "b"]
  /\ unique_terms (parse_search_terms "a,, ,b,") = ["a"; "b"]
  /\ duplicate_count (parse_search_terms "a,, ,b,") = 0%Z.
Proof. vm_compute. repeat split. Qed.

Example parse_reports_repeats :
  parse_search_terms "b,a,b,c,a,b"
  = {| unique_terms := ["b"; "a"; "c"];
       duplicate_count := 3;
       contains_ea_codes := false;
       duplicates := ["b"; "a"; "b"] |}.
Proof. vm_compute. reflexivity. Qed.

(* ================================================================== *)
(** * Properties of the normaliser *)
(* ================================================================== *)

Definition float_8 : spec_float := PyNum.float_of_Z 8.
Definition float_10 : spec_float := PyNum.float_of_Z 10.

Example float_of_price_strings :
  PyNum.py_float (JStr "8.00") = PyOk float_8
  /\ PyNum.py_float (JStr "10.00") = PyOk float_10
  /\ PyNum.py_float (JFloat float_8) = PyOk float_8
  /\ PyNum.py_float (JInt 10) = PyOk float_10
  /\ PyNum.py_float (JStr "n/a") = PyRaise ValueError
  /\ PyNum.py_float (JList []) = PyRaise TypeError.
Proof. vm_compute. repeat split. Qed.

(** The white space around a numeric literal: a file separator is none,
    a no-break space is one, but only where the text is not all ASCII;
    and the digits [int] reads are limited. *)
Example literal_white_space :
  PyNum.int_of_string (String "028"%char "1") = PyRaise ValueError
  /\ PyNum.int_of_string (String "160"%char "1") = PyOk 1%Z
  /\ PyNum.int_of_string
       (String "028"%char (String "1"%char (String "160"%char EmptyString)))
     = PyRaise ValueError
  /\ PyNum.int_of_string " 1_0 " = PyOk 10%Z
  /\ PyNum.int_of_string "1__0" = PyRaise ValueError
  /\ PyNum.float_of_string (String "028"%char "8") = PyRaise ValueError
  /\ PyNum.float_of_string (String "160"%char "8") = PyOk float_8
  /\ PyNum.int_of_string
       (string_of_list_ascii (List.repeat "0"%char 4300)) = PyOk 0%Z
  /\ PyNum.int_of_string
       (string_of_list_ascii (List.repeat "0"%char 4301))
     = PyRaise ValueError.
Proof. vm_compute. repeat split. Qed.

Lemma SFcompare_antisym (x y : spec_float) (c : comparison) :
  SFcompare x y = Some c -> SFcompare y x = Some (CompOpp c).
Proof.
  destruct x as [sx | sx | | sx mx ex], y as [sy | sy | | sy my ey];
    unfold SFcompare; try discriminate;
    try (destruct sx); try (destruct sy);
    try (intros [= <-]; reflexivity);
    change (PosDef.Pos.compare_cont Eq my mx) with (Pos.compare my mx);
    change (PosDef.Pos.compare_cont Eq mx my) with (Pos.compare mx my);
    rewrite (Z.compare_antisym ex ey), (Pos.compare_antisym mx my);
    destruct (ex ?= ey)%Z; cbn [CompOpp]; intros [= <-];
    try reflexivity; now rewrite CompOpp_involutive.
Qed.

(** When [current >= original] holds on floats, [original > current] does
    not. *)
Lemma ge_not_gt (current original : spec_float) :
  PyNum.ge current original = true -> PyNum.gt original current = false.
Proof.
  unfold PyNum.ge, PyNum.gt, SFleb, SFltb.
  destruct (SFcompare original current) as [c|] eqn:E; [|discriminate].
  apply SFcompare_antisym in E.
  destruct (SFcompare current original) as [c'|] eqn:E'; [|reflexivity].
  injection E as ->. destruct c; cbn; congruence.
Qed.

(** The discount block sets a value only from two floats with
    [original > current], and the value is the rounded percentage. *)
Lemma discount_of_some (current original : JValue) (d : Z) :
  discount_of current original = PyOk (Some d) ->
  exists fc fo q,
    PyNum.py_float current = PyOk fc
    /\ PyNum.py_float original = PyOk fo
    /\ PyNum.gt fo fc = true
    /\ PyNum.truediv (PyNum.fsub fo fc) fo = PyOk q
    /\ PyNum.py_round (PyNum.fmul q (PyNum.float_of_Z 100)) = PyOk d.
Proof.
  unfold discount_of, discount_try.
  destruct (PyNum.py_float current) as [fc | e1]; cbn [bind];
    [|destruct e1; discriminate].
  destruct (PyNum.py_float original) as [fo | e2]; cbn [bind];
    [|destruct e2; discriminate].
  destruct (PyNum.gt fo fc) eqn:Hgt; [|discriminate].
  destruct (PyNum.truediv (PyNum.fsub fo fc) fo) as [q | e3] eqn:Hq;
    cbn [bind]; [|destruct e3; discriminate].
  destruct (PyNum.py_round (PyNum.fmul q (PyNum.float_of_Z 100)))
    as [d' | e4] eqn:Hr; cbn [bind]; [|destruct e4; discriminate].
  intros [= <-]. exists fc, fo, q. repeat split; auto.
Qed.

(** No discount when the current amount is not below the original one. *)
Lemma discount_of_not_below (current original : JValue)
  (fc fo : spec_float) :
  PyNum.py_float current = PyOk fc ->
  PyNum.py_float original = PyOk fo ->
  PyNum.gt fo fc = false ->
  discount_of current original = PyOk None.
Proof.
  intros Hc Ho Hgt. unfold discount_of, discount_try.
  rewrite Hc, Ho. cbn [bind]. rewrite Hgt. reflexivity.
Qed.

(** No discount and no exception when an amount is not numeric: [float]
    raises [ValueError] on a string it cannot read and [TypeError] on a
    list or a dictionary. *)
Lemma discount_of_non_numeric (current original : JValue) :
  (PyNum.py_float current = PyRaise ValueError
   \/ PyNum.py_float current = PyRaise TypeError
   \/ (exists fc, PyNum.py_float current = PyOk fc)
      /\ (PyNum.py_float original = PyRaise ValueError
          \/ PyNum.py_float original = PyRaise TypeError)) ->
  discount_of current original = PyOk None.
Proof.
  unfold discount_of, discount_try.
  intros [H | [H | [[fc Hc] [H | H]]]];
    try rewrite Hc; rewrite H; reflexivity.
Qed.

(** The amounts 8.00 and 10.00 give 20. *)
Lemma discount_of_8_10 (current original : JValue) :
  PyNum.py_float current = PyOk float_8 ->
  PyNum.py_float original = PyOk float_10 ->
  discount_of current original = PyOk (Some 20%Z).
Proof.
  intros Hc Ho. unfold discount_of, discount_try.
  rewrite Hc, Ho. vm_compute. reflexivity.
Qed.

(** What [price_block] returns is read off the nested dictionaries. *)
Lemma price_block_discount (product : Dict) (pf : PriceFields) (d : Z) :
  price_block product = PyOk pf ->
  pf_discountPercentage pf = Some d ->
  exists price_info cur orig,
    dict_sub "price" product = Some price_info
    /\ dict_sub "current" price_info = Some cur
    /\ dict_sub "original" price_info = Some orig
    /\ pf_currentPrice pf = Some (dict_get "amount" cur)
    /\ pf_originalPrice pf = Some (dict_get "amount" orig)
    /\ discount_of (dict_get "amount" cur) (dict_get "amount" orig)
       = PyOk (Some d).
Proof.
  unfold price_block.
  destruct (dict_sub "price" product) as [price_info|];
    [|intros [= <-]; discriminate].
  destruct (dict_sub "current" price_info) as [cur|] eqn:Hcur;
    destruct (dict_sub "original" price_info) as [orig|] eqn:Horig;
    cbn [bind fst snd];
    try (destruct (dict_sub "unit" price_info) as [u|];
         intros [= <-]; discriminate).
  destruct (negb (is_none (dict_get "amount" cur))
            && negb (is_none (dict_get "amount" orig))); cbn [bind].
  - destruct (discount_of (dict_get "amount" cur) (dict_get "amount" orig))
      as [od | e] eqn:Hd; cbn [bind]; [|discriminate].
    destruct (dict_sub "unit" price_info) as [u|];
      intros [= <-]; cbn; intros ->;
      exists price_info, cur, orig; repeat split; auto.
  - destruct (dict_sub "unit" price_info) as [u|];
      intros [= <-]; discriminate.
Qed.

(** A record of [extract_product_info] takes its price fields from
    [price_block] and is a found record. *)
Lemma extract_product_info_ok (product : Dict) (term : string)
  (r : ProductRecord) :
  extract_product_info product term = PyOk r ->
  found r = true
  /\ searchTerm r = term
  /\ available r = dict_get_default "available" (JBool false) product
  /\ exists pf,
       price_block product = PyOk pf
       /\ discountPercentage r = pf_discountPercentage pf
       /\ currentPrice r = pf_currentPrice pf
       /\ originalPrice r = pf_originalPrice pf.
Proof.
  unfold extract_product_info.
  destruct (match dict_lookup "categoryPath" product with
            | Some (JList path) => join " > " path
            | _ => PyOk EmptyString
            end) as [cat | e]; cbn [bind]; [|discriminate].
  destruct (price_block product) as [pf | e]; cbn [bind]; [|discriminate].
  intros [= <-]. cbn. repeat split. exists pf. repeat split.
Qed.

(** [extract_product_info] has no recursion of its own and never raises
    [RecursionError]. *)
Lemma join_raises_TypeError (sep : string) (items : list JValue) (e : PyExc) :
  join sep items = PyRaise e -> e = TypeError.
Proof.
  induction items as [|v rest IH]; cbn; [discriminate|].
  destruct v; try (intros [= <-]; reflexivity).
  destruct rest as [|v' rest']; [discriminate|].
  destruct (join sep (v' :: rest')) as [t | e'] eqn:Hj; cbn [bind];
    [discriminate|].
  intros [= <-]. now apply IH.
Qed.

Lemma py_float_exceptions (v : JValue) (e : PyExc) :
  PyNum.py_float v = PyRaise e ->
  e = ValueError \/ e = TypeError \/ e = OverflowError.
Proof.
  destruct v as [ | b | z | f | s | l | d]; cbn;
    try discriminate; try (intros [= <-]; tauto).
  - destruct (PyNum.float_of_Z z); try discriminate. intros [= <-]. tauto.
  - unfold PyNum.float_of_string.
    destruct (PyNum.strip_underscores None (PyNum.strip_literal s)) as [t|];
      [|intros [= <-]; tauto].
    destruct (PyNum.read_sign t) as [neg body].
    destruct (_ || _); [discriminate|].
    destruct (String.eqb _ _); [discriminate|].
    destruct (PyNum.read_digits body 0 0) as [[ip ni] rest].
    destruct (match rest with
              | String "." rest' =>
                  let '(m, nf, rest'') := PyNum.read_digits rest' ip 0 in
                  (m, nf, rest'')
              | _ => (ip, 0, rest)
              end) as [[m nf] rest2].
    destruct (ni + nf); [intros [= <-]; tauto|].
    destruct (PyNum.read_exponent rest2); [discriminate|].
    intros [= <-]. tauto.
Qed.

Lemma discount_of_exceptions (current original : JValue) (e : PyExc) :
  discount_of current original = PyRaise e ->
  e = OverflowError \/ e = ZeroDivisionError.
Proof.
  unfold discount_of, discount_try.
  destruct (PyNum.py_float current) as [fc | e1] eqn:Hc; cbn [bind].
  2:{ apply py_float_exceptions in Hc as [-> | [-> | ->]];
        try discriminate. intros [= <-]. tauto. }
  destruct (PyNum.py_float original) as [fo | e2] eqn:Ho; cbn [bind].
  2:{ apply py_float_exceptions in Ho as [-> | [-> | ->]];
        try discriminate. intros [= <-]. tauto. }
  destruct (PyNum.gt fo fc); [|discriminate].
  unfold PyNum.truediv.
  destruct fo as [s | s | | s m ex]; cbn [bind];
    try (intros [= <-]; tauto);
    match goal with
    | |- context [PyNum.py_round ?x] =>
        destruct x; cbn; try discriminate; intros [= <-]; tauto
    end.
Qed.

Lemma price_block_exceptions (product : Dict) (e : PyExc) :
  price_block product = PyRaise e ->
  e = OverflowError \/ e = ZeroDivisionError.
Proof.
  unfold price_block.
  destruct (dict_sub "price" product) as [price_info|]; [|discriminate].
  destruct (dict_sub "current" price_info) as [cur|];
    destruct (dict_sub "original" price_info) as [orig|]; cbn [bind fst snd];
    try (destruct (dict_sub "unit" price_info); discriminate).
  destruct (negb (is_none (dict_get "amount" cur))
            && negb (is_none (dict_get "amount" orig)));
    cbn [bind];
    try (destruct (dict_sub "unit" price_info); discriminate).
  destruct (discount_of (dict_get "amount" cur) (dict_get "amount" orig))
    as [od | e'] eqn:Hd; cbn [bind].
  - destruct (dict_sub "unit" price_info); discriminate.
  - intros [= <-]. now apply discount_of_exceptions in Hd.
Qed.

Lemma extract_product_info_exceptions (product : Dict) (term : string)
  (e : PyExc) :
  extract_product_info product term = PyRaise e ->
  e = TypeError \/ e = OverflowError \/ e = ZeroDivisionError.
Proof.
  unfold extract_product_info.
  destruct (match dict_lookup "categoryPath" product with
            | Some (JList path) => join " > " path
            | _ => PyOk EmptyString
            end) as [cat | e'] eqn:Hc; cbn [bind].
  - destruct (price_block product) as [pf | e''] eqn:Hp; cbn [bind];
      [discriminate|].
    intros [= <-]. apply price_block_exceptions in Hp. tauto.
  - intros [= <-]. left.
    destruct (dict_lookup "categoryPath" product) as [[]|];
      try discriminate.
    now apply join_raises_TypeError in Hc.
Qed.

(** A product on sale: 8.00 now, 10.00 before. *)
Definition sale_product : Dict :=
  [ ("productId", JStr "A1");
    ("name", JStr "Milk");
    ("price",
       JDict [ ("current", JDict [("amount", JStr "8.00");
                                  ("currency", JStr "CAD")]);
               ("original", JDict [("amount", JStr "10.00")]) ]) ].

(** Two negative amounts, the original one above the current one. *)
Definition negative_price_product : Dict :=
  [ ("productId", JStr "A1");
    ("price",
       JDict [ ("current", JDict [("amount", JStr "-5")]);
               ("original", JDict [("amount", JStr "-1")]) ]) ].

(** A current amount that is an integer beyond the range of a float, as
    [json.loads] builds it from a long run of digits. *)
Definition huge_price_product : Dict :=
  [ ("productId", JStr "A1");
    ("price",
       JDict [ ("current", JDict [("amount", JInt (10 ^ 400))]);
               ("original", JDict [("amount", JInt 1)]) ]) ].

(** The normaliser on a price block whose amounts read as 8.00 and 10.00:
    the discount is 20. *)
Lemma price_block_8_10 (product price_info cur orig : Dict) :
  dict_sub "price" product = Some price_info ->
  dict_sub "current" price_info = Some cur ->
  dict_sub "original" price_info = Some orig ->
  PyNum.py_float (dict_get "amount" cur) = PyOk float_8 ->
  PyNum.py_float (dict_get "amount" orig) = PyOk float_10 ->
  exists pf,
    price_block product = PyOk pf /\ pf_discountPercentage pf = Some 20%Z.
Proof.
  intros Hp Hc Ho Hfc Hfo. unfold price_block. rewrite Hp, Hc, Ho.
  assert (Hnc : is_none (dict_get "amount" cur) = false)
    by (destruct (dict_get "amount" cur); try reflexivity; discriminate).
  assert (Hno : is_none (dict_get "amount" orig) = false)
    by (destruct (dict_get "amount" orig); try reflexivity; discriminate).
  rewrite Hnc, Hno, (discount_of_8_10 _ _ Hfc Hfo). cbn [negb andb bind].
  destruct (dict_sub "unit" price_info); eexists; split; reflexivity.
Qed.

Lemma normalize_discount_8_10 (product price_info cur orig : Dict)
  (term : string) (r : ProductRecord) :
  dict_sub "price" product = Some price_info ->
  dict_sub "current" price_info = Some cur ->
  dict_sub "original" price_info = Some orig ->
  PyNum.py_float (dict_get "amount" cur) = PyOk float_8 ->
  PyNum.py_float (dict_get "amount" orig) = PyOk float_10 ->
  extract_product_info product term = PyOk r ->
  discountPercentage r = Some 20%Z.
Proof.
  intros Hp Hc Ho Hfc Hfo Hr.
  destruct (price_block_8_10 _ _ _ _ Hp Hc Ho Hfc Hfo) as [pf [Hpf Hd]].
  apply extract_product_info_ok in Hr
    as [_ [_ [_ [pf' [Hpf' [Hd' _]]]]]].
  rewrite Hpf in Hpf'. injection Hpf' as <-. congruence.
Qed.

(** The field is absent whenever [price_block] returns and the discount
    block did not run or set nothing. *)
Lemma price_block_no_discount (product : Dict) (pf : PriceFields) :
  price_block product = PyOk pf ->
  (forall price_info cur orig,
     dict_sub "price" product = Some price_info ->
     dict_sub "current" price_info = Some cur ->
     dict_sub "original" price_info = Some orig ->
     forall d,
       discount_of (dict_get "amount" cur) (dict_get "amount" orig)
       <> PyOk (Some d)) ->
  pf_discountPercentage pf = None.
Proof.
  intros Hpf Hno.
  destruct (pf_discountPercentage pf) as [d|] eqn:Hd; [|reflexivity].
  destruct (price_block_discount _ _ _ Hpf Hd)
    as [pi [cur [orig [Hp [Hc [Ho [_ [_ Hdisc]]]]]]]].
  now apply (Hno pi cur orig Hp Hc Ho) in Hdisc.
Qed.

Example sale_product_normalized :
  exists r,
    extract_product_info sale_product "milk" = PyOk r
    /\ discountPercentage r = Some 20%Z
    /\ currentPrice r = Some (JStr "8.00")
    /\ originalPrice r = Some (JStr "10.00")
    /\ available r = JBool false.
Proof. eexists. vm_compute. repeat split. Qed.

Example swapped_prices_no_discount :
  exists r,
    extract_product_info
      [("price", JDict [("current", JDict [("amount", JStr "10.00")]);
                        ("original", JDict [("amount", JStr "8.00")])])]
      "milk" = PyOk r
    /\ discountPercentage r = None.
Proof. eexists. vm_compute. split; reflexivity. Qed.

Example non_numeric_prices_no_discount :
  exists r,
    extract_product_info
      [("price", JDict [("current", JDict [("amount", JStr "n/a")]);
                        ("original", JDict [("amount", JStr "ten")])])]
      "milk" = PyOk r
    /\ discountPercentage r = None.
Proof. eexists. vm_compute. split; reflexivity. Qed.

(** C2.  The claim asks that a current amount at or above the original
    one, or an amount that is not numeric, gives no discount field and no
    exception.  The discount block catches [ValueError] and [TypeError]
    only: for a current amount that is an integer too large for a float,
    [float] raises [OverflowError], whatever the original amount is, and
    the exception leaves [extract_product_info]. *)
Theorem normalize_overflow_escapes :
  (1 <= 10 ^ 400)%Z
  /\ discount_of (JInt (10 ^ 400)) (JInt 1) = PyRaise OverflowError
  /\ discount_of (JInt (10 ^ 400)) (JStr "n/a") = PyRaise OverflowError
  /\ extract_product_info huge_price_product "milk" = PyRaise OverflowError.
Proof. vm_compute. repeat split; discriminate. Qed.

(** C3, as the claim states it, fails: two negative amounts with the
    original one above the current one get a discount field. *)
Lemma negative_prices_get_discount :
  exists r,
    extract_product_info negative_price_product "milk" = PyOk r
    /\ discountPercentage r = Some (-400)%Z
    /\ currentPrice r = Some (JStr "-5")
    /\ PyNum.py_float (JStr "-5") = PyOk (PyNum.float_of_Z (-5))
    /\ PyNum.gt (PyNum.float_of_Z (-5)) (PyNum.float_of_Z 0) = false.
Proof. eexists. vm_compute. repeat split. Qed.

(** When both amounts are in the record, the discount block ran on them. *)
Lemma price_block_runs_discount (product : Dict) (pf : PriceFields)
  (current original : JValue) :
  price_block product = PyOk pf ->
  pf_currentPrice pf = Some current ->
  pf_originalPrice pf = Some original ->
  is_none current = false ->
  is_none original = false ->
  discount_of current original = PyOk (pf_discountPercentage pf).
Proof.
  unfold price_block.
  destruct (dict_sub "price" product) as [price_info|];
    [|intros [= <-]; discriminate].
  destruct (dict_sub "current" price_info) as [cur|];
    destruct (dict_sub "original" price_info) as [orig|];
    cbn [bind fst snd];
    try (destruct (dict_sub "unit" price_info) as [u|];
         intros [= <-]; discriminate).
  destruct (negb (is_none (dict_get "amount" cur))
            && negb (is_none (dict_get "amount" orig))) eqn:Hboth;
    cbn [bind].
  - destruct (discount_of (dict_get "amount" cur) (dict_get "amount" orig))
      as [od | e] eqn:Hdisc; cbn [bind]; [|discriminate].
    destruct (dict_sub "unit" price_info) as [u|];
      intros [= <-]; cbn; intros [= <-] [= <-] _ _; exact Hdisc.
  - destruct (dict_sub "unit" price_info) as [u|];
      intros [= <-]; cbn; intros [= <-] [= <-] Hc Ho;
      rewrite Hc, Ho in Hboth; discriminate.
Qed.

Lemma py_float_not_none (v : JValue) (f : spec_float) :
  PyNum.py_float v = PyOk f -> is_none v = false.
Proof. destruct v; [discriminate | reflexivity ..]. Qed.

(** The discount block on two floats with [original > current]. *)
Lemma discount_of_above (current original : JValue) (fc fo : spec_float) :
  PyNum.py_float current = PyOk fc ->
  PyNum.py_float original = PyOk fo ->
  PyNum.gt fo fc = true ->
  discount_of current original
  = match PyNum.truediv (PyNum.fsub fo fc) fo with
    | PyOk q =>
        match PyNum.py_round (PyNum.fmul q (PyNum.float_of_Z 100)) with
        | PyOk d => PyOk (Some d)
        | PyRaise ValueError => PyOk None
        | PyRaise e => PyRaise e
        end
    | PyRaise e => PyRaise e
    end.
Proof.
  intros Hc Ho Hgt. unfold discount_of, discount_try.
  rewrite Hc, Ho. cbn [bind]. rewrite Hgt.
  unfold PyNum.truediv. destruct fo as [s | s | | s m e]; cbn [bind];
    try reflexivity;
    match goal with
    | |- context [PyNum.py_round ?x] => destruct x; reflexivity
    end.
Qed.

(** C3, amended.  A record of the normaliser carries [discountPercentage]
    exactly when its current and original price are both present, both
    read as floats, the original one is strictly above the current one
    and the percentage rounds, which it does unless it is a NaN; the
    value is the rounded percentage.  In every other case the field is
    absent.  The sign of the prices plays no part.  A record never holds
    an original price of 0 above its current price: there the division
    raises and the normaliser returns no record. *)
Theorem discount_only_if_original_above_current
  (product : Dict) (term : string) (r : ProductRecord) :
  extract_product_info product term = PyOk r ->
  (forall d,
     discountPercentage r = Some d
     <-> exists current original fc fo q,
           currentPrice r = Some current
           /\ originalPrice r = Some original
           /\ PyNum.py_float current = PyOk fc
           /\ PyNum.py_float original = PyOk fo
           /\ PyNum.gt fo fc = true
           /\ PyNum.truediv (PyNum.fsub fo fc) fo = PyOk q
           /\ PyNum.py_round (PyNum.fmul q (PyNum.float_of_Z 100))
              = PyOk d)
  /\ (forall current original fc fo,
        currentPrice r = Some current ->
        originalPrice r = Some original ->
        PyNum.py_float current = PyOk fc ->
        PyNum.py_float original = PyOk fo ->
        PyNum.gt fo fc = true ->
        (forall s, fo <> S754_zero s)
        /\ (discountPercentage r = None
            <-> PyNum.fmul (SFdiv PyNum.prec PyNum.emax
                              (PyNum.fsub fo fc) fo)
                  (PyNum.float_of_Z 100) = S754_nan)).
Proof.
  intros Hr.
  apply extract_product_info_ok in Hr
    as [_ [_ [_ [pf [Hpf [Hd [Hc Ho]]]]]]].
  assert (Hran : forall current original fc fo,
            currentPrice r = Some current ->
            originalPrice r = Some original ->
            PyNum.py_float current = PyOk fc ->
            PyNum.py_float original = PyOk fo ->
            PyNum.gt fo fc = true ->
            match PyNum.truediv (PyNum.fsub fo fc) fo with
            | PyOk q =>
                match PyNum.py_round
                        (PyNum.fmul q (PyNum.float_of_Z 100)) with
                | PyOk d => PyOk (Some d)
                | PyRaise ValueError => PyOk None
                | PyRaise e => PyRaise e
                end
            | PyRaise e => PyRaise e
            end = PyOk (discountPercentage r)).
  { intros current original fc fo Hcur Horig Hfc Hfo Hgt.
    rewrite <- (discount_of_above _ _ _ _ Hfc Hfo Hgt), Hd.
    apply (price_block_runs_discount product); try congruence.
    - exact (py_float_not_none _ _ Hfc).
    - exact (py_float_not_none _ _ Hfo). }
  split.
  - intros d. split.
    + intros Hsome. rewrite Hd in Hsome.
      destruct (price_block_discount _ _ _ Hpf Hsome)
        as [pi [cur [orig [_ [_ [_ [Hcp [Hop Hdisc]]]]]]]].
      apply discount_of_some in Hdisc
        as [fc [fo [q [Hfc [Hfo [Hgt [Hq Hround]]]]]]].
      exists (dict_get "amount" cur), (dict_get "amount" orig), fc, fo, q.
      repeat split; congruence.
    + intros [current [original [fc [fo [q [Hcur [Horig [Hfc [Hfo [Hgt
               [Hq Hround]]]]]]]]]]].
      specialize (Hran _ _ _ _ Hcur Horig Hfc Hfo Hgt).
      rewrite Hq, Hround in Hran. now injection Hran.
  - intros current original fc fo Hcur Horig Hfc Hfo Hgt.
    specialize (Hran _ _ _ _ Hcur Horig Hfc Hfo Hgt).
    unfold PyNum.truediv in Hran.
    destruct fo as [s | s | | s m e]; [discriminate | | | ];
      (split; [discriminate|]);
      match type of Hran with
      | context [PyNum.py_round ?x] =>
          destruct x; cbn in Hran;
            try discriminate;
            injection Hran as <-;
            split; try discriminate; reflexivity
      end.
Qed.

Definition sale_record : ProductRecord :=
  match extract_product_info sale_product "milk" with
  | PyOk r => r
  | PyRaise _ => not_found_record "milk"
  end.

Lemma discount_only_if_original_above_current_witness :
  extract_product_info sale_product "milk" = PyOk sale_record
  /\ discountPercentage sale_record = Some 20%Z
  /\ exists current original fc fo q,
       currentPrice sale_record = Some current
       /\ originalPrice sale_record = Some original
       /\ PyNum.py_float current = PyOk fc
       /\ PyNum.py_float original = PyOk fo
       /\ PyNum.gt fo fc = true
       /\ PyNum.truediv (PyNum.fsub fo fc) fo = PyOk q
       /\ PyNum.py_round (PyNum.fmul q (PyNum.float_of_Z 100))
          = PyOk 20%Z.
Proof.
  assert (H : extract_product_info sale_product "milk" = PyOk sale_record)
    by (vm_compute; reflexivity).
  assert (Hd : discountPercentage sale_record = Some 20%Z)
    by (vm_compute; reflexivity).
  split; [exact H|]. split; [exact Hd|].
  exact (proj1 (proj1 (discount_only_if_original_above_current
                         sale_product "milk" sale_record H) 20%Z) Hd).
Defined.

(** An amount behind a file separator does not read as a float and gives
    no discount; behind a no-break space it does. *)
Example separator_prices :
  (exists r,
     extract_product_info
       [("price",
         JDict [("current", JDict [("amount", JStr (String "028"%char "8"))]);
                ("original", JDict [("amount", JStr "10")])])]
       "milk" = PyOk r
     /\ discountPercentage r = None)
  /\ (exists r,
        extract_product_info
          [("price",
            JDict [("current",
                    JDict [("amount", JStr (String "160"%char "8"))]);
                   ("original", JDict [("amount", JStr "10")])])]
          "milk" = PyOk r
        /\ discountPercentage r = Some 20%Z).
Proof. split; eexists; vm_compute; split; reflexivity. Qed.

(** The sign of a price is not looked at, and a zero original price above
    the current one ends the normaliser with an exception. *)
Example zero_prices :
  (exists r,
     extract_product_info
       [("price", JDict [("current", JDict [("amount", JStr "0")]);
                         ("original", JDict [("amount", JStr "5")])])]
       "milk" = PyOk r
     /\ discountPercentage r = Some 100%Z)
  /\ extract_product_info
       [("price", JDict [("current", JDict [("amount", JStr "-5")]);
                         ("original", JDict [("amount", JStr "0")])])]
       "milk" = PyRaise ZeroDivisionError
  /\ (exists r,
        extract_product_info
          [("price", JDict [("current", JDict [("amount", JStr "5")]);
                            ("original", JDict [("amount", JStr "inf")])])]
          "milk" = PyOk r
        /\ discountPercentage r = None).
Proof.
  split; [eexists; vm_compute; split; reflexivity|].
  split; [vm_compute; reflexivity|].
  eexists. vm_compute. split; reflexivity.
Qed.

(** C10.  When the regex recovery finds no [available] field in the
    product text, the raw product it builds has [available = True] and the
    normalised record reports the product as available; a product without
    the key, as structured parsing may give it, normalises to
    [available = False]. *)
Theorem available_default_differs (product_json product_id term : string) :
  Re.search available_pattern product_json = None ->
  dict_lookup "available" (extract_product_fields product_json product_id)
  = Some (JBool true)
  /\ (exists r,
        extract_product_info
          (extract_product_fields product_json product_id) term = PyOk r
        /\ found r = true
        /\ available r = JBool true)
  /\ (forall (product : Dict) (r : ProductRecord),
        dict_lookup "available" product = None ->
        extract_product_info product term = PyOk r ->
        available r = JBool false).
Proof.
  intros Hnone. unfold extract_product_fields. rewrite Hnone.
  generalize (field_or_none (escaped_string_field "retailerProductId")
                unescape_quote product_json).
  generalize (field_or_none (escaped_string_field "name") unescape
                product_json).
  generalize (field_or_none (escaped_string_field "brand") unescape
                product_json).
  generalize (field_or_none price_pattern (fun s => s) product_json).
  intros amount brand_v name_v retailer_v.
  split; [|split].
  - reflexivity.
  - destruct (Re.search (escaped_string_field "src") product_json);
      eexists; split; [reflexivity | split; reflexivity
                      | reflexivity | split; reflexivity].
  - intros product r Hmiss Hr.
    apply extract_product_info_ok in Hr as [_ [_ [Ha _]]].
    rewrite Ha. unfold dict_get_default. now rewrite Hmiss.
Qed.

Definition broken_object : string :=
  "{" ++ quoted "productId" ++ ": " ++ quoted "A1" ++ ", "
  ++ quoted "name" ++ ": " ++ quoted "Milk" ++ ",}".

Lemma available_default_differs_witness :
  Re.search available_pattern broken_object = None
  /\ dict_lookup "available" (extract_product_fields broken_object "A1")
     = Some (JBool true)
  /\ (exists r,
        extract_product_info (extract_product_fields broken_object "A1")
          "milk" = PyOk r
        /\ found r = true
        /\ available r = JBool true)
  /\ (forall (product : Dict) (r : ProductRecord),
        dict_lookup "available" product = None ->
        extract_product_info product "milk" = PyOk r ->
        available r = JBool false).
Proof.
  split; [vm_compute; reflexivity|].
  apply (available_default_differs broken_object "A1" "milk").
  vm_compute. reflexivity.
Defined.

(* ================================================================== *)
(** * What a match of the regex engine consumes *)
(* ================================================================== *)

Lemma str_app_assoc (a b c : string) : (a ++ b) ++ c = a ++ (b ++ c).
Proof. induction a as [|x a IH]; cbn; [reflexivity | now rewrite IH]. Qed.

Lemma str_app_nil_r (a : string) : a ++ EmptyString = a.
Proof. induction a as [|x a IH]; cbn; [reflexivity | now rewrite IH]. Qed.

Lemma str_app_length (a b : string) :
  String.length (a ++ b) = String.length a + String.length b.
Proof. induction a as [|x a IH]; cbn; [reflexivity | now rewrite IH]. Qed.

Lemma take_app (a b : string) : PyStr.take (String.length a) (a ++ b) = a.
Proof. induction a as [|x a IH]; cbn; [now destruct b | now rewrite IH]. Qed.

Lemma drop_app (a b : string) : PyStr.drop (String.length a) (a ++ b) = b.
Proof. induction a as [|x a IH]; cbn; [reflexivity | exact IH]. Qed.

Lemma take_drop (n : nat) (s : string) :
  PyStr.take n s ++ PyStr.drop n s = s.
Proof.
  revert s. induction n as [|n IH]; intros [|c s]; cbn; try reflexivity.
  now rewrite IH.
Qed.

Lemma startswith_app (p s : string) : PyStr.startswith p (p ++ s) = true.
Proof.
  induction p as [|c p IH]; cbn; [reflexivity|].
  now rewrite Ascii.eqb_refl, IH.
Qed.

Lemma startswith_inv (p s : string) :
  PyStr.startswith p s = true -> exists t, s = p ++ t.
Proof.
  revert s. induction p as [|c p IH]; intros s; cbn.
  - intros _. now exists s.
  - destruct s as [|d s]; [discriminate|].
    intros H. apply andb_true_iff in H as [Hc Hp].
    apply Ascii.eqb_eq in Hc. subst d.
    destruct (IH s Hp) as [t ->]. now exists t.
Qed.

Lemma contains_app (needle pre post : string) :
  PyStr.contains needle (pre ++ needle ++ post) = true.
Proof.
  induction pre as [|c pre IH].
  - cbn [append]. destruct (needle ++ post) eqn:E; cbn;
      rewrite <- E, startswith_app; reflexivity.
  - cbn [append PyStr.contains]. rewrite IH. apply orb_true_r.
Qed.

Lemma contains_inv (needle s : string) :
  PyStr.contains needle s = true ->
  exists pre post, s = pre ++ needle ++ post.
Proof.
  induction s as [|c s IH]; cbn [PyStr.contains].
  - rewrite orb_false_r. intros H. apply startswith_inv in H as [t ->].
    now exists EmptyString, t.
  - intros H. apply orb_true_iff in H as [H | H].
    + apply startswith_inv in H as [t ->]. now exists EmptyString, t.
    + destruct (IH H) as [pre [post ->]]. now exists (String c pre), post.
Qed.

(** The states a match of [r] can end in, started in a given state: the
    language of [r] read off the text, with the group it leaves. *)
Inductive steps : Re.regex -> Re.mstate -> Re.mstate -> Prop :=
| steps_eps m : steps Re.Eps m m
| steps_chr c prev s g :
    steps (Re.Chr c) (Re.MState prev (String c s) g) (Re.MState (Some c) s g)
| steps_cls (p : ascii -> bool) d prev s g :
    p d = true ->
    steps (Re.Cls p) (Re.MState prev (String d s) g) (Re.MState (Some d) s g)
| steps_cat r1 r2 m m1 m2 :
    steps r1 m m1 -> steps r2 m1 m2 -> steps (Re.Cat r1 r2) m m2
| steps_alt_l r1 r2 m m1 : steps r1 m m1 -> steps (Re.Alt r1 r2) m m1
| steps_alt_r r1 r2 m m1 : steps r2 m m1 -> steps (Re.Alt r1 r2) m m1
| steps_star_stop r m : steps (Re.Star r) m m
| steps_star_more r m m1 m2 :
    steps r m m1 -> steps (Re.Star r) m1 m2 -> steps (Re.Star r) m m2
| steps_grp r prev s g m1 :
    steps r (Re.MState prev s g) m1 ->
    steps (Re.Grp r) (Re.MState prev s g)
      (Re.MState (Re.ms_prev m1) (Re.ms_rest m1)
         (Some (PyStr.take (String.length s - String.length (Re.ms_rest m1))
                  s)))
| steps_wordb m :
    xorb (Re.word_side (Re.ms_prev m))
         (Re.word_side (Re.head_char (Re.ms_rest m))) = true ->
    steps Re.WordB m m.

(** Whatever the matcher hands to its continuation is such an end state. *)
Lemma run_sound (r : Re.regex) :
  forall (A : Type) prev s g (k : Re.mstate -> option A) x,
    Re.run r prev s g k = Some x ->
    exists m, steps r (Re.MState prev s g) m /\ k m = Some x.
Proof.
  induction r as [ | c | p | r1 IH1 r2 IH2 | r1 IH1 r2 IH2 | r1 IH1
                 | r1 IH1 | ]; intros A prev s g k x; cbn [Re.run].
  - intros H. eexists. split; [constructor | exact H].
  - destruct s as [|d s]; [discriminate|].
    destruct (Ascii.eqb c d) eqn:E; [|discriminate].
    apply Ascii.eqb_eq in E. subst d.
    intros H. eexists. split; [constructor | exact H].
  - destruct s as [|d s]; [discriminate|].
    destruct (p d) eqn:E; [|discriminate].
    intros H. eexists. split; [now constructor | exact H].
  - intros H. apply IH1 in H as [m1 [H1 H]].
    apply IH2 in H as [m2 [H2 H]].
    exists m2. split; [|exact H].
    econstructor; [exact H1|]. now destruct m1.
  - destruct (Re.run r1 prev s g k) as [y|] eqn:E.
    + intros [= <-]. apply IH1 in E as [m [H1 H]].
      exists m. split; [now apply steps_alt_l | exact H].
    + intros H. apply IH2 in H as [m [H2 H]].
      exists m. split; [now apply steps_alt_r | exact H].
  - generalize (String.length s) at 1. intros n. revert prev s g.
    induction n as [|n IHn]; intros prev s g.
    + intros H. eexists. split; [apply steps_star_stop | exact H].
    + match goal with
      | |- context [Re.run r1 prev s g ?k1] =>
          destruct (Re.run r1 prev s g k1) as [y|] eqn:E
      end.
      * intros [= <-]. apply IH1 in E as [m1 [H1 H]].
        destruct (String.length (Re.ms_rest m1) <? String.length s);
          [|discriminate].
        apply IHn in H as [m2 [H2 H]].
        exists m2. split; [|exact H].
        eapply steps_star_more; [exact H1|]. now destruct m1.
      * intros H. eexists. split; [apply steps_star_stop | exact H].
  - intros H. apply IH1 in H as [m1 [H1 H]].
    eexists. split; [apply steps_grp; exact H1 | exact H].
  - destruct (xorb _ _) eqn:E; [|discriminate].
    intros H. eexists. split; [now apply steps_wordb | exact H].
Qed.

Lemma match_at_sound (r : Re.regex) (prev : option ascii) (s : string)
  (m : Re.mstate) :
  Re.match_at r prev s = Some m -> steps r (Re.MState prev s None) m.
Proof.
  unfold Re.match_at. intros H.
  apply run_sound in H as [m' [Hs [= <-]]]. exact Hs.
Qed.

(** A match consumes a prefix of the text it starts on. *)
Lemma steps_consumes (r : Re.regex) (m m' : Re.mstate) :
  steps r m m' -> exists w, Re.ms_rest m = w ++ Re.ms_rest m'.
Proof.
  induction 1 as [ m | c prev s g | p d prev s g Hp
                 | r1 r2 m m1 m2 _ [w1 H1] _ [w2 H2]
                 | r1 r2 m m1 _ IH | r1 r2 m m1 _ IH | r m
                 | r m m1 m2 _ [w1 H1] _ [w2 H2]
                 | r prev s g m1 _ IH | m Hb ]; cbn in *.
  - now exists EmptyString.
  - now exists (String c EmptyString).
  - now exists (String d EmptyString).
  - exists (w1 ++ w2). now rewrite str_app_assoc, <- H2.
  - exact IH.
  - exact IH.
  - now exists EmptyString.
  - exists (w1 ++ w2). now rewrite str_app_assoc, <- H2.
  - exact IH.
  - now exists EmptyString.
Qed.

Lemma consumed_text (s w rest : string) :
  s = w ++ rest ->
  PyStr.take (String.length s - String.length rest) s = w.
Proof.
  intros ->. rewrite str_app_length.
  replace (String.length w + String.length rest - String.length rest)
    with (String.length w) by lia.
  apply take_app.
Qed.

(** A pattern without a group leaves the group as it finds it. *)
Fixpoint group_free (r : Re.regex) : bool :=
  match r with
  | Re.Grp _ => false
  | Re.Cat r1 r2 | Re.Alt r1 r2 => group_free r1 && group_free r2
  | Re.Star r1 => group_free r1
  | _ => true
  end.

Lemma steps_group_free (r : Re.regex) (m m' : Re.mstate) :
  steps r m m' -> group_free r = true -> Re.ms_group m' = Re.ms_group m.
Proof.
  induction 1 as [ m | c prev s g | p d prev s g Hp
                 | r1 r2 m m1 m2 _ IH1 _ IH2
                 | r1 r2 m m1 _ IH | r1 r2 m m1 _ IH | r m
                 | r m m1 m2 _ IH1 _ IH2
                 | r prev s g m1 _ IH | m Hb ]; cbn; try reflexivity;
    try discriminate.
  - intros H. apply andb_true_iff in H as [H1 H2].
    now rewrite IH2, IH1.
  - intros H. apply andb_true_iff in H as [H1 H2]. now apply IH.
  - intros H. apply andb_true_iff in H as [H1 H2]. now apply IH.
  - intros H. rewrite IH2 by exact H. now apply IH1.
Qed.

(** A literal consumes itself. *)
Lemma steps_lit (w : string) (m m' : Re.mstate) :
  steps (Re.Lit w) m m' ->
  Re.ms_rest m = w ++ Re.ms_rest m' /\ Re.ms_group m' = Re.ms_group m.
Proof.
  revert m. induction w as [|c w IH]; intros m H; cbn in H.
  - inversion H; subst. now split.
  - inversion H as [ | | | r1 r2 m0 m1 m2 H1 H2 | | | | | | ]; subst.
    inversion H1; subst. apply IH in H2 as [Hr Hg]. cbn in *.
    split; [now rewrite Hr | exact Hg].
Qed.

(** A run of one character class consumes characters of the class. *)
Lemma steps_star_cls (p : ascii -> bool) (m m' : Re.mstate) :
  steps (Re.Star (Re.Cls p)) m m' ->
  exists w,
    Re.ms_rest m = w ++ Re.ms_rest m'
    /\ all_chars p w = true
    /\ Re.ms_group m' = Re.ms_group m.
Proof.
  remember (Re.Star (Re.Cls p)) as r eqn:Hr. intros H.
  induction H as [ | | | | | | r0 m | r0 m m1 m2 H1 _ H2 IH2 | | ];
    try discriminate.
  - exists EmptyString. repeat split.
  - injection Hr as ->. specialize (IH2 eq_refl).
    destruct IH2 as [w [Hw [Hp Hg]]].
    inversion H1 as [ | | p0 d prev s g Hd | | | | | | | ]; subst.
    cbn in *. exists (String d w). cbn. rewrite Hd, Hp, Hw.
    repeat split. exact Hg.
Qed.

Lemma steps_plus_cls (p : ascii -> bool) (m m' : Re.mstate) :
  steps (Re.Plus (Re.Cls p)) m m' ->
  exists w,
    Re.ms_rest m = w ++ Re.ms_rest m'
    /\ all_chars p w = true
    /\ w <> EmptyString
    /\ Re.ms_group m' = Re.ms_group m.
Proof.
  unfold Re.Plus. intros H.
  inversion H as [ | | | r1 r2 m0 m1 m2 H1 H2 | | | | | | ]; subst.
  inversion H1 as [ | | p0 d prev s g Hd | | | | | | | ]; subst.
  apply steps_star_cls in H2 as [w [Hw [Hp Hg]]]. cbn in *.
  exists (String d w). cbn. rewrite Hd, Hp, Hw.
  repeat split; [discriminate | exact Hg].
Qed.

(** Every match [finditer] lists is a match of the pattern on a suffix of
    the text. *)
Lemma finditer_aux_matches (fuel : nat) (r : Re.regex) :
  forall prev s pos m,
    In m (Re.finditer_aux fuel r prev s pos) ->
    exists pre prev' s' ms,
      s = pre ++ s'
      /\ Re.match_at r prev' s' = Some ms
      /\ Re.m_group1 m = Re.ms_group ms
      /\ Re.m_text m
         = PyStr.take (String.length s' - String.length (Re.ms_rest ms)) s'.
Proof.
  induction fuel as [|fuel IH]; intros prev s pos m; cbn [Re.finditer_aux];
    [intros []|].
  destruct (Re.match_at r prev s) as [ms|] eqn:Hm.
  - assert (Hhere : exists pre prev' s' ms',
              s = pre ++ s'
              /\ Re.match_at r prev' s' = Some ms'
              /\ Re.ms_group ms = Re.ms_group ms'
              /\ PyStr.take (String.length s - String.length (Re.ms_rest ms)) s
                 = PyStr.take
                     (String.length s' - String.length (Re.ms_rest ms')) s')
      by (exists EmptyString, prev, s, ms; auto).
    destruct (String.length s - String.length (Re.ms_rest ms)) as [|n] eqn:Hn.
    + destruct s as [|c s].
      * intros [<- | []]. exact Hhere.
      * intros [<- | Hin]; [exact Hhere|].
        apply IH in Hin as [pre [prev' [s' [ms' [-> H]]]]].
        now exists (String c pre), prev', s', ms'.
    + intros [<- | Hin]; [exact Hhere|].
      apply IH in Hin as [pre [prev' [s' [ms' [Hs H]]]]].
      apply match_at_sound, steps_consumes in Hm as [w Hw]. cbn in Hw.
      exists (w ++ pre), prev', s', ms'.
      split; [now rewrite str_app_assoc, <- Hs | exact H].
  - destruct s as [|c s]; [intros []|].
    intros Hin. apply IH in Hin as [pre [prev' [s' [ms' [-> H]]]]].
    now exists (String c pre), prev', s', ms'.
Qed.

Lemma finditer_matches (r : Re.regex) (s : string) (m : Re.rmatch) :
  In m (Re.finditer r s) ->
  exists pre prev' s' ms,
    s = pre ++ s'
    /\ Re.match_at r prev' s' = Some ms
    /\ Re.m_group1 m = Re.ms_group ms
    /\ Re.m_text m
       = PyStr.take (String.length s' - String.length (Re.ms_rest ms)) s'.
Proof. apply finditer_aux_matches. Qed.

(** The match [search] returns is a match of the pattern on the suffix that
    begins at [start()]. *)
Lemma search_from_matches (r : Re.regex) :
  forall s prev pos m,
    Re.search_from r prev s pos = Some m ->
    exists pre prev' s' ms,
      s = pre ++ s'
      /\ Re.m_start m = pos + String.length pre
      /\ Re.match_at r prev' s' = Some ms
      /\ Re.m_group1 m = Re.ms_group ms.
Proof.
  induction s as [|c s IH]; intros prev pos m; cbn [Re.search_from].
  - destruct (Re.match_at r prev EmptyString) as [ms|] eqn:Hm;
      [|discriminate].
    intros [= <-]. exists EmptyString, prev, EmptyString, ms. cbn.
    repeat split; [lia | exact Hm].
  - destruct (Re.match_at r prev (String c s)) as [ms|] eqn:Hm.
    + intros [= <-]. exists EmptyString, prev, (String c s), ms. cbn.
      repeat split; [lia | exact Hm].
    + intros H. apply IH in H as [pre [prev' [s' [ms [-> [Hp H]]]]]].
      exists (String c pre), prev', s', ms. cbn.
      repeat split; [lia | apply H | apply H].
Qed.

Lemma all_chars_app (p : ascii -> bool) (a b : string) :
  all_chars p (a ++ b) = all_chars p a && all_chars p b.
Proof.
  induction a as [|c a IH]; cbn; [reflexivity|].
  now rewrite IH, andb_assoc.
Qed.

(** What a match of [QkeyQ\s*:\s*] starts with. *)
Lemma steps_key_colon (k : string) (m m' : Re.mstate) :
  steps (key_colon k) m m' ->
  (exists t, Re.ms_rest m = quoted k ++ t)
  /\ Re.ms_group m' = Re.ms_group m.
Proof.
  unfold key_colon. cbn [seq]. intros H.
  inversion H as [ | | | r1 r2 m0 m1 m2 H1 H2 | | | | | | ]; subst.
  apply (steps_lit (quoted k)) in H1 as [Hr Hg].
  pose proof (steps_consumes _ _ _ H2) as [w Hw].
  split.
  - exists (w ++ Re.ms_rest m'). now rewrite Hr, Hw.
  - rewrite <- Hg. apply (steps_group_free _ _ _ H2). reflexivity.
Qed.

Lemma steps_chr_inv (c : ascii) (m m' : Re.mstate) :
  steps (Re.Chr c) m m' ->
  Re.ms_rest m = String c (Re.ms_rest m')
  /\ Re.ms_group m' = Re.ms_group m.
Proof. intros H. inversion H; subst. now split. Qed.

(** What a match of [QkeyQ\s*:\s*Q([^Q]+)Q] starts with and captures. *)
Lemma steps_simple_string_field (k : string) (m m' : Re.mstate) :
  steps (simple_string_field k) m m' ->
  (exists t, Re.ms_rest m = quoted k ++ t)
  /\ exists id,
       Re.ms_group m' = Some id
       /\ id <> EmptyString
       /\ all_chars not_quote id = true.
Proof.
  unfold simple_string_field. cbn [seq]. intros H.
  inversion H as [ | | | r1 r2 m0 m1 m4 H1 H2 | | | | | | ]; subst.
  apply steps_key_colon in H1 as [Hk _]. split; [exact Hk|].
  inversion H2 as [ | | | r1 r2 m0 m2' m4' H3 H4 | | | | | | ]; subst.
  inversion H4 as [ | | | r1 r2 m0 m3 m4' H5 H6 | | | | | | ]; subst.
  inversion H5 as [ | | | | | | | | r prev s g mg Hg | ]; subst.
  apply steps_chr_inv in H6 as [_ Hgrp]. cbn in Hgrp.
  apply steps_plus_cls in Hg as [w [Hw [Hp [Hne _]]]]. cbn in Hw.
  exists w. split; [|now split].
  rewrite Hgrp. f_equal. now apply consumed_text.
Qed.

(** Every match of a string-field pattern in a text shows the key in the
    text and captures a non-empty text without a double quote. *)
Lemma finditer_simple_string_field (k text : string) (m : Re.rmatch) :
  In m (Re.finditer (simple_string_field k) text) ->
  PyStr.contains (quoted k) text = true
  /\ Re.group1 m <> EmptyString
  /\ all_chars not_quote (Re.group1 m) = true.
Proof.
  intros Hin.
  apply finditer_matches in Hin as [pre [prev [s' [ms [-> [Hm [Hg _]]]]]]].
  apply match_at_sound, steps_simple_string_field in Hm
    as [[t Ht] [id [Hid [Hne Hq]]]].
  cbn [Re.ms_rest] in Ht. subst s'.
  split; [apply (contains_app (quoted k))|].
  unfold Re.group1. rewrite Hg, Hid. now split.
Qed.

(* ================================================================== *)
(** * Properties of the fetcher *)
(* ================================================================== *)

Lemma key_eqb_str_l (a : string) (k : JValue) :
  key_eqb (JStr a) k = true -> k = JStr a.
Proof.
  destruct k; cbn; try discriminate.
  intros H. apply String.eqb_eq in H. now subst.
Qed.

Lemma key_eqb_str_refl (a : string) : key_eqb (JStr a) (JStr a) = true.
Proof. cbn. apply String.eqb_refl. Qed.

Lemma map_put_lookup_same (a : string) (v : Dict) (m : ProductMap) :
  map_lookup (JStr a) (map_put (JStr a) v m) = Some v.
Proof.
  induction m as [|[k' v'] m IH]; cbn [map_put map_lookup].
  - now rewrite key_eqb_str_refl.
  - destruct (key_eqb (JStr a) k') eqn:E; cbn [map_lookup]; rewrite E;
      [reflexivity | exact IH].
Qed.

Lemma map_put_lookup_other (a b : string) (v : Dict) (m : ProductMap) :
  a <> b ->
  map_lookup (JStr b) (map_put (JStr a) v m) = map_lookup (JStr b) m.
Proof.
  intros Hab. induction m as [|[k' v'] m IH]; cbn [map_put map_lookup].
  - cbn. destruct (String.eqb b a) eqn:E; [|reflexivity].
    apply String.eqb_eq in E. congruence.
  - destruct (key_eqb (JStr a) k') eqn:E; cbn [map_lookup].
    + apply key_eqb_str_l in E. subst k'. cbn.
      destruct (String.eqb b a) eqn:E'; [|reflexivity].
      apply String.eqb_eq in E'. congruence.
    + now rewrite IH.
Qed.

(** An assignment either overwrites the value under a key it finds or adds
    its key at the end. *)
Lemma map_put_entries (a : string) (v : Dict) (m : ProductMap) :
  (map fst (map_put (JStr a) v m) = map fst m
   /\ In (JStr a) (map fst m))
  \/ (map fst (map_put (JStr a) v m) = (map fst m ++ [JStr a])%list
      /\ ~ In (JStr a) (map fst m)).
Proof.
  induction m as [|[k' v'] m IH]; cbn [map_put map fst].
  - right. split; [reflexivity | intros []].
  - destruct (key_eqb (JStr a) k') eqn:E; cbn [map fst].
    + apply key_eqb_str_l in E. subst k'. left. split; [reflexivity | now left].
    + destruct IH as [[Hk Hin] | [Hk Hnin]].
      * left. split; [now rewrite Hk | now right].
      * right. split; [now rewrite Hk|].
        intros [-> | Hin]; [|contradiction].
        now rewrite key_eqb_str_refl in E.
Qed.

Lemma map_put_In (a : string) (v : Dict) (m : ProductMap) (k : JValue)
  (w : Dict) :
  In (k, w) (map_put (JStr a) v m) ->
  (k = JStr a /\ w = v) \/ In (k, w) m.
Proof.
  induction m as [|[k' v'] m IH]; cbn [map_put].
  - intros [[= <- <-] | []]. now left.
  - destruct (key_eqb (JStr a) k') eqn:E.
    + apply key_eqb_str_l in E. subst k'.
      intros [[= <- <-] | Hin]; [now left | right; now right].
    + intros [[= <- <-] | Hin]; [right; now left|].
      apply IH in Hin as [H | H]; [now left | right; now right].
Qed.

(** What the placeholder loop maintains: every entry is the placeholder of
    an identifier already handled, each handled identifier has its entry,
    and no key occurs twice. *)
Definition placeholder_map (product_id : string) (handled : list string)
  (m : ProductMap) : Prop :=
  (forall k w, In (k, w) m ->
     exists prod_id,
       In prod_id handled
       /\ k = JStr (clean_id prod_id)
       /\ w = placeholder product_id (clean_id prod_id))
  /\ (forall prod_id, In prod_id handled ->
        map_lookup (JStr (clean_id prod_id)) m
        = Some (placeholder product_id (clean_id prod_id)))
  /\ NoDup (map fst m)
  /\ List.length m <= List.length handled.

Lemma placeholder_map_step (product_id prod_id : string)
  (handled : list string) (m : ProductMap) :
  placeholder_map product_id handled m ->
  placeholder_map product_id (handled ++ [prod_id])
    (map_put (JStr (clean_id prod_id))
       (placeholder product_id (clean_id prod_id)) m).
Proof.
  intros [Hform [Hall [Hnd Hlen]]]. repeat split.
  - intros k w Hin. apply map_put_In in Hin as [[-> ->] | Hin].
    + exists prod_id. split; [apply in_or_app; right; now left | now split].
    + destruct (Hform k w Hin) as [p [Hp Hkw]].
      exists p. split; [apply in_or_app; now left | exact Hkw].
  - intros p Hp. apply in_app_or in Hp as [Hp | [<- | []]].
    + destruct (string_dec (clean_id prod_id) (clean_id p)) as [E | E].
      * rewrite <- E. apply map_put_lookup_same.
      * rewrite map_put_lookup_other by exact E. now apply Hall.
    + apply map_put_lookup_same.
  - destruct (map_put_entries (clean_id prod_id)
                (placeholder product_id (clean_id prod_id)) m)
      as [[-> _] | [-> Hnin]]; [exact Hnd|].
    apply NoDup_app; [exact Hnd | constructor; [intros [] | constructor] |].
    intros x Hx [<- | []]. contradiction.
  - rewrite length_app. cbn.
    assert (Hl : List.length
              (map fst (map_put (JStr (clean_id prod_id))
                       (placeholder product_id (clean_id prod_id)) m))
            <= S (List.length m)).
    { destruct (map_put_entries (clean_id prod_id)
                  (placeholder product_id (clean_id prod_id)) m)
        as [[-> _] | [-> _]];
        [|rewrite length_app]; rewrite length_map; cbn; lia. }
    rewrite length_map in Hl. lia.
Qed.

Lemma placeholders_map (product_id : string) (product_ids : list string) :
  forall handled m,
    placeholder_map product_id handled m ->
    placeholder_map product_id (handled ++ product_ids)
      (placeholders product_id product_ids m).
Proof.
  induction product_ids as [|prod_id rest IH]; intros handled m Hm; cbn.
  - now rewrite app_nil_r.
  - replace (handled ++ prod_id :: rest)%list
      with ((handled ++ [prod_id]) ++ rest)%list
      by (now rewrite <- app_assoc).
    apply IH. now apply placeholder_map_step.
Qed.

Lemma placeholder_map_empty (product_id : string) :
  placeholder_map product_id [] [].
Proof.
  repeat split; try easy. constructor.
Qed.

(** With an identifier discovered, the body holds one of the two markers
    the fetcher tests for. *)
Lemma discover_ids_marker (text : string) :
  discover_ids text <> [] ->
  negb (PyStr.contains (quoted "productId") text)
  && negb (PyStr.contains (quoted "retailerProductId") text) = false.
Proof.
  unfold discover_ids.
  destruct (map Re.group1 (Re.finditer product_id_pattern text))
    as [|first others] eqn:Hids; cbn [is_empty].
  - destruct (Re.finditer retailer_id_pattern text) as [|m ms] eqn:Hm;
      [intros H; now contradiction H|].
    intros _.
    assert (Hin : In m (Re.finditer retailer_id_pattern text))
      by (rewrite Hm; now left).
    apply finditer_simple_string_field in Hin as [Hc _].
    rewrite Hc. apply andb_false_r.
  - intros _.
    destruct (Re.finditer product_id_pattern text) as [|m ms] eqn:Hm;
      [discriminate|].
    assert (Hin : In m (Re.finditer product_id_pattern text))
      by (rewrite Hm; now left).
    apply finditer_simple_string_field in Hin as [Hc _].
    now rewrite Hc.
Qed.

(** The placeholder entries of a list of identifiers, in its order. *)
Definition placeholder_entries (product_id : string) (cids : list string)
  : ProductMap :=
  map (fun cid => (JStr cid, placeholder product_id cid)) cids.

Lemma map_put_placeholder (product_id cid : string) (seen : list string) :
  map_put (JStr cid) (placeholder product_id cid)
    (placeholder_entries product_id seen)
  = if mem cid seen then placeholder_entries product_id seen
    else placeholder_entries product_id (seen ++ [cid]).
Proof.
  induction seen as [|a seen IH]; [reflexivity|].
  cbn [placeholder_entries map map_put key_eqb List.app].
  rewrite mem_cons. destruct (String.eqb cid a) eqn:E; cbn [orb].
  - apply String.eqb_eq in E. now subst a.
  - fold (placeholder_entries product_id seen). rewrite IH.
    now destruct (mem cid seen).
Qed.

Lemma first_occurrences_ext (candidates : list string) :
  forall earlier earlier',
    (forall x, mem x earlier = mem x earlier') ->
    spec_first_occurrences earlier candidates
    = spec_first_occurrences earlier' candidates.
Proof.
  induction candidates as [|t rest IH]; intros earlier earlier' H;
    [reflexivity|].
  cbn. rewrite (H t).
  assert (H' : forall x, mem x (earlier ++ [t]) = mem x (earlier' ++ [t]))
    by (intros x; now rewrite !mem_app, H).
  destruct (mem t earlier'); [|f_equal]; now apply IH.
Qed.

Lemma first_occurrences_distinct (candidates : list string) :
  forall earlier,
    NoDup candidates ->
    (forall x, In x candidates -> mem x earlier = false) ->
    spec_first_occurrences earlier candidates = candidates.
Proof.
  induction candidates as [|t rest IH]; intros earlier Hnd Hfresh;
    [reflexivity|].
  cbn. rewrite (Hfresh t (or_introl eq_refl)). f_equal.
  inversion Hnd as [|? ? Hnin Hnd']. subst. apply IH; [exact Hnd'|].
  intros x Hx. rewrite mem_app, (Hfresh x (or_intror Hx)), mem_single.
  apply String.eqb_neq. intros ->. contradiction.
Qed.

(** The placeholder loop, started on placeholder entries, ends with the
    placeholder entries of the identifiers without their tag, each at the
    place of its first occurrence. *)
Lemma placeholders_entries (product_id : string) (product_ids : list string) :
  forall seen,
    placeholders product_id product_ids (placeholder_entries product_id seen)
    = placeholder_entries product_id
        (seen ++ spec_first_occurrences seen (map clean_id product_ids)).
Proof.
  induction product_ids as [|prod_id rest IH]; intros seen;
    cbn [placeholders map spec_first_occurrences].
  - now rewrite app_nil_r.
  - rewrite map_put_placeholder.
    destruct (mem (clean_id prod_id) seen) eqn:Hm.
    + rewrite IH. do 2 f_equal. apply first_occurrences_ext.
      intros x. symmetry. now apply mem_snoc_seen.
    + rewrite IH. f_equal. now rewrite <- app_assoc.
Qed.

Lemma map_set_nonempty (k : JValue) (v : Dict) (m r : ProductMap) :
  map_set k v m = PyOk r -> r <> [].
Proof.
  unfold map_set. destruct (hashable k); [|discriminate].
  intros [= <-]. destruct m as [|[k' v'] m]; cbn; [discriminate|].
  destruct (key_eqb k k'); discriminate.
Qed.

Section FetcherProperties.

Variable json_loads : string -> LoadResult.
Variable re_compile : string -> option Re.regex.

(** C5.  The fetcher returns a tagged result for every outcome of the
    request and never lets an exception through: a status other than 200
    gives [None]; a body with status 200 and neither marker gives the empty
    mapping, which is not [None]; a timeout gives [None]; and a
    [RecursionError] raised while the body is processed gives the empty
    mapping. *)
Theorem fetch_product_data_tagged (product_id : string) :
  (forall outcome,
     exists r,
       fetch_product_data json_loads re_compile product_id outcome = PyOk r)
  /\ (forall status_code text,
        status_code <> 200%Z ->
        fetch_product_data json_loads re_compile product_id
          (HttpResponse status_code text) = PyOk None)
  /\ (forall text,
        PyStr.contains (quoted "productId") text = false ->
        PyStr.contains (quoted "retailerProductId") text = false ->
        fetch_product_data json_loads re_compile product_id
          (HttpResponse 200 text) = PyOk (Some []))
  /\ fetch_product_data json_loads re_compile product_id HttpTimeout
     = PyOk None
  /\ (forall outcome,
        fetch_try json_loads re_compile product_id outcome
        = PyRaise RecursionError ->
        fetch_product_data json_loads re_compile product_id outcome
        = PyOk (Some []))
  /\ (Some [] : option ProductMap) <> None.
Proof.
  repeat split.
  - intros outcome. unfold fetch_product_data.
    destruct (fetch_try json_loads re_compile product_id outcome)
      as [r | e]; [now exists r|].
    destruct e; eexists; reflexivity.
  - intros status_code text Hs. unfold fetch_product_data, fetch_try.
    apply Z.eqb_neq in Hs. now rewrite Hs.
  - intros text H1 H2. unfold fetch_product_data, fetch_try.
    cbn [Z.eqb Pos.eqb negb]. now rewrite H1, H2.
  - intros outcome H. unfold fetch_product_data. now rewrite H.
  - discriminate.
Qed.

(** An identifier for which the loop adds nothing: its pattern compiles
    and either matches nowhere in the body or matches where no object
    with balanced braces can be isolated. *)
Definition leaves_nothing (text prod_id : string) : Prop :=
  exists pattern,
    re_compile (search_pattern prod_id) = Some pattern
    /\ (Re.search pattern text = None
        \/ exists id_match,
             Re.search pattern text = Some id_match
             /\ isolate_object text (Re.m_start id_match) = None).

Lemma fetch_one_leaves_nothing (text prod_id : string) (result : ProductMap) :
  leaves_nothing text prod_id ->
  fetch_one json_loads re_compile text result prod_id = PyOk result.
Proof.
  intros [pattern [Hc [Hs | [id_match [Hs Hi]]]]]; unfold fetch_one;
    rewrite Hc, Hs; [reflexivity | now rewrite Hi].
Qed.

(** One turn of the loop either leaves the mapping as it is, for such an
    identifier, or leaves it with an entry. *)
Lemma fetch_one_result (text prod_id : string) (result r : ProductMap) :
  fetch_one json_loads re_compile text result prod_id = PyOk r ->
  (r = result /\ leaves_nothing text prod_id) \/ r <> [].
Proof.
  unfold fetch_one, leaves_nothing.
  destruct (re_compile (search_pattern prod_id)) as [pattern|];
    [|discriminate].
  destruct (Re.search pattern text) as [id_match|] eqn:Hs.
  2:{ intros [= <-]. left. split; [reflexivity|].
      exists pattern. split; [reflexivity | now left]. }
  destruct (isolate_object text (Re.m_start id_match)) as [product_json|]
    eqn:Hi.
  2:{ intros [= <-]. left. split; [reflexivity|].
      exists pattern. split; [reflexivity|]. right. now exists id_match. }
  destruct (json_loads product_json) as [product_data | | | ];
    [| |discriminate|discriminate].
  - intros H. right. now apply map_set_nonempty in H.
  - cbn [extract_product_fields List.app is_empty negb].
    intros H. right. now apply map_set_nonempty in H.
Qed.

Lemma fetch_one_keeps (text prod_id : string) (result r : ProductMap) :
  result <> [] ->
  fetch_one json_loads re_compile text result prod_id = PyOk r -> r <> [].
Proof.
  intros Hne H. apply fetch_one_result in H as [[-> _] | H]; assumption.
Qed.

Lemma fetch_loop_keeps (text : string) (product_ids : list string) :
  forall result r,
    result <> [] ->
    fetch_loop json_loads re_compile text product_ids result = PyOk r ->
    r <> [].
Proof.
  induction product_ids as [|prod_id rest IH]; intros result r Hne;
    cbn [fetch_loop].
  - now intros [= <-].
  - destruct (fetch_one json_loads re_compile text result prod_id)
      as [r1 | e] eqn:H1; cbn [bind]; [|discriminate].
    apply IH. now apply (fetch_one_keeps _ _ _ _ Hne H1).
Qed.

(** The loop ends with an empty mapping exactly when every identifier
    leaves nothing. *)
Lemma fetch_loop_empty_iff (text : string) (product_ids : list string) :
  fetch_loop json_loads re_compile text product_ids [] = PyOk []
  <-> Forall (leaves_nothing text) product_ids.
Proof.
  induction product_ids as [|prod_id rest IH]; cbn [fetch_loop].
  - split; [constructor | reflexivity].
  - split.
    + destruct (fetch_one json_loads re_compile text [] prod_id)
        as [r1 | e] eqn:H1; cbn [bind]; [|discriminate].
      intros Hloop.
      destruct (fetch_one_result _ _ _ _ H1) as [[-> Hn] | Hne].
      * constructor; [exact Hn | now apply IH].
      * now apply (fetch_loop_keeps _ _ _ _ Hne) in Hloop.
    + intros H. inversion H as [|? ? Hn Hrest]. subst.
      rewrite (fetch_one_leaves_nothing _ _ [] Hn). cbn [bind].
      now apply IH.
Qed.

(** C7, amended.  Let the fetcher discover at least one identifier in a
    body.  The loop over the identifiers ends without an exception and
    with an empty mapping exactly when every identifier leaves nothing:
    its pattern compiles and no object can be isolated around a match.
    In that case, and in no other, the fetcher returns placeholders: one
    entry for each distinct identifier without its [retailer_] tag, at
    the place of its first occurrence, keyed by that identifier, named
    [Product] followed by it and marked available.  There is one entry
    per discovered identifier when the identifiers without their tags
    are pairwise distinct.  When the loop ends with entries they are
    returned as they are; when it raises [RecursionError] the empty
    mapping is returned, and when it raises anything else the result is
    [None]: in both cases no placeholder is made. *)
Theorem placeholders_for_unparsed_ids (product_id text : string) :
  discover_ids text <> [] ->
  (fetch_loop json_loads re_compile text (discover_ids text) [] = PyOk []
   <-> Forall (leaves_nothing text) (discover_ids text))
  /\ (fetch_loop json_loads re_compile text (discover_ids text) [] = PyOk [] ->
      exists result,
        fetch_product_data json_loads re_compile product_id
          (HttpResponse 200 text) = PyOk (Some result)
        /\ result = placeholders product_id (discover_ids text) []
        /\ result
           = map (fun cid => (JStr cid, placeholder product_id cid))
               (spec_first_occurrences []
                  (map clean_id (discover_ids text)))
        /\ (forall prod_id, In prod_id (discover_ids text) ->
              exists entry,
                map_lookup (JStr (clean_id prod_id)) result = Some entry
                /\ dict_lookup "productId" entry
                   = Some (JStr (clean_id prod_id))
                /\ dict_lookup "retailerProductId" entry
                   = Some (JStr product_id)
                /\ dict_lookup "name" entry
                   = Some (JStr ("Product " ++ clean_id prod_id))
                /\ dict_lookup "available" entry = Some (JBool true))
        /\ (forall prod_id, In prod_id (discover_ids text) ->
              map_lookup
                (JStr (if PyStr.startswith "retailer_" prod_id
                       then PyStr.drop 9 prod_id else prod_id)) result
              = Some [ ("productId",
                        JStr (if PyStr.startswith "retailer_" prod_id
                              then PyStr.drop 9 prod_id else prod_id));
                       ("retailerProductId", JStr product_id);
                       ("name",
                        JStr ("Product "
                              ++ (if PyStr.startswith "retailer_" prod_id
                                  then PyStr.drop 9 prod_id else prod_id)));
                       ("available", JBool true) ])
        /\ (forall k entry, In (k, entry) result ->
              exists prod_id,
                In prod_id (discover_ids text)
                /\ k = JStr (clean_id prod_id)
                /\ entry = placeholder product_id (clean_id prod_id))
        /\ NoDup (map fst result)
        /\ 1 <= List.length result <= List.length (discover_ids text)
        /\ (NoDup (map clean_id (discover_ids text)) ->
            map fst result
            = map (fun prod_id => JStr (clean_id prod_id))
                (discover_ids text)
            /\ List.length result = List.length (discover_ids text)))
  /\ (forall result,
        fetch_loop json_loads re_compile text (discover_ids text) []
        = PyOk result ->
        result <> [] ->
        fetch_product_data json_loads re_compile product_id
          (HttpResponse 200 text) = PyOk (Some result))
  /\ (fetch_loop json_loads re_compile text (discover_ids text) []
      = PyRaise RecursionError ->
      fetch_product_data json_loads re_compile product_id
        (HttpResponse 200 text) = PyOk (Some []))
  /\ (forall e,
        fetch_loop json_loads re_compile text (discover_ids text) []
        = PyRaise e ->
        e <> RecursionError ->
        fetch_product_data json_loads re_compile product_id
          (HttpResponse 200 text) = PyOk None).
Proof.
  intros Hids. pose proof (discover_ids_marker text Hids) as Hm.
  assert (Hfetch : fetch_product_data json_loads re_compile product_id
                     (HttpResponse 200 text)
                   = match (result <-
                              fetch_loop json_loads re_compile text
                                (discover_ids text) [] ;;
                            if is_empty result
                               && negb (is_empty (discover_ids text))
                            then PyOk (Some (placeholders product_id
                                               (discover_ids text) result))
                            else PyOk (Some result)) with
                     | PyOk r => PyOk r
                     | PyRaise Timeout => PyOk None
                     | PyRaise RecursionError => PyOk (Some [])
                     | PyRaise _ => PyOk None
                     end).
  { unfold fetch_product_data, fetch_try. cbn [Z.eqb Pos.eqb negb].
    now rewrite Hm. }
  split; [apply fetch_loop_empty_iff|]. split; [|split; [|split]].
  - intros Hloop.
    pose proof (placeholders_map product_id (discover_ids text) [] []
                  (placeholder_map_empty product_id))
      as [Hform [Hall [Hnd Hlen]]].
    pose proof (placeholders_entries product_id (discover_ids text) [])
      as Hexact.
    cbn [app placeholder_entries map] in *.
    unfold placeholder_entries in Hexact.
    exists (placeholders product_id (discover_ids text) []).
    split.
    { rewrite Hfetch, Hloop. cbn [bind is_empty andb].
      destruct (discover_ids text); [contradiction | reflexivity]. }
    split; [reflexivity|]. split; [exact Hexact|].
    split.
    { intros prod_id Hin.
      exists (placeholder product_id (clean_id prod_id)).
      split; [now apply Hall | repeat split]. }
    split; [exact Hall|].
    split; [exact Hform|]. split; [exact Hnd|].
    split.
    { split; [|exact Hlen].
      destruct (discover_ids text) as [|p rest] eqn:E; [contradiction|].
      specialize (Hall p (or_introl eq_refl)).
      destruct (placeholders product_id (p :: rest) []);
        [discriminate | cbn; lia]. }
    intros Hdistinct. rewrite Hexact.
    rewrite (first_occurrences_distinct _ [] Hdistinct)
      by (intros x _; reflexivity).
    rewrite !map_map, !length_map. cbn [fst]. split; reflexivity.
  - intros result Hloop Hne. rewrite Hfetch, Hloop. cbn [bind].
    destruct result; [contradiction | reflexivity].
  - intros Hloop. rewrite Hfetch, Hloop. reflexivity.
  - intros e Hloop He. rewrite Hfetch, Hloop. cbn [bind].
    destruct e; try reflexivity. contradiction.
Qed.

End FetcherProperties.

(** A body whose two objects are not valid JSON (a trailing comma): the
    first carries two fields, the second a nested object. *)
Definition body_two_products : string :=
  "{" ++ quoted "result" ++ ":[{" ++ quoted "productId" ++ ": "
  ++ quoted "A1" ++ ", " ++ quoted "name" ++ " : " ++ quoted "Milk" ++ ",},"
  ++ "{" ++ quoted "productId" ++ ": " ++ quoted "B2" ++ ", "
  ++ quoted "x" ++ ":{" ++ quoted "name" ++ ":" ++ quoted "Tea" ++ ",}}]}".

(** A body in which no object around an identifier closes. *)
Definition body_unbalanced : string :=
  "{" ++ quoted "productId" ++ ": " ++ quoted "A1" ++ ", {"
  ++ quoted "productId" ++ ": " ++ quoted "B2".

(** [json.loads] on texts that are not valid JSON. *)
Definition json_rejects (text : string) : LoadResult := JSONDecodeError.

(** [json.loads] on texts nested beyond the recursion limit. *)
Definition json_too_deep (text : string) : LoadResult := LoadRecursionError.

Lemma fetch_product_data_tagged_witness :
  fetch_product_data json_too_deep compile_literal_id "milk"
    (HttpResponse 503 "busy") = PyOk None
  /\ fetch_product_data json_too_deep compile_literal_id "milk"
       (HttpResponse 200 "{}") = PyOk (Some [])
  /\ fetch_product_data json_too_deep compile_literal_id "milk" HttpTimeout
     = PyOk None
  /\ fetch_product_data json_too_deep compile_literal_id "milk"
       (HttpResponse 200 body_two_products) = PyOk (Some []).
Proof.
  destruct (fetch_product_data_tagged json_too_deep compile_literal_id "milk")
    as [_ [Hstatus [Hnone [Htimeout [Hdeep _]]]]].
  split; [apply Hstatus; discriminate|].
  split; [apply Hnone; vm_compute; reflexivity|].
  split; [exact Htimeout|].
  apply Hdeep. vm_compute. reflexivity.
Defined.

(** A body with retailer identifiers only, in which no object closes. *)
Definition body_retailer_ids : string :=
  "{" ++ quoted "retailerProductId" ++ ": " ++ quoted "R1" ++ ", {"
  ++ quoted "retailerProductId" ++ ": " ++ quoted "R2".

(** The placeholders of tagged identifiers are keyed and named without
    the tag. *)
Example retailer_placeholders :
  discover_ids body_retailer_ids = ["retailer_R1"; "retailer_R2"]
  /\ fetch_product_data json_rejects compile_literal_id "milk"
       (HttpResponse 200 body_retailer_ids)
     = PyOk (Some [ (JStr "R1",
                     [ ("productId", JStr "R1");
                       ("retailerProductId", JStr "milk");
                       ("name", JStr "Product R1");
                       ("available", JBool true) ]);
                    (JStr "R2",
                     [ ("productId", JStr "R2");
                       ("retailerProductId", JStr "milk");
                       ("name", JStr "Product R2");
                       ("available", JBool true) ]) ]).
Proof. vm_compute. split; reflexivity. Qed.

(** A body in which one identifier occurs twice and no object closes. *)
Definition body_repeated_id : string :=
  "{" ++ quoted "productId" ++ ": " ++ quoted "A1" ++ ", {"
  ++ quoted "productId" ++ ": " ++ quoted "A1".

(** An object that nests 3000 arrays, more than the recursion limit of
    2000 the program sets, and the body that holds it. *)
Definition object_deep : string :=
  "{" ++ quoted "productId" ++ ": " ++ quoted "A1" ++ ", " ++ quoted "x"
  ++ ": " ++ string_of_list_ascii (List.repeat "["%char 3000)
  ++ string_of_list_ascii (List.repeat "]"%char 3000) ++ "}".

Definition body_deep : string := "[" ++ object_deep ++ "]".

(** [json.loads] on that object: the decoder gives up with
    [RecursionError]. *)
Definition json_deep_object (text : string) : LoadResult :=
  if String.eqb text object_deep then LoadRecursionError
  else JSONDecodeError.

(** C7, as the claim states it, fails.  An identifier is discovered in a
    body whose object is nested too deeply for the structured parsing:
    no product is produced, and the fetcher returns the empty mapping,
    without a placeholder.  And where placeholders are made, an
    identifier discovered twice gets one entry, not two. *)
Lemma discovered_ids_without_placeholder :
  discover_ids body_deep = ["A1"]
  /\ isolate_object body_deep 2 = Some object_deep
  /\ fetch_product_data json_deep_object compile_literal_id "milk"
       (HttpResponse 200 body_deep) = PyOk (Some [])
  /\ discover_ids body_repeated_id = ["A1"; "A1"]
  /\ fetch_product_data json_rejects compile_literal_id "milk"
       (HttpResponse 200 body_repeated_id)
     = PyOk (Some [(JStr "A1", placeholder "milk" "A1")]).
Proof.
  split; [vm_compute; reflexivity|].
  split; [vm_compute; reflexivity|].
  split; [vm_compute; reflexivity|].
  split; vm_compute; reflexivity.
Qed.

(** An object with an integer literal of 4301 digits, which [json.loads]
    refuses with a [ValueError] that is no [JSONDecodeError]: the
    fetcher returns [None]. *)
Definition object_big_integer : string :=
  "{" ++ quoted "productId" ++ ": " ++ quoted "A1" ++ ", " ++ quoted "n"
  ++ ": 1" ++ string_of_list_ascii (List.repeat "0"%char 4300) ++ "}".

Definition body_big_integer : string := "[" ++ object_big_integer ++ "]".

Definition json_big_integer (text : string) : LoadResult :=
  if String.eqb text object_big_integer then LoadValueError
  else JSONDecodeError.

Example big_integer_object_gives_none :
  discover_ids body_big_integer = ["A1"]
  /\ isolate_object body_big_integer 2 = Some object_big_integer
  /\ fetch_loop json_big_integer compile_literal_id body_big_integer
       (discover_ids body_big_integer) [] = PyRaise ValueError
  /\ fetch_product_data json_big_integer compile_literal_id "milk"
       (HttpResponse 200 body_big_integer) = PyOk None.
Proof.
  split; [vm_compute; reflexivity|].
  split; [vm_compute; reflexivity|].
  split; vm_compute; reflexivity.
Qed.

Lemma placeholders_for_unparsed_ids_witness :
  discover_ids body_unbalanced = ["A1"; "B2"]
  /\ fetch_loop json_rejects compile_literal_id body_unbalanced
       (discover_ids body_unbalanced) [] = PyOk []
  /\ exists result,
       fetch_product_data json_rejects compile_literal_id "milk"
         (HttpResponse 200 body_unbalanced) = PyOk (Some result)
       /\ result = [ (JStr "A1", placeholder "milk" "A1");
                     (JStr "B2", placeholder "milk" "B2") ].
Proof.
  assert (Hids : discover_ids body_unbalanced <> [])
    by (vm_compute; discriminate).
  assert (Hloop : fetch_loop json_rejects compile_literal_id body_unbalanced
                    (discover_ids body_unbalanced) [] = PyOk [])
    by (vm_compute; reflexivity).
  split; [vm_compute; reflexivity|].
  split; [exact Hloop|].
  destruct (placeholders_for_unparsed_ids json_rejects compile_literal_id
              "milk" body_unbalanced Hids) as [_ [Hplace _]].
  destruct (Hplace Hloop) as [result [Hfetch [Hres _]]].
  exists result. split; [exact Hfetch|].
  rewrite Hres. vm_compute. reflexivity.
Defined.

(* ================================================================== *)
(** * Properties of the per-term processing *)
(* ================================================================== *)

(** The records a result stands for. *)
Definition records (res : ProductResult) : list ProductRecord :=
  match res with
  | One r => [r]
  | Many l => l
  end.

(** The number of products among some records: those with [found] set. *)
Definition count_found (l : list ProductRecord) : nat :=
  List.length (filter found l).

(** A placeholder of [term]: one of the three records that stand for a term
    without a product. *)
Definition is_placeholder (term : string) (r : ProductRecord) : Prop :=
  r = not_found_record term \/ r = too_complex_record term
  \/ r = error_record term.

(** The cap the selection applies for a limit, where it applies one: 50 for
    [all], the count for a non-negative integer (given as a number, a
    boolean or a string that [int] reads), 10 for a value that is neither
    (a string [int] rejects, a float, a list, a dictionary).  No cap is
    stated for [None] and for a negative count. *)
Definition limit_cap (limit : JValue) : option nat :=
  let count := fun n : Z =>
    if (0 <=? n)%Z then Some (Z.to_nat n) else None in
  match limit with
  | JNull => None
  | JBool b => Some (if b then 1 else 0)
  | JInt n => count n
  | JStr s =>
      if String.eqb s "all" then Some 50
      else match PyNum.int_of_string s with
           | PyOk n => count n
           | PyRaise _ => Some 10
           end
  | _ => Some 10
  end.

Lemma placeholder_not_found (term title text : string) :
  found (placeholder_record term title text) = false
  /\ searchTerm (placeholder_record term title text) = term.
Proof. split; reflexivity. Qed.

Lemma is_placeholder_fields (term : string) (r : ProductRecord) :
  is_placeholder term r ->
  found r = false /\ searchTerm r = term /\ productId r = JNull
  /\ exists text, notFoundMessage r = Some text.
Proof.
  intros [-> | [-> | ->]]; repeat split; eexists; reflexivity.
Qed.

Lemma extract_all_found (items : ProductMap) (term : string) :
  forall l,
    extract_all items term = PyOk l ->
    List.length l = List.length items
    /\ Forall (fun r => found r = true /\ searchTerm r = term) l.
Proof.
  induction items as [|[k product] rest IH]; intros l; cbn.
  - intros [= <-]. split; [reflexivity | constructor].
  - destruct (extract_product_info product term) as [r | e] eqn:Hr;
      cbn [bind]; [|discriminate].
    destruct (extract_all rest term) as [more | e]; cbn [bind];
      [|discriminate].
    intros [= <-]. destruct (IH more eq_refl) as [Hlen Hall].
    apply extract_product_info_ok in Hr as [Hf [Ht _]].
    split; [cbn; now rewrite Hlen | now constructor].
Qed.

Lemma int_of_string_exceptions (s : string) (e : PyExc) :
  PyNum.int_of_string s = PyRaise e -> e = ValueError.
Proof.
  unfold PyNum.int_of_string.
  destruct (PyNum.strip_underscores None (PyNum.strip_literal s)) as [t|];
    [|now intros [= <-]].
  destruct (PyNum.read_sign t) as [neg body].
  destruct (PyNum.read_digits body 0 0) as [[v n] rest].
  destruct n; [now intros [= <-]|].
  destruct rest; [|now intros [= <-]].
  destruct (PyNum.int_max_str_digits <? S n); [now intros [= <-]|].
  discriminate.
Qed.

Lemma slice_int_prefix {A : Type} (n : Z) (l : list A) :
  exists k, slice_int n l = firstn k l.
Proof. unfold slice_int. destruct (0 <=? n)%Z; eexists; reflexivity. Qed.

(** The selection never raises and keeps a prefix of the entries. *)
Lemma select_keys_prefix (product_entities : ProductMap) (limit : JValue)
  (is_article_search : bool) :
  exists k,
    select_keys product_entities limit is_article_search
    = PyOk (firstn k product_entities).
Proof.
  unfold select_keys.
  destruct is_article_search; [now exists 1|].
  destruct (is_all limit); cbn [negb]; [now exists 50|].
  unfold max_items_of.
  destruct limit as [ | b | n | f | s | l | d]; cbn [bind py_slice_upto];
    try (now exists 10).
  - exists (List.length product_entities). now rewrite firstn_all.
  - eexists; reflexivity.
  - destruct (slice_int_prefix n product_entities) as [k ->]. now exists k.
  - destruct (PyNum.int_of_string s) as [n | e] eqn:E; cbn [bind].
    + cbn [py_slice_upto].
      destruct (slice_int_prefix n product_entities) as [k ->]. now exists k.
    + apply int_of_string_exceptions in E. subst e. now exists 10.
Qed.

Lemma PyOk_inj {A : Type} (a b : A) : PyOk a = PyOk b -> a = b.
Proof. now intros [= ->]. Qed.

Lemma select_keys_cap (product_entities keys : ProductMap) (limit : JValue)
  (cap : nat) :
  select_keys product_entities limit false = PyOk keys ->
  limit_cap limit = Some cap ->
  List.length keys <= cap.
Proof.
  unfold select_keys, limit_cap, is_all, max_items_of.
  assert (Hcount : forall n : Z,
            (if (0 <=? n)%Z then Some (Z.to_nat n) else None) = Some cap ->
            List.length (slice_int n product_entities) <= cap).
  { intros n. unfold slice_int. destruct (0 <=? n)%Z; [|discriminate].
    intros H. injection H as <-. apply firstn_le_length. }
  destruct limit as [ | b | n | f | s | l | d];
    cbn [negb bind py_slice_upto]; try discriminate;
    try (intros Hk%PyOk_inj Hc; subst keys; injection Hc as <-;
         apply firstn_le_length).
  - intros Hk%PyOk_inj Hc. subst keys. now apply Hcount.
  - destruct (String.eqb s "all"); cbn [negb].
    + intros Hk%PyOk_inj Hc. subst keys. injection Hc as <-.
      apply firstn_le_length.
    + destruct (PyNum.int_of_string s) as [n | e] eqn:E;
        cbn [bind py_slice_upto].
      * intros Hk%PyOk_inj Hc. subst keys. now apply Hcount.
      * apply int_of_string_exceptions in E. subst e.
        intros Hk%PyOk_inj Hc. subst keys. injection Hc as <-.
        apply firstn_le_length.
Qed.

Lemma count_found_le (l : list ProductRecord) :
  count_found l <= List.length l.
Proof. apply filter_length_le. Qed.

Lemma count_found_all (l : list ProductRecord) :
  Forall (fun r => found r = true) l -> count_found l = List.length l.
Proof.
  unfold count_found. induction 1 as [|r l Hr _ IH]; [reflexivity|].
  cbn. rewrite Hr. cbn. now rewrite IH.
Qed.

Section TermProperties.

Variable json_loads : string -> LoadResult.
Variable re_compile : string -> option Re.regex.

Lemma fetch_product_data_returns (product_id : string)
  (outcome : HttpOutcome) :
  exists raw,
    fetch_product_data json_loads re_compile product_id outcome = PyOk raw.
Proof.
  unfold fetch_product_data.
  destruct (fetch_try json_loads re_compile product_id outcome) as [r | e];
    [now exists r|].
  destruct e; eexists; reflexivity.
Qed.

(** Closes a case of [process_term] that ends with a placeholder. *)
Ltac ends_with_placeholder :=
  do 2 eexists; (split; [reflexivity|]);
  left; eexists; unfold is_placeholder; auto.

(** The two ways [process_term] ends: with one placeholder and a total of
    0, or with the normalised records of the selected entries and the
    number of entries as the total. *)
Lemma process_term_cases (term : string) (outcome : HttpOutcome)
  (limit : JValue) (is_article_search : bool) :
  exists res total,
    process_term json_loads re_compile term outcome limit is_article_search
    = PyOk (res, total)
    /\ ((exists r, res = One r /\ is_placeholder term r /\ total = 0%Z)
        \/ (exists product_entities product_keys,
              fetch_product_data json_loads re_compile term outcome
              = PyOk (Some product_entities)
              /\ select_keys product_entities limit is_article_search
                 = PyOk product_keys
              /\ product_keys <> []
              /\ total = Z.of_nat (List.length product_entities)
              /\ extract_all product_keys term = PyOk (records res)
              /\ if is_article_search then exists r, res = One r
                 else exists l, res = Many l)).
Proof.
  unfold process_term, process_term_try.
  destruct (fetch_product_data_returns term outcome) as [raw Hraw].
  rewrite Hraw. cbn [bind].
  destruct raw as [product_entities|]; [|ends_with_placeholder].
  destruct product_entities as [|entry rest]; cbn [is_empty];
    [ends_with_placeholder|].
  destruct (select_keys (entry :: rest) limit is_article_search)
    as [product_keys | e] eqn:Hsel.
  2:{ destruct (select_keys_prefix (entry :: rest) limit is_article_search)
        as [k Hk]. rewrite Hk in Hsel. discriminate. }
  cbn [bind].
  destruct product_keys as [|[key product] keys].
  - rewrite andb_false_r. ends_with_placeholder.
  - destruct is_article_search; cbn [negb andb List.length Nat.ltb Nat.leb].
    + assert (Hone : keys = []).
      { unfold select_keys in Hsel. cbn in Hsel. now injection Hsel. }
      subst keys.
      destruct (extract_product_info product term) as [r | e] eqn:Hr.
      * do 2 eexists; split; [reflexivity|]. right.
        exists (entry :: rest), [(key, product)].
        split; [reflexivity|]. split; [exact Hsel|].
        split; [discriminate|]. split; [reflexivity|].
        split; [cbn; now rewrite Hr | now exists r].
      * apply extract_product_info_exceptions in Hr as [-> | [-> | ->]];
          ends_with_placeholder.
    + destruct (extract_all ((key, product) :: keys) term) as [l | e] eqn:Hl;
        cbn [bind].
      * do 2 eexists; split; [reflexivity|]. right.
        exists (entry :: rest), ((key, product) :: keys).
        split; [reflexivity|]. split; [exact Hsel|].
        split; [discriminate|]. split; [reflexivity|].
        split; [exact Hl | now exists l].
      * destruct e; ends_with_placeholder.
Qed.

(** C6, amended.  In article mode a term gives exactly one record.  In the
    other mode the number of products is at most the limit when the limit
    is a non-negative count, at most 10 when the limit is a value [int]
    or the slice does not accept, at most 50 when the limit is [all]; for
    the limit [None] there is no cap and every entry is returned.
    Whenever at least one product is returned, the returned records are
    the normalised first entries of the mapping the fetcher built (the
    very first one in article mode) and [total_found] is the number of
    entries of that mapping, also when the returned list is shorter; when
    none is returned, [total_found] is 0. *)
Theorem process_term_shaping (term : string) (outcome : HttpOutcome)
  (limit : JValue) (is_article_search : bool) (res : ProductResult)
  (total : Z) :
  process_term json_loads re_compile term outcome limit is_article_search
  = PyOk (res, total) ->
  (is_article_search = true -> exists r, res = One r)
  /\ (is_article_search = false ->
      forall cap, limit_cap limit = Some cap ->
        count_found (records res) <= cap
        /\ List.length (records res) <= Nat.max 1 cap)
  /\ (forall product_entities,
        fetch_product_data json_loads re_compile term outcome
        = PyOk (Some product_entities) ->
        count_found (records res) <> 0 ->
        total = Z.of_nat (List.length product_entities)
        /\ count_found (records res) <= List.length product_entities
        /\ exists n,
             extract_all (firstn n product_entities) term
             = PyOk (records res)
             /\ (is_article_search = true -> n = 1)
             /\ (is_article_search = false -> limit = JNull ->
                 n = List.length product_entities))
  /\ (count_found (records res) = 0 -> total = 0%Z).
Proof.
  intros Hres.
  destruct (process_term_cases term outcome limit is_article_search)
    as [res' [total' [Hres' Hcases]]].
  rewrite Hres in Hres'. injection Hres' as <- <-.
  destruct Hcases
    as [[r [-> [Hph ->]]]
       | [entities [keys [Hfetch [Hsel [Hne [-> [Hall Hshape]]]]]]]].
  - apply is_placeholder_fields in Hph as [Hf _].
    assert (Hc : count_found (records (One r)) = 0)
      by (unfold count_found; cbn; now rewrite Hf).
    split; [|split; [|split]].
    + intros _. now exists r.
    + intros _ cap _. rewrite Hc. split; [lia | apply Nat.le_max_l].
    + intros entities _ Hpos. now rewrite Hc in Hpos.
    + reflexivity.
  - destruct (extract_all_found _ _ _ Hall) as [Hlen Hrecs].
    assert (Hfound : Forall (fun r => found r = true) (records res))
      by (eapply Forall_impl; [|exact Hrecs]; now intros r [Hf _]).
    pose proof (count_found_all _ Hfound) as Hcount.
    destruct (select_keys_prefix entities limit is_article_search)
      as [k Hk].
    rewrite Hsel in Hk. apply PyOk_inj in Hk.
    assert (Hkeys : List.length keys <= List.length entities)
      by (rewrite Hk, length_firstn; lia).
    split; [|split; [|split]].
    + intros ->. exact Hshape.
    + intros -> cap Hcap.
      pose proof (select_keys_cap _ _ _ _ Hsel Hcap) as Hle.
      rewrite Hcount, Hlen.
      split; [exact Hle | etransitivity; [exact Hle | apply Nat.le_max_r]].
    + intros entities' Hfetch' _. rewrite Hfetch in Hfetch'.
      injection Hfetch' as <-. split; [reflexivity|].
      rewrite Hcount, Hlen. split; [exact Hkeys|].
      destruct is_article_search.
      * exists 1. split; [|split; [reflexivity | discriminate]].
        unfold select_keys in Hsel. apply PyOk_inj in Hsel.
        now rewrite Hsel.
      * assert (Hn : exists n,
                  firstn n entities = keys
                  /\ (limit = JNull -> n = List.length entities)).
        { destruct limit;
            try (exists k; split; [now rewrite <- Hk | discriminate]).
          exists (List.length entities). split; [|reflexivity].
          rewrite firstn_all. cbn in Hsel. now apply PyOk_inj in Hsel. }
        destruct Hn as [n [Hn1 Hn2]]. exists n.
        split; [now rewrite Hn1|].
        split; [discriminate | intros _; exact Hn2].
    + intros Hzero. rewrite Hcount, Hlen in Hzero.
      apply length_zero_iff_nil in Hzero. contradiction.
Qed.

End TermProperties.

Definition one_of_two : ProductResult * Z :=
  match process_term json_rejects compile_literal_id "milk"
          (HttpResponse 200 body_two_products) (JInt 1) false with
  | PyOk x => x
  | PyRaise _ => (One (error_record "milk"), 0%Z)
  end.

Lemma process_term_shaping_witness :
  process_term json_rejects compile_literal_id "milk"
    (HttpResponse 200 body_two_products) (JInt 1) false
  = PyOk (fst one_of_two, snd one_of_two)
  /\ count_found (records (fst one_of_two)) = 1
  /\ snd one_of_two = 2%Z
  /\ (forall cap, limit_cap (JInt 1) = Some cap ->
        count_found (records (fst one_of_two)) <= cap
        /\ List.length (records (fst one_of_two)) <= Nat.max 1 cap).
Proof.
  split; [vm_compute; reflexivity|].
  split; [vm_compute; reflexivity|].
  split; [vm_compute; reflexivity|].
  apply (process_term_shaping json_rejects compile_literal_id "milk"
           (HttpResponse 200 body_two_products) (JInt 1) false
           (fst one_of_two) (snd one_of_two));
    vm_compute; reflexivity.
Defined.

(** A body of eleven product objects, none of them valid JSON. *)
Definition product_object (id : string) : string :=
  "{" ++ quoted "productId" ++ ": " ++ quoted id ++ ",}".

Definition body_eleven_products : string :=
  "[" ++ String.concat ","
           (map product_object
              ["P01"; "P02"; "P03"; "P04"; "P05"; "P06"; "P07"; "P08";
               "P09"; "P10"; "P11"])
  ++ "]".

(** An object that is valid JSON and whose [categoryPath] holds a
    number, and the body that holds it. *)
Definition object_numeric_category : string :=
  "{" ++ quoted "productId" ++ ": " ++ quoted "A1" ++ ", "
  ++ quoted "categoryPath" ++ ": [1]}".

Definition body_numeric_category : string :=
  "[" ++ object_numeric_category ++ "]".

(** [json.loads] on that object. *)
Definition json_numeric_category (text : string) : LoadResult :=
  if String.eqb text object_numeric_category
  then Loaded [("productId", JStr "A1"); ("categoryPath", JList [JInt 1])]
  else JSONDecodeError.

(** C6, as the claim states it, fails, in two ways.  The limit [None],
    which a request gives as the JSON value null, is no count and is not
    [all], yet the cap of 10 does not apply to it: the slice keeps every
    entry, and a term with eleven discovered products gets eleven
    records.  And with the limit 5, a term whose one discovered product
    the normaliser raises on ends with the error record and a total of
    0, not 1. *)
Lemma cap_and_total_fail :
  ((exists product_entities,
      fetch_product_data json_rejects compile_literal_id "milk"
        (HttpResponse 200 body_eleven_products)
      = PyOk (Some product_entities)
      /\ List.length product_entities = 11)
   /\ is_all JNull = false
   /\ exists res,
        process_term json_rejects compile_literal_id "milk"
          (HttpResponse 200 body_eleven_products) JNull false
        = PyOk (res, 11%Z)
        /\ count_found (records res) = 11
        /\ 10 < count_found (records res))
  /\ (discover_ids body_numeric_category = ["A1"]
      /\ isolate_object body_numeric_category 2
         = Some object_numeric_category
      /\ fetch_product_data json_numeric_category compile_literal_id "milk"
           (HttpResponse 200 body_numeric_category)
         = PyOk (Some [(JStr "A1",
                        [("productId", JStr "A1");
                         ("categoryPath", JList [JInt 1])])])
      /\ extract_product_info
           [("productId", JStr "A1"); ("categoryPath", JList [JInt 1])]
           "milk" = PyRaise TypeError
      /\ process_term json_numeric_category compile_literal_id "milk"
           (HttpResponse 200 body_numeric_category) (JInt 5) false
         = PyOk (One (error_record "milk"), 0%Z)).
Proof.
  split.
  - split; [eexists; split; vm_compute; reflexivity|].
    split; [reflexivity|].
    eexists. split; [vm_compute; reflexivity|].
    split; [vm_compute; reflexivity | vm_compute; lia].
  - split; [vm_compute; reflexivity|].
    split; [vm_compute; reflexivity|].
    split; [vm_compute; reflexivity|].
    split; vm_compute; reflexivity.
Qed.

(** A limit that [int] does not read, here a digit behind a file
    separator, is capped at 10: both discovered products are returned. *)
Example separator_limit_is_unparsable :
  limit_cap (JStr (String "028"%char "1")) = Some 10
  /\ exists res,
       process_term json_rejects compile_literal_id "milk"
         (HttpResponse 200 body_two_products)
         (JStr (String "028"%char "1")) false
       = PyOk (res, 2%Z)
       /\ count_found (records res) = 2.
Proof.
  split; [vm_compute; reflexivity|].
  eexists. split; vm_compute; reflexivity.
Qed.

(** Limits the specification leaves open.  The fetcher discovers two
    products.  With the limit 0 the term gets the not-found record and a
    total of 0; with the limit -1 the slice drops the last entry and one
    product is returned. *)
Example limit_zero_reports_no_total :
  (exists product_entities,
     fetch_product_data json_rejects compile_literal_id "milk"
       (HttpResponse 200 body_two_products) = PyOk (Some product_entities)
     /\ List.length product_entities = 2)
  /\ process_term json_rejects compile_literal_id "milk"
       (HttpResponse 200 body_two_products) (JInt 0) false
     = PyOk (One (not_found_record "milk"), 0%Z)
  /\ (exists res,
        process_term json_rejects compile_literal_id "milk"
          (HttpResponse 200 body_two_products) (JInt (-1)) false
        = PyOk (res, 2%Z)
        /\ count_found (records res) = 1
        /\ (-1 < 1)%Z).
Proof.
  split; [eexists; split; vm_compute; reflexivity|].
  split; [vm_compute; reflexivity|].
  eexists. split; [vm_compute; reflexivity|].
  split; [vm_compute; reflexivity | lia].
Qed.

(* ================================================================== *)
(** * Properties of the chunk orchestrator *)
(* ================================================================== *)

(** The records one finished future adds to [chunk_products]. *)
Definition records_of_future (future : Future) : list ProductRecord :=
  match snd future with
  | PyOk (product_result, _) => records product_result
  | PyRaise _ => [error_record (fst future)]
  end.

(** What every future of a chunk satisfies: it adds at least one record,
    exactly one in article mode, and each record belongs to the term of
    the future and is a found record or one of its placeholders. *)
Definition settled (is_article_search : bool) (future : Future) : Prop :=
  1 <= List.length (records_of_future future)
  /\ (is_article_search = true ->
      List.length (records_of_future future) = 1)
  /\ Forall (fun r =>
               searchTerm r = fst future
               /\ (found r = true \/ is_placeholder (fst future) r))
       (records_of_future future).

Lemma collect_one_products (acc : Collected) (future : Future) :
  chunk_products (collect_one acc future)
  = (chunk_products acc ++ records_of_future future)%list
  /\ acc_processed_count (collect_one acc future)
     = (acc_processed_count acc + 1)%Z.
Proof.
  destruct future as [term [[[r | l] n] | e]]; split; reflexivity.
Qed.

Lemma collect_fold (futures : list Future) :
  forall acc,
    chunk_products (fold_left collect_one futures acc)
    = (chunk_products acc ++ flat_map records_of_future futures)%list
    /\ acc_processed_count (fold_left collect_one futures acc)
       = (acc_processed_count acc + Z.of_nat (List.length futures))%Z.
Proof.
  induction futures as [|future rest IH]; intros acc.
  - cbn. rewrite app_nil_r. split; [reflexivity | lia].
  - cbn [fold_left flat_map List.length].
    destruct (IH (collect_one acc future)) as [Hp Hc].
    destruct (collect_one_products acc future) as [Hp1 Hc1].
    rewrite Hp, Hc, Hp1, Hc1, <- app_assoc. split; [reflexivity | lia].
Qed.

Lemma collect_spec (futures : list Future) :
  chunk_products (collect futures) = flat_map records_of_future futures
  /\ acc_processed_count (collect futures)
     = Z.of_nat (List.length futures).
Proof.
  unfold collect.
  destruct (collect_fold futures
              {| chunk_products := []; acc_total_found := 0%Z;
                 acc_processed_count := 0%Z |}) as [Hp Hc].
  rewrite Hp, Hc. split; reflexivity.
Qed.

Lemma flat_map_length_ge {A B : Type} (g : A -> list B) (l : list A) :
  Forall (fun x => 1 <= List.length (g x)) l ->
  List.length l <= List.length (flat_map g l).
Proof.
  induction 1 as [|x l Hx _ IH]; cbn; [lia|].
  rewrite length_app. lia.
Qed.

Lemma flat_map_length_one {A B : Type} (g : A -> list B) (l : list A) :
  Forall (fun x => List.length (g x) = 1) l ->
  List.length (flat_map g l) = List.length l.
Proof.
  induction 1 as [|x l Hx _ IH]; cbn; [lia|].
  rewrite length_app. lia.
Qed.

Lemma map_snd_combine_seq {A : Type} (l : list A) :
  forall start, map snd (combine (List.seq start (List.length l)) l) = l.
Proof.
  induction l as [|x l IH]; intros start; cbn; [reflexivity|].
  now rewrite IH.
Qed.

Lemma insert_rows_length (session_id : string)
  (products_data : list ProductRecord) :
  forall rows,
    insert_rows session_id products_data = PyOk rows ->
    List.length rows = List.length products_data.
Proof.
  induction products_data as [|p rest IH]; intros rows; cbn.
  - now intros [= <-].
  - destruct (insert_row session_id p) as [row | e]; cbn [bind];
      [|discriminate].
    destruct (insert_rows session_id rest) as [more | e]; cbn [bind];
      [|discriminate].
    intros [= <-]. cbn. now rewrite (IH more eq_refl).
Qed.

Lemma update_progress_products (db : DB) (session_id : string)
  (processed stored : Z) :
  products (update_progress db session_id processed stored) = products db.
Proof.
  unfold update_progress.
  destruct (select_session (sessions db) session_id); reflexivity.
Qed.

Section ChunkProperties.

Variable json_loads : string -> LoadResult.
Variable re_compile : string -> option Re.regex.
Variable upstream : nat -> string -> HttpOutcome.
Variable as_completed : list Future -> list Future.

(** [as_completed] yields every submitted future once, in some order. *)
Hypothesis as_completed_perm :
  forall futures, Permutation (as_completed futures) futures.

Lemma process_term_settled (term : string) (outcome : HttpOutcome)
  (limit : JValue) (is_article_search : bool) :
  settled is_article_search
    (term, process_term json_loads re_compile term outcome limit
             is_article_search).
Proof.
  destruct (process_term_cases json_loads re_compile term outcome limit
              is_article_search)
    as [res [total [Hres Hcases]]].
  unfold settled, records_of_future. cbn [fst snd]. rewrite Hres.
  destruct Hcases
    as [[r [-> [Hph ->]]]
       | [entities [keys [_ [_ [Hne [_ [Hall Hshape]]]]]]]].
  - cbn. split; [lia|]. split; [reflexivity|].
    constructor; [|constructor].
    split; [now apply is_placeholder_fields in Hph | now right].
  - destruct (extract_all_found _ _ _ Hall) as [Hlen Hrecs].
    split; [|split].
    + rewrite Hlen. destruct keys; [contradiction | cbn; lia].
    + intros ->. now destruct Hshape as [r ->].
    + eapply Forall_impl; [|exact Hrecs].
      intros r [Hf Ht]. split; [exact Ht | now left].
Qed.

Lemma submit_all_settled (search_terms : list string) (limit : JValue)
  (is_article_search : bool) :
  Forall (settled is_article_search)
    (submit_all json_loads re_compile upstream search_terms limit
       is_article_search)
  /\ map fst
       (submit_all json_loads re_compile upstream search_terms limit
          is_article_search)
     = search_terms.
Proof.
  unfold submit_all. split.
  - apply Forall_forall. intros future Hin.
    apply in_map_iff in Hin as [[i term] [<- _]].
    apply process_term_settled.
  - rewrite map_map.
    etransitivity; [|apply (map_snd_combine_seq search_terms 0)].
    apply map_ext. now intros [i term].
Qed.

(** What a term contributes to its chunk, read off what [process_term]
    returned for it: one placeholder of the term, or the normalised
    records of the entries selected from the mapping the fetcher built,
    one record per selected entry; these come as a list outside article
    mode and as the single record of the first entry in article mode. *)
Definition contribution (term : string) (outcome : HttpOutcome)
  (limit : JValue) (is_article_search : bool) (res : ProductResult)
  : Prop :=
  (exists r, res = One r /\ is_placeholder term r)
  \/ (exists product_entities product_keys,
        fetch_product_data json_loads re_compile term outcome
        = PyOk (Some product_entities)
        /\ select_keys product_entities limit is_article_search
           = PyOk product_keys
        /\ product_keys <> []
        /\ extract_all product_keys term = PyOk (records res)
        /\ List.length (records res) = List.length product_keys
        /\ Forall (fun r => found r = true /\ searchTerm r = term)
             (records res)
        /\ if is_article_search then exists r, res = One r
           else exists l, res = Many l).

Lemma process_term_contribution (term : string) (outcome : HttpOutcome)
  (limit : JValue) (is_article_search : bool) :
  exists res total,
    process_term json_loads re_compile term outcome limit is_article_search
    = PyOk (res, total)
    /\ contribution term outcome limit is_article_search res.
Proof.
  destruct (process_term_cases json_loads re_compile term outcome limit
              is_article_search)
    as [res [total [Hres Hcases]]].
  exists res, total. split; [exact Hres|].
  destruct Hcases
    as [[r [-> [Hph ->]]]
       | [entities [keys [Hfetch [Hsel [Hne [_ [Hall Hshape]]]]]]]].
  - left. now exists r.
  - destruct (extract_all_found _ _ _ Hall) as [Hlen Hrecs].
    right. exists entities, keys. repeat split; assumption.
Qed.

Lemma nth_error_submitted {A B : Type} (f : nat * A -> B) (l : list A) :
  forall start i x,
    nth_error l i = Some x ->
    nth_error (map f (combine (List.seq start (List.length l)) l)) i
    = Some (f (start + i, x)).
Proof.
  induction l as [|y l IH]; intros start i x; [now destruct i|].
  destruct i as [|i]; cbn.
  - intros [= <-]. now rewrite Nat.add_0_r.
  - intros H. rewrite (IH (S start) i x H). do 2 f_equal. f_equal. lia.
Qed.

(** The future of the [i]-th term holds what [process_term] returns for
    it on the answer to its request. *)
Lemma submit_all_nth (search_terms : list string) (limit : JValue)
  (is_article_search : bool) (i : nat) (term : string) :
  nth_error search_terms i = Some term ->
  nth_error
    (submit_all json_loads re_compile upstream search_terms limit
       is_article_search) i
  = Some (term,
          process_term json_loads re_compile term (upstream i term) limit
            is_article_search).
Proof.
  intros H. unfold submit_all.
  exact (nth_error_submitted
           (fun '(i, term) =>
              (term,
               process_term json_loads re_compile term (upstream i term)
                 limit is_article_search))
           search_terms 0 i term H).
Qed.

(** The batch a chunk collects, whatever the order of completion. *)
Lemma collected_batch (search_terms : list string) (limit : JValue)
  (is_article_search : bool) :
  let done :=
    collect (as_completed
               (submit_all json_loads re_compile upstream search_terms limit
                  is_article_search)) in
  acc_processed_count done = Z.of_nat (List.length search_terms)
  /\ List.length search_terms <= List.length (chunk_products done)
  /\ (is_article_search = true ->
      List.length (chunk_products done) = List.length search_terms)
  /\ Forall (fun r =>
               In (searchTerm r) search_terms
               /\ (found r = true \/ is_placeholder (searchTerm r) r))
       (chunk_products done)
  /\ (forall term, In term search_terms ->
        exists r, In r (chunk_products done) /\ searchTerm r = term).
Proof.
  set (submitted := submit_all json_loads re_compile upstream search_terms
                      limit is_article_search).
  intros done. subst done.
  destruct (collect_spec (as_completed submitted)) as [Hp Hc].
  destruct (submit_all_settled search_terms limit is_article_search)
    as [Hall Hterms].
  fold submitted in Hall, Hterms.
  pose proof (as_completed_perm submitted) as Hperm.
  assert (Hlen : List.length (as_completed submitted)
                 = List.length search_terms).
  { rewrite (Permutation_length Hperm), <- Hterms. now rewrite length_map. }
  assert (Hall' : Forall (settled is_article_search)
                    (as_completed submitted)).
  { apply (Permutation_Forall (Permutation_sym Hperm)). exact Hall. }
  assert (Hfst : forall future, In future (as_completed submitted) ->
                   In (fst future) search_terms).
  { intros future Hin. apply (Permutation_in _ Hperm) in Hin.
    rewrite <- Hterms. now apply in_map. }
  rewrite Hp, Hc, Hlen. split; [reflexivity|]. split; [|split; [|split]].
  - rewrite <- Hlen. apply flat_map_length_ge.
    eapply Forall_impl; [|exact Hall']. now intros future [H1 _].
  - intros Hart. rewrite <- Hlen. apply flat_map_length_one.
    eapply Forall_impl; [|exact Hall']. intros future [_ [H1 _]]. auto.
  - apply Forall_flat_map. apply Forall_forall. intros future Hin.
    pose proof (proj1 (Forall_forall _ _) Hall' future Hin) as [_ [_ Hrec]].
    eapply Forall_impl; [|exact Hrec].
    intros r [Ht Hk]. rewrite Ht. split; [now apply Hfst | exact Hk].
  - intros term Hin. rewrite <- Hterms in Hin.
    apply in_map_iff in Hin as [future [Hf Hin]].
    apply (Permutation_in _ (Permutation_sym Hperm)) in Hin.
    pose proof (proj1 (Forall_forall _ _) Hall' future Hin)
      as [Hone [_ Hrec]].
    destruct (records_of_future future) as [|r rs] eqn:Hr;
      [cbn in Hone; lia|].
    exists r. split.
    + apply in_flat_map. exists future. split; [exact Hin|].
      rewrite Hr. now left.
    + inversion Hrec as [|? ? [Ht _] _]. now rewrite Ht.
Qed.

(** C1, amended.  When a chunk of N terms is processed and the repository
    accepts the batch, [processed_count] is N.  There is one future per
    term, holding what [process_term] returned for the term, and the
    batch is, in the order of completion, what the terms contribute: one
    placeholder of the term, or one record per product [process_term]
    selected and returned for it, which is one record in article mode
    and a list outside it.  The batch is stored as one row per record.
    So the batch has as many records as the terms contribute together,
    exactly N in article mode and at least N in the other mode, every
    record belongs to a submitted term, and every submitted term has a
    record. *)
Theorem process_chunk_totality (db db' : DB) (req : ChunkRequest)
  (counts : ChunkCounts) :
  process_chunk json_loads re_compile upstream as_completed db req
  = (db', Ok200 counts) ->
  let is_article_search := String.eqb (req_searchType req) "article" in
  let futures :=
    submit_all json_loads re_compile upstream (req_searchTerms req)
      (req_limit req) is_article_search in
  let batch := flat_map records_of_future (as_completed futures) in
  processed_count counts = Z.of_nat (List.length (req_searchTerms req))
  /\ List.length futures = List.length (req_searchTerms req)
  /\ (forall i term,
        nth_error (req_searchTerms req) i = Some term ->
        exists res total,
          process_term json_loads re_compile term (upstream i term)
            (req_limit req) is_article_search = PyOk (res, total)
          /\ nth_error futures i = Some (term, PyOk (res, total))
          /\ records_of_future (term, PyOk (res, total)) = records res
          /\ contribution term (upstream i term) (req_limit req)
               is_article_search res)
  /\ Permutation batch (flat_map records_of_future futures)
  /\ List.length batch
     = list_sum
         (map (fun future => List.length (records_of_future future))
            futures)
  /\ (exists rows,
        insert_rows (req_sessionId req) batch = PyOk rows
        /\ products db' = (products db ++ rows)%list
        /\ List.length rows = List.length batch)
  /\ products_found counts = Z.of_nat (List.length batch)
  /\ List.length (req_searchTerms req) <= List.length batch
  /\ (req_searchType req = "article" ->
      List.length batch = List.length (req_searchTerms req))
  /\ Forall (fun r =>
               In (searchTerm r) (req_searchTerms req)
               /\ (found r = true \/ is_placeholder (searchTerm r) r))
       batch
  /\ (forall term, In term (req_searchTerms req) ->
        exists r, In r batch /\ searchTerm r = term).
Proof.
  cbv zeta. unfold process_chunk.
  destruct (_ || _); [discriminate|].
  destruct (process_chunk_try json_loads re_compile upstream as_completed
              db req) as [[db2 counts2] | e] eqn:Htry; [|discriminate].
  intros [= <- <-]. unfold process_chunk_try in Htry.
  destruct (collected_batch (req_searchTerms req) (req_limit req)
              (String.eqb (req_searchType req) "article"))
    as [Hcount [Hge [Hart [Hkinds Hterms]]]].
  set (futures := submit_all json_loads re_compile upstream
                    (req_searchTerms req) (req_limit req)
                    (String.eqb (req_searchType req) "article")) in *.
  destruct (collect_spec (as_completed futures)) as [Hbatch _].
  set (done := collect (as_completed futures)) in *.
  assert (Hstore : exists rows,
            insert_rows (req_sessionId req) (chunk_products done) = PyOk rows
            /\ (if is_empty (chunk_products done) then PyOk db
                else store_products_batch db (req_sessionId req)
                       (chunk_products done))
               = PyOk {| sessions := sessions db;
                         products := (products db ++ rows)%list |}
            \/ exists e,
                 (if is_empty (chunk_products done) then PyOk db
                  else store_products_batch db (req_sessionId req)
                         (chunk_products done)) = PyRaise e).
  { destruct (chunk_products done) as [|p ps] eqn:Hb; cbn [is_empty].
    - exists []. left. split; [reflexivity|].
      rewrite app_nil_r. now destruct db.
    - unfold store_products_batch.
      destruct (insert_rows (req_sessionId req) (p :: ps)) as [rows | e];
        cbn [bind].
      + exists rows. left. split; reflexivity.
      + exists []. right. now exists e. }
  destruct Hstore as [rows [[Hrows Hdb1] | [e He]]];
    [|rewrite He in Htry; discriminate].
  rewrite Hdb1 in Htry. cbn [bind] in Htry. injection Htry as <- <-.
  cbn [processed_count products_found].
  rewrite <- Hbatch.
  assert (Hperm : Permutation (chunk_products done)
                    (flat_map records_of_future futures)).
  { rewrite Hbatch. apply Permutation_flat_map, as_completed_perm. }
  split; [exact Hcount|].
  split.
  { unfold futures, submit_all.
    now rewrite length_map, length_combine, length_seq, Nat.min_id. }
  split.
  { intros i term Hi.
    destruct (process_term_contribution term (upstream i term)
                (req_limit req) (String.eqb (req_searchType req) "article"))
      as [res [total [Hres Hcontr]]].
    exists res, total. split; [exact Hres|].
    split; [|split; [reflexivity | exact Hcontr]].
    unfold futures. rewrite <- Hres. now apply submit_all_nth. }
  split; [exact Hperm|].
  split.
  { rewrite (Permutation_length Hperm). apply length_flat_map. }
  split.
  { exists rows. rewrite update_progress_products. cbn [products].
    split; [exact Hrows|]. split; [reflexivity|].
    exact (insert_rows_length _ _ _ Hrows). }
  split; [reflexivity|]. split; [exact Hge|].
  split; [|split; [exact Hkinds | exact Hterms]].
  intros Hart'. apply Hart. rewrite Hart'. reflexivity.
Qed.

End ChunkProperties.

Definition demo_db : DB :=
  {| sessions := [("s1", {| total_terms := 2; processed_terms := 0;
                            total_products := 0 |})];
     products := [] |}.

Definition article_request : ChunkRequest :=
  {| req_sessionId := "s1"; req_voilaSessionId := "v1"; req_chunkIndex := 0;
     req_searchTerms := ["milk"; "tea"]; req_limit := JStr "all";
     req_searchType := "article" |}.

Definition text_request : ChunkRequest :=
  {| req_sessionId := "s1"; req_voilaSessionId := "v1"; req_chunkIndex := 0;
     req_searchTerms := ["milk"]; req_limit := JStr "all";
     req_searchType := "text" |}.

(** The first request is answered with the two-product body, every other
    one times out. *)
Definition demo_upstream (i : nat) (term : string) : HttpOutcome :=
  match i with
  | O => HttpResponse 200 body_two_products
  | S _ => HttpTimeout
  end.

Definition article_outcome : DB * Response :=
  process_chunk json_rejects compile_literal_id demo_upstream (@List.rev Future)
    demo_db article_request.

Definition article_counts : ChunkCounts :=
  match snd article_outcome with
  | Ok200 c => c
  | _ => {| chunk_index := 0; processed_count := 0; products_found := 0;
            total_found := 0 |}
  end.

Lemma rev_is_a_completion_order (futures : list Future) :
  Permutation (List.rev futures) futures.
Proof. apply Permutation_sym, Permutation_rev. Qed.

Lemma process_chunk_totality_witness :
  (forall futures : list Future, Permutation (List.rev futures) futures)
  /\ process_chunk json_rejects compile_literal_id demo_upstream
       (@List.rev Future) demo_db article_request
     = (fst article_outcome, Ok200 article_counts)
  /\ processed_count article_counts = 2%Z
  /\ products_found article_counts = 2%Z
  /\ List.length (products (fst article_outcome)) = 2.
Proof.
  split; [exact rev_is_a_completion_order|].
  assert (H : process_chunk json_rejects compile_literal_id demo_upstream
                (@List.rev Future) demo_db article_request
              = (fst article_outcome, Ok200 article_counts))
    by (vm_compute; reflexivity).
  split; [exact H|].
  destruct (process_chunk_totality json_rejects compile_literal_id
              demo_upstream (@List.rev Future) rev_is_a_completion_order
              demo_db (fst article_outcome) article_request article_counts H)
    as [Hcount [_ [_ [_ [_ [[rows [_ [Hdb Hrows]]] [Hfound [_ [Hart _]]]]]]]]].
  specialize (Hart eq_refl).
  split; [exact Hcount|].
  split; [rewrite Hfound, Hart; reflexivity|].
  rewrite Hdb, length_app, Hrows, Hart. reflexivity.
Defined.

(** C1, as the claim states it, fails outside article mode: a chunk of one
    term whose search discovers two products stores two records, and
    [processed_count] is 1. *)
Lemma one_term_stores_two_records :
  exists db' counts,
    process_chunk json_rejects compile_literal_id demo_upstream (fun l => l)
      demo_db text_request = (db', Ok200 counts)
    /\ List.length (req_searchTerms text_request) = 1
    /\ processed_count counts = 1%Z
    /\ products_found counts = 2%Z
    /\ List.length (products db') = List.length (products demo_db) + 2.
Proof.
  do 2 eexists. split; [vm_compute; reflexivity|].
  repeat split.
Qed.

(* ================================================================== *)
(** * Properties of the progress update *)
(* ================================================================== *)

(** Run alone, the two statements of a request are [update_progress]. *)
Lemma progress_alone (db : DB) (session_id : string) (processed stored : Z)
  (other : ProgressTask) :
  run_schedule [false; false] db (start_task session_id processed stored)
    other
  = (update_progress db session_id processed stored,
     at_point (start_task session_id processed stored) Finished, other).
Proof.
  unfold update_progress. cbn.
  destruct (select_session (sessions db) session_id); reflexivity.
Qed.

Lemma select_after_update (session_id : string) (row : SessionRow)
  (processed stored : Z) :
  select_session
    (sessions
       (update_session_progress
          {| sessions := [(session_id, row)]; products := [] |}
          session_id processed stored))
    session_id
  = Some {| total_terms := total_terms row;
            processed_terms := processed;
            total_products := stored |}.
Proof. cbn. now rewrite !String.eqb_refl. Qed.

(** One request after the other: the counters hold both chunks. *)
Lemma serial_progress_adds_up (session_id : string) (row : SessionRow)
  (n1 k1 n2 k2 : Z) :
  select_session
    (sessions
       (fst (fst (run_schedule [false; false; true; true]
                    {| sessions := [(session_id, row)]; products := [] |}
                    (start_task session_id n1 k1)
                    (start_task session_id n2 k2)))))
    session_id
  = Some {| total_terms := total_terms row;
            processed_terms := (processed_terms row + n1 + n2)%Z;
            total_products := (total_products row + k1 + k2)%Z |}.
Proof. cbn. repeat (rewrite String.eqb_refl; cbn). reflexivity. Qed.

(** C9.  The claim asks that two chunk submissions of one session that run
    at once leave [processed_terms] at the sum of both chunk sizes.  The
    progress update is a SELECT followed by an UPDATE with nothing held in
    between: when both requests read before either writes, the counters
    end at the old values plus the second chunk alone, and the first
    chunk's update is lost. *)
Theorem interleaved_progress_loses_update (session_id : string)
  (row : SessionRow) (n1 k1 n2 k2 : Z) :
  let result :=
    run_schedule [false; true; false; true]
      {| sessions := [(session_id, row)]; products := [] |}
      (start_task session_id n1 k1) (start_task session_id n2 k2) in
  task_point (snd (fst result)) = Finished
  /\ task_point (snd result) = Finished
  /\ select_session (sessions (fst (fst result))) session_id
     = Some {| total_terms := total_terms row;
               processed_terms := (processed_terms row + n2)%Z;
               total_products := (total_products row + k2)%Z |}.
Proof.
  cbn. repeat (rewrite String.eqb_refl; cbn).
  split; [reflexivity|]. split; reflexivity.
Qed.

Example two_chunks_of_three_and_two :
  select_session
    (sessions
       (fst (fst (run_schedule [false; true; false; true] demo_db
                    (start_task "s1" 3 3) (start_task "s1" 2 2)))))
    "s1"
  = Some {| total_terms := 2; processed_terms := 2; total_products := 2 |}.
Proof. reflexivity. Qed.

(* ================================================================== *)
(** * The identifiers the fetcher discovers *)
(* ================================================================== *)

(** X1.  The identifiers the fetcher discovers are never empty and never hold a
    double quote; with an identifier discovered, the body holds the marker
    the fetcher tests for.  An identifier of the second scan carries the
    [retailer_] tag. *)
Theorem discovered_ids_shape (text prod_id : string) :
  In prod_id (discover_ids text) ->
  prod_id <> EmptyString
  /\ all_chars not_quote prod_id = true
  /\ (PyStr.contains (quoted "productId") text = true
      \/ (PyStr.contains (quoted "retailerProductId") text = true
          /\ PyStr.startswith "retailer_" prod_id = true
          /\ clean_id prod_id <> EmptyString)).
Proof.
  unfold discover_ids.
  destruct (map Re.group1 (Re.finditer product_id_pattern text))
    as [|first others] eqn:Hids; cbn [is_empty].
  - intros Hin. apply in_map_iff in Hin as [m [<- Hin]].
    apply finditer_simple_string_field in Hin as [Hc [Hne Hq]].
    split; [discriminate|]. split.
    + rewrite all_chars_app, Hq. reflexivity.
    + right. split; [exact Hc|]. split; [apply startswith_app|].
      unfold clean_id. rewrite startswith_app.
      rewrite (drop_app "retailer_"). exact Hne.
  - rewrite <- Hids. intros Hin. apply in_map_iff in Hin as [m [<- Hin]].
    apply finditer_simple_string_field in Hin as [Hc [Hne Hq]].
    split; [exact Hne|]. split; [exact Hq | now left].
Qed.

Lemma discovered_ids_shape_witness :
  In "A1" (discover_ids body_unbalanced)
  /\ PyStr.contains (quoted "productId") body_unbalanced = true.
Proof.
  assert (Hin : In "A1" (discover_ids body_unbalanced))
    by (vm_compute; left; reflexivity).
  split; [exact Hin|].
  destruct (discovered_ids_shape body_unbalanced "A1" Hin)
    as [_ [_ [Hc | [_ [Hr _]]]]]; [exact Hc | discriminate Hr].
Defined.

(* ================================================================== *)
(** * More properties of the fetcher *)
(* ================================================================== *)

(** Opening braces minus closing braces. *)
Fixpoint brace_net (s : string) : Z :=
  match s with
  | EmptyString => 0%Z
  | String c s' =>
      ((if Ascii.eqb c "{" then 1
        else if Ascii.eqb c "}" then -1 else 0) + brace_net s')%Z
  end.

Lemma brace_net_app (a b : string) :
  brace_net (a ++ b) = (brace_net a + brace_net b)%Z.
Proof.
  induction a as [|c a IH]; cbn [append brace_net]; [|rewrite IH]; lia.
Qed.

(** When the brace scan ends with a count of 0, it has read up to a closing
    brace, and before that brace the count never fell below 1. *)
Lemma brace_scan_closed (s : string) :
  forall brace_count obj_end obj_end',
    brace_scan s brace_count obj_end = (0, obj_end') ->
    1 <= brace_count ->
    exists w rest,
      s = w ++ String "}" rest
      /\ obj_end' = obj_end + S (String.length w)
      /\ (Z.of_nat brace_count + brace_net w = 1)%Z
      /\ forall u v, w = u ++ v ->
           (1 <= Z.of_nat brace_count + brace_net u)%Z.
Proof.
  induction s as [|c s IH]; intros bc e e' H Hbc;
    (destruct bc as [|below]; [lia|]); cbn [brace_scan] in H;
    [discriminate|].
  destruct (Ascii.eqb c "{") eqn:Eo.
  - apply IH in H as [w [rest [-> [-> [Hn Hp]]]]]; [|lia].
    exists (String c w), rest. cbn [append String.length brace_net].
    rewrite Eo. repeat split; [lia | lia |].
    intros [|d u] v Huv; cbn [brace_net]; [lia|].
    cbn in Huv. injection Huv as <- Huv. rewrite Eo.
    specialize (Hp u v Huv). lia.
  - destruct (Ascii.eqb c "}") eqn:Ec.
    + apply Ascii.eqb_eq in Ec. subst c.
      destruct below as [|below'].
      * assert (H0 : brace_scan s 0 (S e) = (0, S e))
          by (destruct s; reflexivity).
        rewrite H0 in H. injection H as <-.
        exists EmptyString, s. cbn. repeat split; [lia|].
        intros [|d u] v Huv; [cbn; lia | discriminate].
      * apply IH in H as [w [rest [-> [-> [Hn Hp]]]]]; [|lia].
        exists (String "}" w), rest. cbn [append String.length brace_net].
        cbn [Ascii.eqb Bool.eqb]. repeat split; [lia | lia |].
        intros [|d u] v Huv; cbn [brace_net]; [lia|].
        cbn in Huv. injection Huv as <- Huv. cbn [Ascii.eqb Bool.eqb].
        specialize (Hp u v Huv). lia.
    + apply IH in H as [w [rest [-> [-> [Hn Hp]]]]]; [|lia].
      exists (String c w), rest. cbn [append String.length brace_net].
      rewrite Eo, Ec. repeat split; [lia | lia |].
      intros [|d u] v Huv; cbn [brace_net]; [lia|].
      cbn in Huv. injection Huv as <- Huv. rewrite Eo, Ec.
      specialize (Hp u v Huv). lia.
Qed.

Lemma rfind_aux_found (c : ascii) (s : string) :
  forall pos stop best p,
    PyStr.rfind_aux c s pos stop best = Some p ->
    best = Some p
    \/ exists pre post,
         s = pre ++ String c post
         /\ p = pos + String.length pre
         /\ p < stop.
Proof.
  induction s as [|d s IH]; intros pos stop best p; cbn [PyStr.rfind_aux].
  - now left.
  - destruct (stop <=? pos) eqn:Hs; [now left|].
    apply Nat.leb_gt in Hs.
    intros H. apply IH in H as [H | [pre [post [-> [-> Hlt]]]]].
    + destruct (Ascii.eqb c d) eqn:E; [|now left].
      apply Ascii.eqb_eq in E. subst d. injection H as <-.
      right. exists EmptyString, s. cbn. repeat split; lia.
    + right. exists (String d pre), post. cbn. repeat split; lia.
Qed.

Lemma str_prefix_of_snoc (u v w : string) (c : ascii) :
  u ++ v = w ++ String c EmptyString ->
  v <> EmptyString ->
  exists v', w = u ++ v'.
Proof.
  revert w. induction u as [|d u IH]; intros w H Hv.
  - now exists w.
  - destruct w as [|e w]; cbn in H.
    + injection H as _ H. destruct u; [cbn in H; contradiction | discriminate].
    + injection H as <- H. destruct (IH w H Hv) as [v' ->]. now exists v'.
Qed.

(** X2.  The object text the fetcher isolates is a piece of the body that begins
    before the identifier, opens with a brace, ends with the brace that
    closes it, and in which every brace is matched: no proper prefix of it
    is balanced. *)
Theorem isolate_object_balanced (text_response : string) (start : nat)
  (product_json : string) :
  isolate_object text_response start = Some product_json ->
  exists pre inner post,
    text_response = pre ++ product_json ++ post
    /\ String.length pre < start
    /\ product_json = String "{" (inner ++ "}")
    /\ brace_net product_json = 0%Z
    /\ forall u v,
         product_json = u ++ v -> u <> EmptyString -> v <> EmptyString ->
         (1 <= brace_net u)%Z.
Proof.
  unfold isolate_object, PyStr.rfind.
  destruct (PyStr.rfind_aux "{" text_response 0 start None) as [p|] eqn:Hr;
    [|discriminate].
  apply rfind_aux_found in Hr as [Hr | [pre [post [Ht [Hp Hlt]]]]];
    [discriminate|].
  cbn in Hp. subst p.
  assert (Hdrop : PyStr.drop (S (String.length pre)) text_response = post).
  { rewrite Ht.
    change (S (String.length pre)) with (1 + String.length pre).
    rewrite Nat.add_comm.
    replace (String.length pre + 1)
      with (String.length (pre ++ String "{" EmptyString))
      by (rewrite str_app_length; reflexivity).
    rewrite <- (drop_app (pre ++ String "{" EmptyString) post) at 2.
    now rewrite str_app_assoc. }
  rewrite Hdrop.
  destruct (brace_scan post 1 (S (String.length pre))) as [bc obj_end] eqn:Hs.
  destruct (bc =? 0) eqn:Hbc; [|discriminate].
  apply Nat.eqb_eq in Hbc. subst bc.
  apply brace_scan_closed in Hs as [w [rest [-> [-> [Hn Hpre]]]]]; [|lia].
  assert (Hobj : PyStr.slice (String.length pre)
                   (S (String.length pre) + S (String.length w))
                   text_response
                 = String "{" (w ++ "}")).
  { assert (Hlen : String.length (String "{" (w ++ "}"))
                   = S (S (String.length w)))
      by (cbn [String.length]; rewrite str_app_length;
          cbn [String.length]; lia).
    unfold PyStr.slice. rewrite Ht, drop_app.
    replace (S (String.length pre) + S (String.length w) - String.length pre)
      with (S (S (String.length w))) by lia.
    rewrite <- Hlen.
    rewrite <- (take_app (String "{" (w ++ "}")) rest) at 2.
    cbn [append]. now rewrite str_app_assoc. }
  rewrite Hobj. intros [= <-]. exists pre, w, rest.
  split; [rewrite Ht; cbn; now rewrite str_app_assoc|].
  split; [exact Hlt|]. split; [reflexivity|]. split.
  - cbn [brace_net]. rewrite brace_net_app.
    change (brace_net "}") with (-1)%Z. cbn [Ascii.eqb Bool.eqb]. lia.
  - intros [|d u] v Huv Hu Hv; [contradiction|].
    cbn in Huv. injection Huv as <- Huv. cbn [brace_net Ascii.eqb Bool.eqb].
    symmetry in Huv. destruct (str_prefix_of_snoc _ _ _ _ Huv Hv) as [v' Hw].
    specialize (Hpre u v' Hw). lia.
Qed.

Lemma isolate_object_balanced_witness :
  isolate_object "see {a{b}c} here" 7 = Some "{b}"
  /\ exists pre inner post,
       "see {a{b}c} here" = pre ++ "{b}" ++ post
       /\ String.length pre < 7
       /\ "{b}" = String "{" (inner ++ "}")
       /\ brace_net "{b}" = 0%Z
       /\ forall u v,
            "{b}" = u ++ v -> u <> EmptyString -> v <> EmptyString ->
            (1 <= brace_net u)%Z.
Proof.
  split; [vm_compute; reflexivity|].
  apply (isolate_object_balanced "see {a{b}c} here" 7 "{b}").
  vm_compute. reflexivity.
Defined.

Lemma map_put_length (k : JValue) (v : Dict) (m : ProductMap) :
  List.length (map_put k v m) <= S (List.length m).
Proof.
  induction m as [|[k' v'] m IH]; cbn; [lia|].
  destruct (key_eqb k k'); cbn; lia.
Qed.

Section FetcherBounds.

Variable json_loads : string -> LoadResult.
Variable re_compile : string -> option Re.regex.

Lemma fetch_one_length (text_response : string) (result result' : ProductMap)
  (prod_id : string) :
  fetch_one json_loads re_compile text_response result prod_id
  = PyOk result' ->
  List.length result' <= S (List.length result).
Proof.
  unfold fetch_one, map_set.
  destruct (re_compile (search_pattern prod_id)) as [pattern|];
    [|discriminate].
  destruct (Re.search pattern text_response) as [id_match|];
    [|intros [= <-]; lia].
  destruct (isolate_object text_response (Re.m_start id_match))
    as [product_json|]; [|intros [= <-]; lia].
  destruct (json_loads product_json) as [product_data | | | ];
    [| |discriminate|discriminate].
  - destruct (hashable _); [|discriminate].
    intros [= <-]. apply map_put_length.
  - destruct (negb _); [|intros [= <-]; lia].
    cbn [hashable]. intros [= <-]. apply map_put_length.
Qed.

Lemma fetch_loop_length (text_response : string) (product_ids : list string) :
  forall result result',
    fetch_loop json_loads re_compile text_response product_ids result
    = PyOk result' ->
    List.length result' <= List.length result + List.length product_ids.
Proof.
  induction product_ids as [|prod_id rest IH]; intros result result';
    cbn [fetch_loop].
  - intros [= <-]. cbn. lia.
  - destruct (fetch_one json_loads re_compile text_response result prod_id)
      as [r1 | e] eqn:H1; cbn [bind]; [|discriminate].
    intros H. apply IH in H. apply fetch_one_length in H1. cbn. lia.
Qed.

(** X3.  The fetcher returns entries only for a response with status 200, and
    never more entries than identifiers it discovered in the body. *)
Theorem fetch_result_bounded (product_id : string) (status_code : Z)
  (text_response : string) (result : ProductMap) :
  fetch_product_data json_loads re_compile product_id
    (HttpResponse status_code text_response) = PyOk (Some result) ->
  status_code = 200%Z
  /\ List.length result <= List.length (discover_ids text_response).
Proof.
  unfold fetch_product_data, fetch_try.
  destruct (status_code =? 200)%Z eqn:Hs; cbn [negb];
    [|discriminate].
  apply Z.eqb_eq in Hs. intros H. split; [exact Hs|].
  destruct (negb _ && negb _); [injection H as <-; cbn; lia|].
  destruct (fetch_loop json_loads re_compile text_response
              (discover_ids text_response) []) as [r | e] eqn:Hl;
    cbn [bind] in H.
  - apply fetch_loop_length in Hl. cbn in Hl.
    destruct r as [|entry r]; cbn [is_empty andb] in H.
    + destruct (negb (is_empty (discover_ids text_response)));
        injection H as <-; [|cbn; lia].
      now destruct (placeholders_map product_id (discover_ids text_response)
                      [] [] (placeholder_map_empty product_id))
        as [_ [_ [_ Hlen]]].
    + injection H as <-. exact Hl.
  - destruct e; try discriminate. injection H as <-. cbn. lia.
Qed.

End FetcherBounds.

Definition two_products_result : ProductMap :=
  match fetch_product_data json_rejects compile_literal_id "milk"
          (HttpResponse 200 body_two_products) with
  | PyOk (Some result) => result
  | _ => []
  end.

Lemma fetch_result_bounded_witness :
  fetch_product_data json_rejects compile_literal_id "milk"
    (HttpResponse 200 body_two_products) = PyOk (Some two_products_result)
  /\ List.length two_products_result = 2
  /\ List.length two_products_result
     <= List.length (discover_ids body_two_products).
Proof.
  split; [vm_compute; reflexivity|].
  split; [vm_compute; reflexivity|].
  apply (fetch_result_bounded json_rejects compile_literal_id "milk" 200
           body_two_products two_products_result).
  vm_compute. reflexivity.
Defined.

(* ================================================================== *)
(** * More properties of the term parser *)
(* ================================================================== *)

Lemma spec_split_permutation (candidates : list string) :
  forall earlier,
    Permutation
      (spec_first_occurrences earlier candidates
       ++ spec_repeats earlier candidates)
      candidates.
Proof.
  induction candidates as [|t rest IH]; intros earlier; cbn; [constructor|].
  destruct (mem t earlier).
  - apply Permutation_sym, Permutation_cons_app, Permutation_sym, IH.
  - cbn. constructor. apply IH.
Qed.

(** X4.  No candidate is lost and none is invented: the returned terms and the
    duplicates together are the candidates, each as often as it was given,
    and the returned terms are the candidates as a set. *)
Theorem parse_keeps_every_candidate (search_input : string) :
  Permutation
    (unique_terms (parse_search_terms search_input)
     ++ duplicates (parse_search_terms search_input))
    (raw_candidates search_input)
  /\ forall t,
       In t (unique_terms (parse_search_terms search_input))
       <-> In t (raw_candidates search_input).
Proof.
  destruct (parse_search_terms_lists search_input) as [-> ->].
  pose proof (spec_split_permutation (raw_candidates search_input) [])
    as Hperm.
  split; [exact Hperm|].
  intros t. split.
  - intros Hin. apply (Permutation_in _ Hperm). apply in_or_app. now left.
  - intros Hin. apply (Permutation_in _ (Permutation_sym Hperm)) in Hin.
    apply in_app_or in Hin as [Hin | Hin]; [exact Hin|].
    apply spec_repeats_seen in Hin as [[] | Hin]. exact Hin.
Qed.

Lemma rev_acc_app (s : string) :
  forall acc, PyStr.rev_acc s acc = PyStr.rev_acc s EmptyString ++ acc.
Proof.
  induction s as [|c s IH]; intros acc; cbn; [reflexivity|].
  rewrite (IH (String c acc)), (IH (String c EmptyString)).
  now rewrite str_app_assoc.
Qed.

Lemma rev_cons (c : ascii) (s : string) :
  PyStr.rev (String c s) = PyStr.rev s ++ String c EmptyString.
Proof. unfold PyStr.rev. cbn. apply rev_acc_app. Qed.

Lemma rev_app (a b : string) :
  PyStr.rev (a ++ b) = PyStr.rev b ++ PyStr.rev a.
Proof.
  induction a as [|c a IH]; cbn [append].
  - now rewrite str_app_nil_r.
  - now rewrite !rev_cons, IH, str_app_assoc.
Qed.

Lemma rev_involutive (s : string) : PyStr.rev (PyStr.rev s) = s.
Proof.
  induction s as [|c s IH]; [reflexivity|].
  now rewrite rev_cons, rev_app, IH.
Qed.

(** A text that does not begin with a space. *)
Definition head_ok (s : string) : Prop :=
  match s with
  | EmptyString => True
  | String c _ => PyStr.is_space c = false
  end.

Lemma lstrip_head_ok (s : string) : head_ok (PyStr.lstrip s).
Proof.
  induction s as [|c s IH]; cbn; [exact I|].
  destruct (PyStr.is_space c) eqn:E; [exact IH | exact E].
Qed.

Lemma lstrip_fixed (s : string) : head_ok s -> PyStr.lstrip s = s.
Proof. destruct s as [|c s]; cbn; [reflexivity | now intros ->]. Qed.

Lemma lstrip_suffix (s : string) : exists p, s = p ++ PyStr.lstrip s.
Proof.
  induction s as [|c s [p IH]]; cbn.
  - now exists EmptyString.
  - destruct (PyStr.is_space c).
    + exists (String c p). cbn. now rewrite <- IH.
    + now exists EmptyString.
Qed.

(** [s.rstrip()], as [strip] performs it. *)
Definition rstrip (s : string) : string :=
  PyStr.rev (PyStr.lstrip (PyStr.rev s)).

Lemma rstrip_prefix (s : string) : exists u, s = rstrip s ++ u.
Proof.
  unfold rstrip. destruct (lstrip_suffix (PyStr.rev s)) as [p Hp].
  exists (PyStr.rev p).
  rewrite <- rev_app, <- Hp. symmetry. apply rev_involutive.
Qed.

Lemma rstrip_head_ok (s : string) : head_ok s -> head_ok (rstrip s).
Proof.
  intros H. destruct (rstrip_prefix s) as [u Hu].
  destruct (rstrip s) as [|c t]; [exact I|].
  rewrite Hu in H. exact H.
Qed.

Lemma rstrip_idempotent (s : string) : rstrip (rstrip s) = rstrip s.
Proof.
  unfold rstrip. rewrite rev_involutive.
  now rewrite (lstrip_fixed _ (lstrip_head_ok _)).
Qed.

Lemma strip_idempotent (s : string) :
  PyStr.strip (PyStr.strip s) = PyStr.strip s.
Proof.
  change (PyStr.strip s) with (rstrip (PyStr.lstrip s)).
  change (PyStr.strip (rstrip (PyStr.lstrip s)))
    with (rstrip (PyStr.lstrip (rstrip (PyStr.lstrip s)))).
  rewrite (lstrip_fixed (rstrip (PyStr.lstrip s))).
  - apply rstrip_idempotent.
  - apply rstrip_head_ok, lstrip_head_ok.
Qed.

Lemma unique_terms_are_candidates (search_input t : string) :
  In t (unique_terms (parse_search_terms search_input)) ->
  In t (raw_candidates search_input).
Proof.
  destruct (parse_search_terms_lists search_input) as [-> _].
  intros Hin. now apply spec_first_occurrences_fresh in Hin.
Qed.

(** X5.  Every returned term is non-empty and carries no space at either end. *)
Theorem parse_terms_are_stripped (search_input t : string) :
  In t (unique_terms (parse_search_terms search_input)) ->
  t <> EmptyString /\ PyStr.strip t = t.
Proof.
  intros Hin. apply unique_terms_are_candidates in Hin.
  unfold raw_candidates in Hin. apply filter_In in Hin as [Hin Hne].
  apply in_map_iff in Hin as [piece [<- _]]. split.
  - intros E. rewrite E in Hne. discriminate.
  - apply strip_idempotent.
Qed.

Lemma parse_terms_are_stripped_witness :
  In "tea" (unique_terms (parse_search_terms "  milk ,	tea  , milk"))
  /\ "tea" <> EmptyString /\ PyStr.strip "tea" = "tea".
Proof.
  assert (Hin : In "tea"
                  (unique_terms (parse_search_terms "  milk ,	tea  , milk")))
    by (vm_compute; right; left; reflexivity).
  split; [exact Hin|].
  exact (parse_terms_are_stripped _ _ Hin).
Defined.

Definition all_space (s : string) : bool := all_chars PyStr.is_space s.

Lemma lstrip_all_space (s : string) :
  all_space s = true -> PyStr.lstrip s = EmptyString.
Proof.
  induction s as [|c s IH]; cbn; [reflexivity|].
  intros H. apply andb_true_iff in H as [-> H]. now apply IH.
Qed.

Lemma strip_all_space (s : string) :
  all_space s = true -> PyStr.strip s = EmptyString.
Proof.
  intros H. unfold PyStr.strip. now rewrite (lstrip_all_space _ H).
Qed.

Lemma all_chars_rev_acc (p : ascii -> bool) (s : string) :
  forall acc,
    all_chars p (PyStr.rev_acc s acc) = all_chars p s && all_chars p acc.
Proof.
  induction s as [|c s IH]; intros acc; cbn; [reflexivity|].
  rewrite IH. cbn. now rewrite andb_assoc, (andb_comm (p c)).
Qed.

Lemma all_chars_rev (p : ascii -> bool) (s : string) :
  all_chars p (PyStr.rev s) = all_chars p s.
Proof.
  unfold PyStr.rev. rewrite all_chars_rev_acc. cbn. apply andb_true_r.
Qed.

(** A text made of characters of a class does not contain a text that
    begins outside the class. *)
Lemma contains_outside (p : ascii -> bool) (c : ascii) (needle s : string) :
  all_chars p s = true -> p c = false ->
  PyStr.contains (String c needle) s = false.
Proof.
  intros Hs Hc. induction s as [|d s IH]; cbn; [reflexivity|].
  cbn in Hs. apply andb_true_iff in Hs as [Hd Hs].
  rewrite (IH Hs), orb_false_r.
  destruct (Ascii.eqb c d) eqn:E; [|reflexivity].
  apply Ascii.eqb_eq in E. congruence.
Qed.

Lemma split_on_aux_class (p sep : ascii -> bool) (s : string) :
  forall cur,
    all_chars p s = true -> all_chars p cur = true ->
    Forall (fun piece => all_chars p piece = true)
      (PyStr.split_on_aux sep s cur).
Proof.
  induction s as [|c s IH]; intros cur Hs Hcur; cbn.
  - constructor; [now rewrite all_chars_rev | constructor].
  - cbn in Hs. apply andb_true_iff in Hs as [Hc Hs].
    destruct (sep c).
    + constructor; [now rewrite all_chars_rev | now apply IH].
    + apply IH; [exact Hs | cbn; now rewrite Hc, Hcur].
Qed.

Lemma split_ws_aux_blank (s : string) :
  all_space s = true -> PyStr.split_ws_aux s EmptyString = [].
Proof.
  induction s as [|c s IH]; cbn; [reflexivity|].
  intros H. apply andb_true_iff in H as [-> H]. now apply IH.
Qed.

Lemma digit_not_space (c : ascii) :
  PyStr.is_digit c = true -> PyStr.is_space c = false.
Proof.
  destruct c as [[] [] [] [] [] [] [] []]; vm_compute;
    try reflexivity; discriminate.
Qed.

(** What a match of the dense-code pattern consumes. *)
Lemma steps_ea_code (m m' : Re.mstate) :
  steps ea_code_pattern m m' ->
  exists ds,
    Re.ms_rest m = (ds ++ "EA") ++ Re.ms_rest m'
    /\ ds <> EmptyString
    /\ all_chars PyStr.is_digit ds = true.
Proof.
  unfold ea_code_pattern. intros H.
  inversion H as [ | | | r1 r2 m0 m1 m4 H1 H2 | | | | | | ]; subst.
  inversion H1; subst.
  inversion H2 as [ | | | r1 r2 m0 m2 m4' H3 H4 | | | | | | ]; subst.
  inversion H4 as [ | | | r1 r2 m0 m3 m4' H5 H6 | | | | | | ]; subst.
  inversion H6; subst.
  apply steps_plus_cls in H3 as [ds [Hds [Hp [Hne _]]]].
  apply (steps_lit "EA") in H5 as [Hea _].
  exists ds. rewrite Hds, Hea. now rewrite str_app_assoc.
Qed.

Lemma findall_ea_blank (s : string) :
  all_space s = true -> Re.findall ea_code_pattern s = [].
Proof.
  intros Hs. unfold Re.findall.
  destruct (Re.finditer ea_code_pattern s) as [|m ms] eqn:E; [reflexivity|].
  assert (Hin : In m (Re.finditer ea_code_pattern s))
    by (rewrite E; now left).
  apply finditer_matches in Hin as [pre [prev [s' [mst [-> [Hm _]]]]]].
  apply match_at_sound, steps_ea_code in Hm as [ds [Hr [Hne Hd]]].
  cbn [Re.ms_rest] in Hr. subst s'.
  unfold all_space in Hs. rewrite !all_chars_app in Hs.
  destruct ds as [|d ds]; [contradiction|].
  cbn in Hd, Hs. apply andb_true_iff in Hd as [Hd _].
  apply digit_not_space in Hd. rewrite Hd in Hs.
  cbn in Hs. rewrite andb_false_r in Hs. discriminate.
Qed.

Lemma blank_split_candidates (search_input : string) :
  all_space search_input = true ->
  snd (split_candidates search_input) = false
  /\ Forall (fun piece => all_space piece = true)
       (fst (split_candidates search_input)).
Proof.
  intros Hs. unfold split_candidates.
  rewrite (contains_outside PyStr.is_space "E" "A" _ Hs eq_refl).
  destruct (_ || _).
  - split; [reflexivity|]. cbn [fst].
    apply split_on_aux_class; [exact Hs | reflexivity].
  - rewrite (findall_ea_blank _ Hs).
    destruct (_ && _); cbn [fst snd]; split; try reflexivity.
    + unfold PyStr.split_ws. rewrite (split_ws_aux_blank _ Hs). constructor.
    + constructor; [exact Hs | constructor].
Qed.

(** X6.  An input that is empty or made of white space only gives no term, no
    duplicate and no dense-code flag. *)
Theorem parse_blank_input (search_input : string) :
  all_space search_input = true ->
  parse_search_terms search_input
  = {| unique_terms := []; duplicate_count := 0;
       contains_ea_codes := false; duplicates := [] |}.
Proof.
  intros Hs. destruct (blank_split_candidates _ Hs) as [Hflag Hpieces].
  assert (Hraw : raw_candidates search_input = []).
  { unfold raw_candidates.
    induction Hpieces as [|piece pieces Hp _ IH]; [reflexivity|].
    cbn. now rewrite (strip_all_space _ Hp). }
  unfold parse_search_terms. rewrite Hraw, Hflag. reflexivity.
Qed.

Lemma parse_blank_input_witness :
  all_space (String "009" (String nl "  ")) = true
  /\ parse_search_terms (String "009" (String nl "  "))
     = {| unique_terms := []; duplicate_count := 0;
          contains_ea_codes := false; duplicates := [] |}.
Proof.
  split; [reflexivity|].
  apply parse_blank_input. reflexivity.
Defined.

(* ================================================================== *)
(** * More properties of the normaliser *)
(* ================================================================== *)

Definition is_string (v : JValue) : bool :=
  match v with
  | JStr _ => true
  | _ => false
  end.

Lemma join_raises_iff (sep : string) (items : list JValue) :
  (exists e, join sep items = PyRaise e) <-> forallb is_string items = false.
Proof.
  induction items as [|v rest IH]; cbn [join forallb].
  - split; [intros [e H]; discriminate | discriminate].
  - destruct v; cbn [is_string andb];
      try (split; [reflexivity | intros _; now exists TypeError]).
    destruct rest as [|v' rest']; [split; [intros [e H]|]; discriminate|].
    rewrite <- IH.
    destruct (join sep (v' :: rest')) as [t | e']; cbn [bind]; split;
      intros [e H]; try discriminate; now exists e'.
Qed.

(** X7.  The normaliser raises [TypeError] exactly when [categoryPath] is a list
    with an item that is not a string; whatever else it raises is an
    [OverflowError] or a [ZeroDivisionError] of the discount block. *)
Theorem normalize_exceptions (product : Dict) (term : string) :
  (extract_product_info product term = PyRaise TypeError
   <-> exists path,
         dict_lookup "categoryPath" product = Some (JList path)
         /\ forallb is_string path = false)
  /\ forall e,
       extract_product_info product term = PyRaise e ->
       e = TypeError \/ e = OverflowError \/ e = ZeroDivisionError.
Proof.
  split; [|intros e; apply extract_product_info_exceptions].
  unfold extract_product_info. split.
  - destruct (dict_lookup "categoryPath" product) as [[ | | | | | path | ]|];
      cbn [bind];
      try (destruct (price_block product) as [pf | e] eqn:Hp; cbn [bind];
           [discriminate|];
           intros [= ->]; apply price_block_exceptions in Hp;
           destruct Hp; discriminate).
    destruct (join " > " path) as [cat | e] eqn:Hj; cbn [bind].
    + destruct (price_block product) as [pf | e] eqn:Hp; cbn [bind];
        [discriminate|].
      intros [= ->]. apply price_block_exceptions in Hp.
      destruct Hp; discriminate.
    + intros _. exists path. split; [reflexivity|].
      apply (proj1 (join_raises_iff " > " path)). now exists e.
  - intros [path [-> Hbad]].
    apply (proj2 (join_raises_iff " > " path)) in Hbad as [e He].
    rewrite He. cbn [bind].
    now rewrite (join_raises_TypeError _ _ _ He).
Qed.

(** X8.  A record of the normaliser lists at most five offers, the first ones of
    the [offers] list of the product, and has the [offers] key only for
    such a list; no record of it carries a not-found message. *)
Theorem normalize_offers_capped (product : Dict) (term : string)
  (r : ProductRecord) :
  extract_product_info product term = PyOk r ->
  notFoundMessage r = None
  /\ match offers r with
     | Some kept =>
         List.length kept <= 5
         /\ exists all,
              dict_lookup "offers" product = Some (JList all)
              /\ kept = firstn 5 all
     | None =>
         forall all, dict_lookup "offers" product <> Some (JList all)
     end.
Proof.
  unfold extract_product_info.
  destruct (match dict_lookup "categoryPath" product with
            | Some (JList path) => join " > " path
            | _ => PyOk EmptyString
            end) as [cat | e]; cbn [bind]; [|discriminate].
  destruct (price_block product) as [pf | e]; cbn [bind]; [|discriminate].
  intros H. apply PyOk_inj in H. subst r. cbn [offers notFoundMessage].
  split; [reflexivity|].
  destruct (dict_lookup "offers" product) as [[ | | | | | all | ]|];
    try discriminate.
  split; [apply firstn_le_length | now exists all].
Qed.

Definition many_offers_product : Dict :=
  [ ("productId", JStr "A1");
    ("offers", JList [JStr "o1"; JStr "o2"; JStr "o3"; JStr "o4"; JStr "o5";
                      JStr "o6"; JStr "o7"]) ].

Definition many_offers_record : ProductRecord :=
  match extract_product_info many_offers_product "milk" with
  | PyOk r => r
  | PyRaise _ => not_found_record "milk"
  end.

Lemma normalize_offers_capped_witness :
  extract_product_info many_offers_product "milk" = PyOk many_offers_record
  /\ offers many_offers_record
     = Some [JStr "o1"; JStr "o2"; JStr "o3"; JStr "o4"; JStr "o5"]
  /\ notFoundMessage many_offers_record = None.
Proof.
  assert (H : extract_product_info many_offers_product "milk"
              = PyOk many_offers_record) by (vm_compute; reflexivity).
  split; [exact H|]. split; [vm_compute; reflexivity|].
  exact (proj1 (normalize_offers_capped _ _ _ H)).
Defined.

(** X9.  Whatever text the regex recovery is given, the product it builds
    normalises without an exception into a found record that carries the
    identifier, no original price and no discount, an empty category and
    the default currency. *)
Theorem recovered_product_normalizes (product_json product_id term : string) :
  exists r,
    extract_product_info (extract_product_fields product_json product_id)
      term = PyOk r
    /\ found r = true
    /\ searchTerm r = term
    /\ productId r = JStr (clean_id product_id)
    /\ originalPrice r = None
    /\ discountPercentage r = None
    /\ category r = EmptyString
    /\ currency r = Some (JStr "CAD").
Proof.
  unfold extract_product_fields.
  generalize (field_or_none (escaped_string_field "retailerProductId")
                unescape_quote product_json).
  generalize (field_or_none (escaped_string_field "name") unescape
                product_json).
  generalize (field_or_none (escaped_string_field "brand") unescape
                product_json).
  generalize (field_or_none price_pattern (fun s => s) product_json).
  intros amount brand_v name_v retailer_v.
  destruct (Re.search available_pattern product_json);
    destruct (Re.search (escaped_string_field "src") product_json);
    eexists; (split; [reflexivity|]); repeat split.
Qed.

(* ================================================================== *)
(** * More properties of the per-term processing *)
(* ================================================================== *)

Lemma not_found_text_names_term (term : string) :
  PyStr.contains term (not_found_text term) = true.
Proof.
  unfold not_found_text, quoted.
  change (PyStr.contains term
            (("The article " ++ String dq EmptyString)
             ++ (term ++ String dq EmptyString)
             ++ " was not found. It may not be published yet or could be a typo.")
          = true).
  rewrite (str_app_assoc term). apply contains_app.
Qed.

Section TermShape.

Variable json_loads : string -> LoadResult.
Variable re_compile : string -> option Re.regex.

(** X10.  When the fetcher reports a hard failure or no product, the term gets
    exactly one record, whatever the mode and the limit: the not-found
    record, with no identifier, a total of 0 and a message that quotes the
    term. *)
Theorem process_term_not_found (term : string) (outcome : HttpOutcome)
  (limit : JValue) (is_article_search : bool) :
  fetch_product_data json_loads re_compile term outcome = PyOk None
  \/ fetch_product_data json_loads re_compile term outcome = PyOk (Some []) ->
  process_term json_loads re_compile term outcome limit is_article_search
  = PyOk (One (not_found_record term), 0%Z)
  /\ found (not_found_record term) = false
  /\ productId (not_found_record term) = JNull
  /\ exists text,
       notFoundMessage (not_found_record term) = Some text
       /\ PyStr.contains term text = true.
Proof.
  intros H. split.
  - unfold process_term, process_term_try.
    destruct H as [-> | ->]; reflexivity.
  - split; [reflexivity|]. split; [reflexivity|].
    exists (not_found_text term).
    split; [reflexivity | apply not_found_text_names_term].
Qed.

Lemma extract_all_no_message (items : ProductMap) (term : string) :
  forall l,
    extract_all items term = PyOk l ->
    Forall (fun r => found r = true /\ searchTerm r = term
                     /\ notFoundMessage r = None) l.
Proof.
  induction items as [|[k product] rest IH]; intros l; cbn.
  - intros [= <-]. constructor.
  - destruct (extract_product_info product term) as [r | e] eqn:Hr;
      cbn [bind]; [|discriminate].
    destruct (extract_all rest term) as [more | e]; cbn [bind];
      [|discriminate].
    intros [= <-]. constructor; [|now apply IH].
    pose proof (extract_product_info_ok _ _ _ Hr) as [Hf [Ht _]].
    split; [exact Hf|]. split; [exact Ht|].
    unfold extract_product_info in Hr.
    destruct (match dict_lookup "categoryPath" product with
              | Some (JList path) => join " > " path
              | _ => PyOk EmptyString
              end); cbn [bind] in Hr; [|discriminate].
    destruct (price_block product); cbn [bind] in Hr; [|discriminate].
    apply PyOk_inj in Hr. now subst r.
Qed.

(** X11.  Every record [process_term] returns belongs to its term.  A record
    that is not found has no identifier, no price, no discount and a
    message; a found record has no not-found message. *)
Theorem process_term_records (term : string) (outcome : HttpOutcome)
  (limit : JValue) (is_article_search : bool) (res : ProductResult)
  (total : Z) :
  process_term json_loads re_compile term outcome limit is_article_search
  = PyOk (res, total) ->
  records res <> []
  /\ Forall
       (fun r =>
          searchTerm r = term
          /\ (found r = false ->
              productId r = JNull
              /\ retailerProductId r = Some JNull
              /\ currentPrice r = None
              /\ originalPrice r = None
              /\ discountPercentage r = None
              /\ exists text, notFoundMessage r = Some text)
          /\ (found r = true -> notFoundMessage r = None))
       (records res).
Proof.
  intros Hres.
  destruct (process_term_cases json_loads re_compile term outcome limit
              is_article_search) as [res' [total' [Hres' Hcases]]].
  rewrite Hres in Hres'. injection Hres' as <- <-.
  destruct Hcases
    as [[r [-> [Hph ->]]]
       | [entities [keys [_ [_ [Hne [_ [Hall _]]]]]]]].
  - split; [discriminate|]. constructor; [|constructor].
    destruct Hph as [-> | [-> | ->]]; cbn;
      (split; [reflexivity|]); (split; [|discriminate]);
      intros _; repeat split; eexists; reflexivity.
  - pose proof (extract_all_found _ _ _ Hall) as [Hlen _].
    split.
    + intros E. rewrite E in Hlen. destruct keys; [contradiction|].
      discriminate.
    + eapply Forall_impl; [|apply (extract_all_no_message _ _ _ Hall)].
      intros r [Hf [Ht Hm]]. split; [exact Ht|]. split.
      * rewrite Hf. discriminate.
      * intros _. exact Hm.
Qed.

End TermShape.

Lemma process_term_not_found_witness :
  fetch_product_data json_rejects compile_literal_id "milk" HttpTimeout
  = PyOk None
  /\ process_term json_rejects compile_literal_id "milk" HttpTimeout
       (JInt 3) false
     = PyOk (One (not_found_record "milk"), 0%Z).
Proof.
  assert (H : fetch_product_data json_rejects compile_literal_id "milk"
                HttpTimeout = PyOk None) by reflexivity.
  split; [exact H|].
  exact (proj1 (process_term_not_found json_rejects compile_literal_id
                  "milk" HttpTimeout (JInt 3) false (or_introl H))).
Defined.

Lemma process_term_records_witness :
  process_term json_rejects compile_literal_id "milk"
    (HttpResponse 200 body_two_products) (JInt 1) false
  = PyOk (fst one_of_two, snd one_of_two)
  /\ records (fst one_of_two) <> [].
Proof.
  assert (H : process_term json_rejects compile_literal_id "milk"
                (HttpResponse 200 body_two_products) (JInt 1) false
              = PyOk (fst one_of_two, snd one_of_two))
    by (vm_compute; reflexivity).
  split; [exact H|].
  exact (proj1 (process_term_records json_rejects compile_literal_id "milk"
                  (HttpResponse 200 body_two_products) (JInt 1) false
                  (fst one_of_two) (snd one_of_two) H)).
Defined.

(* ================================================================== *)
(** * The rest of the repository: sessions, statistics, cleanup *)
(* ================================================================== *)

(** [create_session]: the INSERT of a row with its default counters.  The
    identifier is the fresh UUID the source draws; [session_id] is the
    primary key of the table, so a second row with the same identifier is
    refused. *)
Definition create_session (db : DB) (session_id : string) : PyResult DB :=
  match select_session (sessions db) session_id with
  | Some _ => PyRaise DatabaseError
  | None =>
      PyOk {| sessions :=
                (sessions db
                 ++ [(session_id,
                      {| total_terms := 0; processed_terms := 0;
                         total_products := 0 |})])%list;
              products := products db |}
  end.

(** The UPDATE of [start_search], lines 754-759. *)
Definition set_total_terms (db : DB) (session_id : string) (n : Z) : DB :=
  {| sessions :=
       map (fun '(sid, row) =>
              if String.eqb sid session_id
              then (sid, {| total_terms := n;
                            processed_terms := processed_terms row;
                            total_products := total_products row |})
              else (sid, row))
           (sessions db);
     products := products db |}.

(** The column [found] of a stored row: the second bound value. *)
Definition row_found (row : ProductRow) : SqlValue :=
  nth 1 (row_values row) SqlNull.

(** The SQL test [found = n] for an integer [n]: a number is compared by
    value, NULL gives no match and a text is never equal to a number. *)
Definition sql_equals (v : SqlValue) (n : Z) : bool :=
  match v with
  | SqlInteger z => (z =? n)%Z
  | SqlReal f => float_eq_Z f n
  | _ => false
  end.

(** The rows [WHERE session_id = ?] selects. *)
Definition session_rows (db : DB) (session_id : string) : list ProductRow :=
  filter (fun row => String.eqb (row_session row) session_id) (products db).

(** [SUM(CASE WHEN found = n THEN 1 ELSE 0 END)]: NULL over no row. *)
Definition sum_case (rows : list ProductRow) (n : Z) : option Z :=
  match rows with
  | [] => None
  | _ :: _ =>
      Some (Z.of_nat
              (List.length
                 (filter (fun row => sql_equals (row_found row) n) rows)))
  end.

Record SessionStats : Type := {
  stat_total_products : Z;
  stat_found_products : option Z;
  stat_not_found_products : option Z
}.

(** [get_session_stats]: the aggregate query always yields one row, so the
    three values are the row's. *)
Definition get_session_stats (db : DB) (session_id : string) : SessionStats :=
  let rows := session_rows db session_id in
  {| stat_total_products := Z.of_nat (List.length rows);
     stat_found_products := sum_case rows 1;
     stat_not_found_products := sum_case rows 0 |}.

(** [cleanup_session]: both DELETE statements. *)
Definition cleanup_session (db : DB) (session_id : string) : DB :=
  {| sessions :=
       filter (fun '(sid, _) => negb (String.eqb sid session_id))
         (sessions db);
     products :=
       filter (fun row => negb (String.eqb (row_session row) session_id))
         (products db) |}.

(** [(n + CHUNK_SIZE - 1) // CHUNK_SIZE]: the number of chunks announced by
    [start_search] and by [estimate_performance]. *)
Definition total_chunks (n chunk_size : Z) : PyResult Z :=
  if (chunk_size =? 0)%Z then PyRaise ZeroDivisionError
  else PyOk ((n + chunk_size - 1) / chunk_size)%Z.

(** A row as [store_products_batch] writes it: its [found] column is the
    integer 0 or 1. *)
Definition stored_row (row : ProductRow) : Prop :=
  row_found row = SqlInteger 0 \/ row_found row = SqlInteger 1.

Lemma bind_all_cons (v : JValue) (vs : list JValue) :
  bind_all (v :: vs)
  = (b <- bind_param v ;; bs <- bind_all vs ;; PyOk (b :: bs)).
Proof. reflexivity. Qed.

Lemma insert_row_shape (session_id : string) (product : ProductRecord)
  (row : ProductRow) :
  insert_row session_id product = PyOk row ->
  row_session row = session_id
  /\ row_found row = SqlInteger (if found product then 1 else 0).
Proof.
  unfold insert_row, insert_params.
  rewrite bind_all_cons. cbn [bind_param bind].
  rewrite bind_all_cons. cbn [bind_param bind].
  match goal with
  | |- context [bind_all ?tl] => destruct (bind_all tl) as [bs | e]
  end; cbn [bind]; [|discriminate].
  destruct (bind_param (opt_text (notFoundMessage product))) as [nf | e];
    cbn [bind]; [|discriminate].
  intros H. apply PyOk_inj in H. subst row. split; reflexivity.
Qed.

Lemma insert_rows_shape (session_id : string)
  (products_data : list ProductRecord) :
  forall rows,
    insert_rows session_id products_data = PyOk rows ->
    Forall2 (fun product row =>
               row_session row = session_id
               /\ row_found row = SqlInteger (if found product then 1 else 0))
      products_data rows.
Proof.
  induction products_data as [|p rest IH]; intros rows; cbn.
  - intros [= <-]. constructor.
  - destruct (insert_row session_id p) as [row | e] eqn:Hrow; cbn [bind];
      [|discriminate].
    destruct (insert_rows session_id rest) as [more | e]; cbn [bind];
      [|discriminate].
    intros [= <-]. constructor; [now apply insert_row_shape | now apply IH].
Qed.

Lemma insert_rows_stored (session_id : string)
  (products_data : list ProductRecord) (rows : list ProductRow) :
  insert_rows session_id products_data = PyOk rows ->
  Forall (fun row => row_session row = session_id /\ stored_row row) rows
  /\ List.length (filter (fun row => sql_equals (row_found row) 1) rows)
     = count_found products_data.
Proof.
  intros H. apply insert_rows_shape in H.
  induction H as [|p row ps rows' [Hs Hf] _ [IH1 IH2]].
  - split; [constructor | reflexivity].
  - split.
    + constructor; [|exact IH1]. split; [exact Hs|].
      unfold stored_row. rewrite Hf. destruct (found p); auto.
    + unfold count_found in *. cbn [filter]. rewrite Hf.
      destruct (found p); cbn; now rewrite IH2.
Qed.

Lemma filter_all_true {A : Type} (f : A -> bool) (l : list A) :
  Forall (fun x => f x = true) l -> filter f l = l.
Proof.
  induction 1 as [|x l Hx _ IH]; cbn; [reflexivity|]. now rewrite Hx, IH.
Qed.

Lemma filter_all_false {A : Type} (f : A -> bool) (l : list A) :
  Forall (fun x => f x = false) l -> filter f l = [].
Proof.
  induction 1 as [|x l Hx _ IH]; cbn; [reflexivity|]. now rewrite Hx, IH.
Qed.

(** X12.  Storing a batch adds its records to the statistics of its session,
    leaves every other session's statistics alone and does not touch the
    session table. *)
Theorem store_products_batch_stats (db db' : DB) (session_id : string)
  (products_data : list ProductRecord) :
  store_products_batch db session_id products_data = PyOk db' ->
  sessions db' = sessions db
  /\ stat_total_products (get_session_stats db' session_id)
     = (stat_total_products (get_session_stats db session_id)
        + Z.of_nat (List.length products_data))%Z
  /\ List.length
       (filter (fun row => sql_equals (row_found row) 1)
          (session_rows db' session_id))
     = List.length
         (filter (fun row => sql_equals (row_found row) 1)
            (session_rows db session_id))
       + count_found products_data
  /\ forall other, other <> session_id ->
       get_session_stats db' other = get_session_stats db other.
Proof.
  unfold store_products_batch.
  destruct (insert_rows session_id products_data) as [rows | e] eqn:Hrows;
    cbn [bind]; [|discriminate].
  intros H. apply PyOk_inj in H. subst db'. cbn [sessions].
  pose proof (insert_rows_length _ _ _ Hrows) as Hlen.
  destruct (insert_rows_stored _ _ _ Hrows) as [Hall Hfound].
  assert (Hmine : session_rows
                    {| sessions := sessions db;
                       products := (products db ++ rows)%list |}
                    session_id
                  = (session_rows db session_id ++ rows)%list).
  { unfold session_rows. cbn [products]. rewrite filter_app. f_equal.
    apply filter_all_true. eapply Forall_impl; [|exact Hall].
    intros row [-> _]. apply String.eqb_refl. }
  split; [reflexivity|]. split; [|split].
  - unfold get_session_stats. cbn [stat_total_products].
    rewrite Hmine, length_app, Hlen. lia.
  - rewrite Hmine, filter_app, length_app, Hfound. reflexivity.
  - intros other Hother. unfold get_session_stats, session_rows.
    cbn [products]. rewrite filter_app.
    rewrite (filter_all_false _ rows), app_nil_r; [reflexivity|].
    eapply Forall_impl; [|exact Hall].
    intros row [-> _]. apply String.eqb_neq. congruence.
Qed.

Definition stored_demo : DB :=
  match store_products_batch demo_db "s1"
          [not_found_record "milk"; sale_record] with
  | PyOk db' => db'
  | PyRaise _ => demo_db
  end.

Lemma store_products_batch_stats_witness :
  store_products_batch demo_db "s1" [not_found_record "milk"; sale_record]
  = PyOk stored_demo
  /\ get_session_stats stored_demo "s1"
     = {| stat_total_products := 2; stat_found_products := Some 1%Z;
          stat_not_found_products := Some 1%Z |}
  /\ sessions stored_demo = sessions demo_db.
Proof.
  assert (H : store_products_batch demo_db "s1"
                [not_found_record "milk"; sale_record] = PyOk stored_demo)
    by (vm_compute; reflexivity).
  split; [exact H|]. split; [vm_compute; reflexivity|].
  exact (proj1 (store_products_batch_stats _ _ _ _ H)).
Defined.

Lemma found_split (rows : list ProductRow) :
  Forall stored_row rows ->
  List.length (filter (fun row => sql_equals (row_found row) 1) rows)
  + List.length (filter (fun row => sql_equals (row_found row) 0) rows)
  = List.length rows.
Proof.
  induction 1 as [|row rows [Hr | Hr] _ IH]; cbn [filter]; [reflexivity| |];
    rewrite Hr; cbn; lia.
Qed.

(** X13.  On rows written by [store_products_batch] the statistics add up: a
    session with rows has its found and not-found counts, and their sum is
    the total; a session without rows has a total of 0 and no counts at
    all, the sums being NULL. *)
Theorem session_stats_balance (db : DB) (session_id : string) :
  Forall stored_row (products db) ->
  match session_rows db session_id with
  | [] =>
      get_session_stats db session_id
      = {| stat_total_products := 0; stat_found_products := None;
           stat_not_found_products := None |}
  | _ :: _ =>
      exists found_count not_found_count,
        stat_found_products (get_session_stats db session_id)
        = Some found_count
        /\ stat_not_found_products (get_session_stats db session_id)
           = Some not_found_count
        /\ (found_count + not_found_count
            = stat_total_products (get_session_stats db session_id))%Z
        /\ (0 <= found_count)%Z /\ (0 <= not_found_count)%Z
  end.
Proof.
  intros Hall. unfold get_session_stats.
  assert (Hrows : Forall stored_row (session_rows db session_id)).
  { apply Forall_forall. intros row Hin.
    apply filter_In in Hin as [Hin _].
    exact (proj1 (Forall_forall _ _) Hall row Hin). }
  destruct (session_rows db session_id) as [|row rows] eqn:E;
    [reflexivity|].
  cbn [sum_case stat_found_products stat_not_found_products
       stat_total_products].
  do 2 eexists. split; [reflexivity|]. split; [reflexivity|].
  pose proof (found_split _ Hrows). lia.
Qed.

Lemma session_stats_balance_witness :
  Forall stored_row (products stored_demo)
  /\ get_session_stats stored_demo "nobody"
     = {| stat_total_products := 0; stat_found_products := None;
          stat_not_found_products := None |}.
Proof.
  assert (E : map row_found (products stored_demo)
              = [SqlInteger 0; SqlInteger 1]) by (vm_compute; reflexivity).
  assert (H : Forall stored_row (products stored_demo)).
  { unfold stored_row.
    apply (proj1 (Forall_map row_found
                    (fun v => v = SqlInteger 0 \/ v = SqlInteger 1)
                    (products stored_demo))).
    rewrite E.
    constructor; [left; reflexivity|].
    constructor; [right; reflexivity | constructor]. }
  split; [exact H|].
  pose proof (session_stats_balance stored_demo "nobody" H) as B.
  assert (R : session_rows stored_demo "nobody" = [])
    by (vm_compute; reflexivity).
  rewrite R in B. exact B.
Defined.

Lemma select_session_filter_other (rows : list (string * SessionRow))
  (session_id other : string) :
  other <> session_id ->
  select_session
    (filter (fun '(sid, _) => negb (String.eqb sid session_id)) rows) other
  = select_session rows other.
Proof.
  intros Hne. induction rows as [|[sid row] rows IH]; [reflexivity|].
  cbn [filter select_session].
  destruct (String.eqb sid session_id) eqn:E; cbn [negb select_session].
  - apply String.eqb_eq in E. subst sid.
    destruct (String.eqb session_id other) eqn:E'; [|exact IH].
    apply String.eqb_eq in E'. congruence.
  - now rewrite IH.
Qed.

Lemma select_session_filter_same (rows : list (string * SessionRow))
  (session_id : string) :
  select_session
    (filter (fun '(sid, _) => negb (String.eqb sid session_id)) rows)
    session_id = None.
Proof.
  induction rows as [|[sid row] rows IH]; [reflexivity|].
  cbn [filter]. destruct (String.eqb sid session_id) eqn:E;
    cbn [negb select_session]; [exact IH | now rewrite E].
Qed.

Lemma filter_filter_neg {A : Type} (f g : A -> bool) (l : list A) :
  (forall x, f x = true -> g x = false) ->
  filter f (filter g l) = [].
Proof.
  intros H. induction l as [|x l IH]; [reflexivity|]. cbn.
  destruct (g x) eqn:Eg; [|exact IH]. cbn.
  destruct (f x) eqn:Ef; [|exact IH].
  apply H in Ef. congruence.
Qed.

Lemma filter_idempotent {A : Type} (f : A -> bool) (l : list A) :
  filter f (filter f l) = filter f l.
Proof.
  induction l as [|x l IH]; [reflexivity|]. cbn.
  destruct (f x) eqn:E; [|exact IH]. cbn. now rewrite E, IH.
Qed.

Lemma filter_filter_comm {A : Type} (f g : A -> bool) (l : list A) :
  filter f (filter g l) = filter g (filter f l).
Proof.
  induction l as [|x l IH]; [reflexivity|]. cbn.
  destruct (g x) eqn:Eg, (f x) eqn:Ef; cbn; rewrite ?Eg, ?Ef, IH;
    reflexivity.
Qed.

(** X14.  [cleanup_session] removes the session and all its rows and nothing
    else: afterwards the session is unknown and has no row, every other
    session keeps its counters, its rows and its statistics, and a second
    cleanup changes nothing. *)
Theorem cleanup_session_exact (db : DB) (session_id : string) :
  select_session (sessions (cleanup_session db session_id)) session_id = None
  /\ session_rows (cleanup_session db session_id) session_id = []
  /\ (forall other, other <> session_id ->
        select_session (sessions (cleanup_session db session_id)) other
        = select_session (sessions db) other
        /\ session_rows (cleanup_session db session_id) other
           = session_rows db other
        /\ get_session_stats (cleanup_session db session_id) other
           = get_session_stats db other)
  /\ cleanup_session (cleanup_session db session_id) session_id
     = cleanup_session db session_id.
Proof.
  assert (Hrows : forall other, other <> session_id ->
            session_rows (cleanup_session db session_id) other
            = session_rows db other).
  { intros other Hne. unfold session_rows, cleanup_session. cbn [products].
    rewrite filter_filter_comm. apply filter_all_true.
    apply Forall_forall. intros row Hin. apply filter_In in Hin as [_ Hin].
    apply String.eqb_eq in Hin. rewrite Hin.
    apply negb_true_iff, String.eqb_neq. exact Hne. }
  split; [apply select_session_filter_same|]. split; [|split].
  - unfold session_rows, cleanup_session. cbn [products].
    apply filter_filter_neg. intros row H. now rewrite H.
  - intros other Hne. split; [now apply select_session_filter_other|].
    split; [now apply Hrows|].
    unfold get_session_stats. now rewrite Hrows.
  - unfold cleanup_session. cbn [sessions products].
    now rewrite !filter_idempotent.
Qed.

Lemma select_session_app (rows more : list (string * SessionRow))
  (session_id : string) :
  select_session (rows ++ more) session_id
  = match select_session rows session_id with
    | Some row => Some row
    | None => select_session more session_id
    end.
Proof.
  induction rows as [|[sid row] rows IH]; [reflexivity|]. cbn.
  destruct (String.eqb sid session_id); [reflexivity | exact IH].
Qed.

Lemma select_set_total_same (rows : list (string * SessionRow))
  (session_id : string) (n : Z) (row : SessionRow) :
  select_session rows session_id = Some row ->
  select_session
    (map (fun '(sid, row) =>
            if String.eqb sid session_id
            then (sid, {| total_terms := n;
                          processed_terms := processed_terms row;
                          total_products := total_products row |})
            else (sid, row)) rows) session_id
  = Some {| total_terms := n; processed_terms := processed_terms row;
            total_products := total_products row |}.
Proof.
  induction rows as [|[sid r] rows IH]; [discriminate|]. cbn.
  destruct (String.eqb sid session_id) eqn:E; cbn; rewrite E.
  - now intros [= ->].
  - exact IH.
Qed.

Lemma select_set_total_other (rows : list (string * SessionRow))
  (session_id other : string) (n : Z) :
  other <> session_id ->
  select_session
    (map (fun '(sid, row) =>
            if String.eqb sid session_id
            then (sid, {| total_terms := n;
                          processed_terms := processed_terms row;
                          total_products := total_products row |})
            else (sid, row)) rows) other
  = select_session rows other.
Proof.
  intros Hne. induction rows as [|[sid r] rows IH]; [reflexivity|]. cbn.
  destruct (String.eqb sid session_id) eqn:E; cbn.
  - apply String.eqb_eq in E. subst sid.
    destruct (String.eqb session_id other) eqn:E'; [|exact IH].
    apply String.eqb_eq in E'. congruence.
  - now rewrite IH.
Qed.

(** X15.  A session can be created only under an identifier that is not in use;
    once created and given its number of terms, it shows that total with
    both counters at 0, and no other session and no stored row has
    changed. *)
Theorem new_session_counters (db db1 : DB) (session_id : string) (n : Z) :
  create_session db session_id = PyOk db1 ->
  select_session (sessions db) session_id = None
  /\ select_session (sessions (set_total_terms db1 session_id n)) session_id
     = Some {| total_terms := n; processed_terms := 0; total_products := 0 |}
  /\ products (set_total_terms db1 session_id n) = products db
  /\ forall other, other <> session_id ->
       select_session (sessions (set_total_terms db1 session_id n)) other
       = select_session (sessions db) other.
Proof.
  unfold create_session.
  destruct (select_session (sessions db) session_id) eqn:Hsel;
    [discriminate|].
  intros H. apply PyOk_inj in H. subst db1.
  split; [reflexivity|]. cbn [set_total_terms sessions products].
  split; [|split; [reflexivity|]].
  - apply (select_set_total_same _ _ n
             {| total_terms := 0; processed_terms := 0;
                total_products := 0 |}).
    rewrite select_session_app, Hsel. cbn. now rewrite String.eqb_refl.
  - intros other Hne. rewrite select_set_total_other by exact Hne.
    rewrite select_session_app.
    destruct (select_session (sessions db) other); [reflexivity|].
    cbn. destruct (String.eqb session_id other) eqn:E; [|reflexivity].
    apply String.eqb_eq in E. congruence.
Qed.

Definition two_sessions : DB :=
  match create_session demo_db "s2" with
  | PyOk db1 => db1
  | PyRaise _ => demo_db
  end.

Lemma new_session_counters_witness :
  create_session demo_db "s2" = PyOk two_sessions
  /\ create_session two_sessions "s2" = PyRaise DatabaseError
  /\ select_session (sessions (set_total_terms two_sessions "s2" 7)) "s2"
     = Some {| total_terms := 7; processed_terms := 0; total_products := 0 |}.
Proof.
  assert (H : create_session demo_db "s2" = PyOk two_sessions)
    by reflexivity.
  split; [exact H|]. split; [reflexivity|].
  exact (proj1 (proj2 (new_session_counters demo_db two_sessions "s2" 7 H))).
Defined.

(** X16.  The number of chunks announced for [n] terms is the least number of
    chunks of the configured size that hold them all; a chunk size of 0
    makes the division raise. *)
Theorem total_chunks_covers (n chunk_size : Z) :
  (0 <= n)%Z -> (0 < chunk_size)%Z ->
  exists k,
    total_chunks n chunk_size = PyOk k
    /\ (0 <= k)%Z
    /\ (n <= k * chunk_size)%Z
    /\ ((k - 1) * chunk_size < n \/ (k = 0 /\ n = 0))%Z.
Proof.
  intros Hn Hc. unfold total_chunks.
  destruct (chunk_size =? 0)%Z eqn:E; [apply Z.eqb_eq in E; lia|].
  exists ((n + chunk_size - 1) / chunk_size)%Z. split; [reflexivity|].
  pose proof (Z.div_mod (n + chunk_size - 1) chunk_size ltac:(lia)) as Hdm.
  pose proof (Z.mod_pos_bound (n + chunk_size - 1) chunk_size Hc) as Hm.
  assert (H0 : (0 <= (n + chunk_size - 1) / chunk_size)%Z)
    by (apply Z.div_pos; lia).
  split; [exact H0|]. split; [nia|].
  destruct (Z.eq_dec n 0) as [-> | Hpos].
  - right. split; [|reflexivity].
    apply Z.div_small. lia.
  - left. nia.
Qed.

Lemma total_chunks_covers_witness :
  (0 <= 1001)%Z /\ (0 < 500)%Z
  /\ total_chunks 1001 500 = PyOk 3%Z
  /\ total_chunks 1001 0 = PyRaise ZeroDivisionError
  /\ exists k,
       total_chunks 1001 500 = PyOk k
       /\ (0 <= k)%Z
       /\ (1001 <= k * 500)%Z
       /\ ((k - 1) * 500 < 1001 \/ (k = 0 /\ 1001 = 0))%Z.
Proof.
  split; [lia|]. split; [lia|]. split; [reflexivity|].
  split; [reflexivity|].
  apply (total_chunks_covers 1001 500); lia.
Defined.

(* ================================================================== *)
(** * Progress accounting of [process_chunk] *)
(* ================================================================== *)

(** Requests served one after the other, each on the repository the
    previous one left. *)
Fixpoint serve_chunks (serve : DB -> ChunkRequest -> DB * Response)
  (db : DB) (reqs : list ChunkRequest) : DB * list Response :=
  match reqs with
  | [] => (db, [])
  | req :: rest =>
      let '(db1, response) := serve db req in
      let '(db2, responses) := serve_chunks serve db1 rest in
      (db2, response :: responses)
  end.

Definition is_ok (response : Response) : Prop :=
  match response with
  | Ok200 _ => True
  | _ => False
  end.

Definition answered_ok (response : Response) : bool :=
  match response with
  | Ok200 _ => true
  | _ => false
  end.

Lemma answered_ok_all (responses : list Response) :
  forallb answered_ok responses = true -> Forall is_ok responses.
Proof.
  induction responses as [|response rest IH]; cbn; [constructor|].
  intros H. apply andb_true_iff in H as [H1 H2].
  constructor; [now destruct response | now apply IH].
Qed.

(** What a finished future adds to [total_found]. *)
Definition total_of_future (future : Future) : Z :=
  match snd future with
  | PyOk (_, term_total_found) => term_total_found
  | PyRaise _ => 0%Z
  end.

Fixpoint sum_Z (l : list Z) : Z :=
  match l with
  | [] => 0%Z
  | z :: rest => (z + sum_Z rest)%Z
  end.

Lemma select_update_same (rows : list (string * SessionRow))
  (session_id : string) (p t : Z) (row : SessionRow) :
  select_session rows session_id = Some row ->
  select_session
    (sessions (update_session_progress
                 {| sessions := rows; products := [] |} session_id p t))
    session_id
  = Some {| total_terms := total_terms row; processed_terms := p;
            total_products := t |}.
Proof.
  cbn [update_session_progress sessions].
  induction rows as [|[sid r] rows IH]; [discriminate|]. cbn.
  destruct (String.eqb sid session_id) eqn:E; cbn; rewrite E.
  - now intros [= ->].
  - exact IH.
Qed.

Lemma select_update_other (rows : list (string * SessionRow))
  (session_id other : string) (p t : Z) :
  other <> session_id ->
  select_session
    (sessions (update_session_progress
                 {| sessions := rows; products := [] |} session_id p t))
    other
  = select_session rows other.
Proof.
  intros Hne. cbn [update_session_progress sessions].
  induction rows as [|[sid r] rows IH]; [reflexivity|]. cbn.
  destruct (String.eqb sid session_id) eqn:E; cbn.
  - apply String.eqb_eq in E. subst sid.
    destruct (String.eqb session_id other) eqn:E'; [|exact IH].
    apply String.eqb_eq in E'. congruence.
  - now rewrite IH.
Qed.

Lemma update_progress_same (db : DB) (session_id : string)
  (processed stored : Z) :
  select_session (sessions (update_progress db session_id processed stored))
    session_id
  = match select_session (sessions db) session_id with
    | Some row =>
        Some {| total_terms := total_terms row;
                processed_terms := (processed_terms row + processed)%Z;
                total_products := (total_products row + stored)%Z |}
    | None => None
    end.
Proof.
  unfold update_progress.
  destruct (select_session (sessions db) session_id) as [row|] eqn:Hsel;
    [|exact Hsel].
  exact (select_update_same (sessions db) session_id _ _ row Hsel).
Qed.

Lemma update_progress_other (db : DB) (session_id other : string)
  (processed stored : Z) :
  other <> session_id ->
  select_session (sessions (update_progress db session_id processed stored))
    other
  = select_session (sessions db) other.
Proof.
  intros Hne. unfold update_progress.
  destruct (select_session (sessions db) session_id); [|reflexivity].
  exact (select_update_other (sessions db) session_id other _ _ Hne).
Qed.

Lemma update_progress_stats (db : DB) (session_id other : string)
  (processed stored : Z) :
  get_session_stats (update_progress db session_id processed stored) other
  = get_session_stats db other.
Proof.
  unfold get_session_stats, session_rows.
  now rewrite update_progress_products.
Qed.

Lemma collect_total_fold (futures : list Future) :
  forall acc,
    acc_total_found (fold_left collect_one futures acc)
    = (acc_total_found acc + sum_Z (map total_of_future futures))%Z.
Proof.
  induction futures as [|[term result] rest IH]; intros acc.
  - cbn. lia.
  - cbn [fold_left map sum_Z]. rewrite IH.
    unfold total_of_future at 2. cbn [snd collect_one].
    destruct result as [[product_result total] | e]; cbn [acc_total_found];
      lia.
Qed.

Lemma collect_total (futures : list Future) :
  acc_total_found (collect futures) = sum_Z (map total_of_future futures).
Proof. unfold collect. now rewrite collect_total_fold. Qed.

Lemma sum_Z_perm (l l' : list Z) : Permutation l l' -> sum_Z l = sum_Z l'.
Proof.
  induction 1 as [| x l l' _ IH | x y l | l l' l'' _ IH1 _ IH2]; cbn;
    [reflexivity | now rewrite IH | lia | congruence].
Qed.

Lemma insert_rows_app (session_id : string) (l1 l2 : list ProductRecord) :
  insert_rows session_id (l1 ++ l2)%list
  = (rows1 <- insert_rows session_id l1 ;;
     rows2 <- insert_rows session_id l2 ;;
     PyOk (rows1 ++ rows2)%list).
Proof.
  induction l1 as [|p l1 IH]; cbn [List.app insert_rows].
  - cbn [bind]. now destruct (insert_rows session_id l2).
  - destruct (insert_row session_id p) as [row | e]; cbn [bind];
      [|reflexivity].
    rewrite IH.
    destruct (insert_rows session_id l1) as [rows1 | e]; cbn [bind];
      [|reflexivity].
    destruct (insert_rows session_id l2) as [rows2 | e]; cbn [bind];
      reflexivity.
Qed.

(** Whether a batch is accepted does not depend on the order of its
    records, and the rows written are the same up to their order. *)
Lemma insert_rows_perm (session_id : string) (l l' : list ProductRecord) :
  Permutation l l' ->
  forall rows,
    insert_rows session_id l = PyOk rows ->
    exists rows',
      insert_rows session_id l' = PyOk rows' /\ Permutation rows rows'.
Proof.
  induction 1 as [| x l l' _ IH | x y l | l l' l'' _ IH1 _ IH2];
    intros rows; cbn [insert_rows].
  - intros H. exists rows. split; [exact H | reflexivity].
  - destruct (insert_row session_id x) as [row | e]; cbn [bind];
      [|discriminate].
    destruct (insert_rows session_id l) as [more | e]; cbn [bind];
      [|discriminate].
    intros H. apply PyOk_inj in H. subst rows.
    destruct (IH more eq_refl) as [more' [-> Hperm]]. cbn [bind].
    exists (row :: more'). split; [reflexivity | now constructor].
  - destruct (insert_row session_id y) as [rowy | e]; cbn [bind];
      [|discriminate].
    destruct (insert_row session_id x) as [rowx | e]; cbn [bind];
      [|discriminate].
    destruct (insert_rows session_id l) as [more | e]; cbn [bind];
      [|discriminate].
    intros H. apply PyOk_inj in H. subst rows.
    exists (rowx :: rowy :: more). split; [reflexivity | constructor].
  - intros H. destruct (IH1 rows H) as [rows1 [H1 Hp1]].
    destruct (IH2 rows1 H1) as [rows2 [H2 Hp2]].
    exists rows2. split; [exact H2 | now transitivity rows1].
Qed.

Lemma filter_perm {A : Type} (f : A -> bool) (l l' : list A) :
  Permutation l l' -> Permutation (filter f l) (filter f l').
Proof.
  induction 1 as [| x l l' _ IH | x y l | l l' l'' _ IH1 _ IH2]; cbn.
  - constructor.
  - destruct (f x); [now constructor | exact IH].
  - destruct (f x), (f y); try reflexivity. constructor.
  - now transitivity (filter f l').
Qed.

Lemma sum_case_perm (rows rows' : list ProductRow) (n : Z) :
  Permutation rows rows' -> sum_case rows n = sum_case rows' n.
Proof.
  intros Hperm. unfold sum_case.
  pose proof (Permutation_length
                (filter_perm (fun row => sql_equals (row_found row) n)
                   _ _ Hperm)) as Hlen.
  destruct rows as [|r rows], rows' as [|r' rows'].
  - reflexivity.
  - now apply Permutation_nil in Hperm.
  - now apply Permutation_sym, Permutation_nil in Hperm.
  - now rewrite Hlen.
Qed.

Lemma stats_perm (db db' : DB) (session_id : string) :
  Permutation (products db) (products db') ->
  get_session_stats db session_id = get_session_stats db' session_id.
Proof.
  intros Hperm. unfold get_session_stats.
  assert (H : Permutation (session_rows db session_id)
                (session_rows db' session_id))
    by now apply filter_perm.
  now rewrite (Permutation_length H), (sum_case_perm _ _ 1 H),
    (sum_case_perm _ _ 0 H).
Qed.

Section ChunkProgress.

Variable json_loads : string -> LoadResult.
Variable re_compile : string -> option Re.regex.
Variable upstream : nat -> string -> HttpOutcome.

(** What a request submits to the pool. *)
Definition submitted (req : ChunkRequest) : list Future :=
  submit_all json_loads re_compile upstream (req_searchTerms req)
    (req_limit req) (String.eqb (req_searchType req) "article").

(** A chunk answered with status 200: its batch was accepted (or was
    empty), the rows were appended and the progress updated; the counts
    are those of the collecting loop. *)
Lemma process_chunk_ok (as_completed : list Future -> list Future)
  (db db' : DB) (req : ChunkRequest) (counts : ChunkCounts) :
  process_chunk json_loads re_compile upstream as_completed db req
  = (db', Ok200 counts) ->
  exists rows,
    insert_rows (req_sessionId req)
      (chunk_products (collect (as_completed (submitted req)))) = PyOk rows
    /\ db'
       = update_progress
           {| sessions := sessions db;
              products := (products db ++ rows)%list |}
           (req_sessionId req)
           (acc_processed_count (collect (as_completed (submitted req))))
           (Z.of_nat
              (List.length
                 (chunk_products (collect (as_completed (submitted req))))))
    /\ counts
       = {| chunk_index := req_chunkIndex req;
            processed_count :=
              acc_processed_count (collect (as_completed (submitted req)));
            products_found :=
              Z.of_nat
                (List.length
                   (chunk_products
                      (collect (as_completed (submitted req)))));
            total_found :=
              acc_total_found (collect (as_completed (submitted req))) |}.
Proof.
  unfold process_chunk.
  destruct (_ || _); [discriminate|].
  destruct (process_chunk_try json_loads re_compile upstream as_completed
              db req) as [[db2 counts2] | e] eqn:Htry; [|discriminate].
  intros H. injection H as <- <-. unfold process_chunk_try in Htry.
  fold (submitted req) in Htry.
  set (done := collect (as_completed (submitted req))) in *.
  destruct (chunk_products done) as [|p ps] eqn:Hb; cbn [is_empty] in Htry.
  - cbn [bind] in Htry. apply PyOk_inj in Htry.
    exists []. split; [reflexivity|]. rewrite app_nil_r.
    injection Htry as <- <-. split; [now destruct db | reflexivity].
  - unfold store_products_batch in Htry.
    destruct (insert_rows (req_sessionId req) (p :: ps)) as [rows | e];
      cbn [bind] in Htry; [|discriminate].
    apply PyOk_inj in Htry. exists rows. split; [reflexivity|].
    injection Htry as <- <-. split; reflexivity.
Qed.

Lemma session_rows_stored (db : DB) (session_id : string)
  (batch : list ProductRecord) (rows : list ProductRow) (other : string) :
  insert_rows session_id batch = PyOk rows ->
  session_rows
    {| sessions := sessions db; products := (products db ++ rows)%list |}
    other
  = if String.eqb session_id other
    then (session_rows db other ++ rows)%list
    else session_rows db other.
Proof.
  intros Hrows. destruct (insert_rows_stored _ _ _ Hrows) as [Hall _].
  unfold session_rows. cbn [products]. rewrite filter_app.
  destruct (String.eqb session_id other) eqn:E.
  - apply String.eqb_eq in E. subst other. f_equal.
    apply filter_all_true. eapply Forall_impl; [|exact Hall].
    intros row [-> _]. apply String.eqb_refl.
  - rewrite (filter_all_false _ rows), app_nil_r; [reflexivity|].
    eapply Forall_impl; [|exact Hall].
    intros row [-> _]. exact E.
Qed.

(** X17.  A chunk answered with status 200 adds its counts to the counters of
    its session, when the session exists, and its records to the rows of
    the session; a session that was never created gets the rows all the
    same, and no counters.  No other session is touched. *)
Theorem process_chunk_progress (as_completed : list Future -> list Future)
  (db db' : DB) (req : ChunkRequest) (counts : ChunkCounts) :
  process_chunk json_loads re_compile upstream as_completed db req
  = (db', Ok200 counts) ->
  select_session (sessions db') (req_sessionId req)
  = match select_session (sessions db) (req_sessionId req) with
    | Some row =>
        Some {| total_terms := total_terms row;
                processed_terms :=
                  (processed_terms row + processed_count counts)%Z;
                total_products :=
                  (total_products row + products_found counts)%Z |}
    | None => None
    end
  /\ stat_total_products (get_session_stats db' (req_sessionId req))
     = (stat_total_products (get_session_stats db (req_sessionId req))
        + products_found counts)%Z
  /\ forall other, other <> req_sessionId req ->
       select_session (sessions db') other
       = select_session (sessions db) other
       /\ get_session_stats db' other = get_session_stats db other.
Proof.
  intros H. apply process_chunk_ok in H as [rows [Hrows [-> ->]]].
  cbn [processed_count products_found].
  split; [|split].
  - rewrite update_progress_same. reflexivity.
  - rewrite update_progress_stats. unfold get_session_stats.
    cbn [stat_total_products].
    rewrite (session_rows_stored db _ _ _ (req_sessionId req) Hrows).
    rewrite String.eqb_refl, length_app.
    rewrite (insert_rows_length _ _ _ Hrows). lia.
  - intros other Hne. split.
    + now rewrite update_progress_other.
    + rewrite update_progress_stats. unfold get_session_stats.
      rewrite (session_rows_stored db _ _ _ other Hrows).
      destruct (String.eqb (req_sessionId req) other) eqn:E; [|reflexivity].
      apply String.eqb_eq in E. congruence.
Qed.

Section CompletionOrder.

Variables first_order second_order : list Future -> list Future.

Hypothesis first_order_perm :
  forall futures, Permutation (first_order futures) futures.
Hypothesis second_order_perm :
  forall futures, Permutation (second_order futures) futures.

(** X18.  The order in which the futures complete shows in the order of the
    stored rows and nowhere else: a chunk that is answered with status 200
    under one order is answered with the same counts under any other, the
    session counters are the same, the stored rows are the same up to
    their order, and the statistics of every session are the same. *)
Theorem completion_order_irrelevant (db db1 : DB) (req : ChunkRequest)
  (counts : ChunkCounts) :
  process_chunk json_loads re_compile upstream first_order db req
  = (db1, Ok200 counts) ->
  exists db2,
    process_chunk json_loads re_compile upstream second_order db req
    = (db2, Ok200 counts)
    /\ sessions db2 = sessions db1
    /\ Permutation (products db2) (products db1)
    /\ forall session_id,
         get_session_stats db2 session_id = get_session_stats db1 session_id.
Proof.
  intros H. pose proof H as Hguard.
  apply process_chunk_ok in H as [rows [Hrows [-> ->]]].
  assert (Hperm : Permutation (first_order (submitted req))
                    (second_order (submitted req))).
  { transitivity (submitted req);
      [apply first_order_perm | apply Permutation_sym, second_order_perm]. }
  destruct (collect_spec (first_order (submitted req))) as [Hp1 Hc1].
  destruct (collect_spec (second_order (submitted req))) as [Hp2 Hc2].
  assert (Hbatch : Permutation
                     (chunk_products (collect (first_order (submitted req))))
                     (chunk_products
                        (collect (second_order (submitted req))))).
  { rewrite Hp1, Hp2. now apply Permutation_flat_map. }
  assert (Hcount : acc_processed_count
                     (collect (second_order (submitted req)))
                   = acc_processed_count
                       (collect (first_order (submitted req)))).
  { now rewrite Hc1, Hc2, (Permutation_length Hperm). }
  assert (Htotal : acc_total_found (collect (second_order (submitted req)))
                   = acc_total_found
                       (collect (first_order (submitted req)))).
  { rewrite !collect_total. apply sum_Z_perm, Permutation_sym.
    now apply Permutation_map. }
  destruct (insert_rows_perm _ _ _ Hbatch rows Hrows)
    as [rows' [Hrows' Hrperm]].
  exists (update_progress
            {| sessions := sessions db;
               products := (products db ++ rows')%list |}
            (req_sessionId req)
            (acc_processed_count (collect (first_order (submitted req))))
            (Z.of_nat
               (List.length
                  (chunk_products
                     (collect (first_order (submitted req))))))).
  assert (Hprod : Permutation (products db ++ rows')%list
                    (products db ++ rows)%list)
    by now apply Permutation_app_head, Permutation_sym.
  split; [|split; [|split]].
  - unfold process_chunk in *.
    destruct (_ || _); [discriminate|].
    unfold process_chunk_try. fold (submitted req).
    rewrite Hcount, Htotal, <- (Permutation_length Hbatch).
    destruct (chunk_products (collect (second_order (submitted req))))
      as [|p ps] eqn:Hb; cbn [is_empty].
    + cbn [insert_rows] in Hrows'. apply PyOk_inj in Hrows'.
      subst rows'. cbn [bind]. rewrite app_nil_r.
      now destruct db.
    + unfold store_products_batch. rewrite Hrows'. cbn [bind].
      reflexivity.
  - unfold update_progress. cbn [sessions].
    destruct (select_session (sessions db) (req_sessionId req));
      reflexivity.
  - rewrite !update_progress_products. exact Hprod.
  - intros session_id. rewrite !update_progress_stats.
    now apply stats_perm.
Qed.

End CompletionOrder.

Section SerialChunks.

Variable as_completed : list Future -> list Future.

Hypothesis as_completed_perm :
  forall futures, Permutation (as_completed futures) futures.

Lemma chunk_counts_bounds (db db' : DB) (req : ChunkRequest)
  (counts : ChunkCounts) :
  process_chunk json_loads re_compile upstream as_completed db req
  = (db', Ok200 counts) ->
  processed_count counts = Z.of_nat (List.length (req_searchTerms req))
  /\ (processed_count counts <= products_found counts)%Z.
Proof.
  intros H. apply process_chunk_ok in H as [rows [_ [_ ->]]].
  cbn [processed_count products_found].
  destruct (collected_batch json_loads re_compile upstream as_completed
              as_completed_perm (req_searchTerms req) (req_limit req)
              (String.eqb (req_searchType req) "article"))
    as [Hcount [Hge _]].
  fold (submitted req) in Hcount, Hge.
  split; [exact Hcount|]. rewrite Hcount. lia.
Qed.

(** Chunks of one session served one after the other, all answered with
    status 200: the session's [processed_terms] has grown by the number of
    terms of all the chunks, [total_terms] is untouched, [total_products]
    has grown by exactly the number of rows stored for the session, and
    that is at least the number of terms. *)
Lemma serve_chunks_progress (session_id : string) :
  forall (reqs : list ChunkRequest) (db db' : DB)
         (responses : list Response) (row : SessionRow),
    serve_chunks
      (process_chunk json_loads re_compile upstream as_completed) db reqs
    = (db', responses) ->
    Forall (fun req => req_sessionId req = session_id) reqs ->
    Forall is_ok responses ->
    select_session (sessions db) session_id = Some row ->
    exists row',
      select_session (sessions db') session_id = Some row'
      /\ total_terms row' = total_terms row
      /\ processed_terms row'
         = (processed_terms row
            + Z.of_nat (List.length (List.concat (map req_searchTerms reqs))))%Z
      /\ (total_products row' - total_products row
          = stat_total_products (get_session_stats db' session_id)
            - stat_total_products (get_session_stats db session_id))%Z
      /\ (processed_terms row' - processed_terms row
          <= total_products row' - total_products row)%Z.
Proof.
  induction reqs as [|req rest IH]; intros db db' responses row.
  - cbn. intros [= <- <-] _ _ Hsel. exists row.
    split; [exact Hsel|]. split; [reflexivity|]. repeat split; lia.
  - cbn [serve_chunks].
    destruct (process_chunk json_loads re_compile upstream as_completed
                db req) as [db1 response] eqn:Hone.
    destruct (serve_chunks _ db1 rest) as [db2 more] eqn:Hrest.
    intros [= <- <-] Hsid Hok Hsel.
    inversion Hsid as [|? ? Hreq Hsid']. subst.
    inversion Hok as [|? ? Hresp Hok']. subst.
    destruct response as [counts | |]; cbn in Hresp; try contradiction.
    destruct (chunk_counts_bounds _ _ _ _ Hone) as [Hn Hle].
    destruct (process_chunk_ok _ _ _ _ _ Hone) as [rows [Hrows [Hdb1 Hc]]].
    assert (Hsel1 : select_session (sessions db1) (req_sessionId req)
                    = Some {| total_terms := total_terms row;
                              processed_terms :=
                                (processed_terms row
                                 + processed_count counts)%Z;
                              total_products :=
                                (total_products row
                                 + products_found counts)%Z |}).
    { rewrite Hdb1, update_progress_same. cbn [sessions]. rewrite Hsel.
      now rewrite Hc. }
    assert (Hstat1 : stat_total_products
                       (get_session_stats db1 (req_sessionId req))
                     = (stat_total_products
                          (get_session_stats db (req_sessionId req))
                        + products_found counts)%Z).
    { rewrite Hdb1, update_progress_stats. unfold get_session_stats.
      cbn [stat_total_products].
      rewrite (session_rows_stored db _ _ _ (req_sessionId req) Hrows).
      rewrite String.eqb_refl, length_app.
      rewrite (insert_rows_length _ _ _ Hrows), Hc. cbn [products_found].
      lia. }
    destruct (IH db1 db2 more _ Hrest Hsid' Hok' Hsel1)
      as [row' [Hsel' [Ht [Hp [Hs Hb]]]]].
    exists row'. cbn [total_terms processed_terms total_products] in *.
    split; [exact Hsel'|]. split; [exact Ht|].
    cbn [map List.concat]. rewrite length_app.
    repeat split; lia.
Qed.

End SerialChunks.

End ChunkProgress.

(* ================================================================== *)
(** * Region lookup: [get_region_info], [fallback_region_extraction] *)
(* ================================================================== *)

(** The dictionary both functions return: four fixed keys, [JNull] for
    Python's [None]. *)
Record RegionInfo : Type := {
  regionId : JValue;
  nickname : JValue;
  displayAddress : JValue;
  postalCode : JValue
}.

(** Python's truth value of a JSON value. *)
Definition truthy (v : JValue) : bool :=
  match v with
  | JNull => false
  | JBool b => b
  | JInt z => negb (z =? 0)%Z
  | JFloat (S754_zero _) => false
  | JFloat _ => true
  | JStr s => negb (String.eqb s EmptyString)
  | JList l => negb (is_empty l)
  | JDict d => negb (is_empty d)
  end.

(** [r?], greedy. *)
Definition opt (r : Re.regex) : Re.regex := Re.Alt r Re.Eps.

(** [Q?(\d+)Q?], writing Q for the double quote. *)
Definition quoted_digits : list Re.regex :=
  [opt (Re.Chr dq); Re.Grp (Re.Plus Re.digit); opt (Re.Chr dq)].

(** [QregionIdQ\s*:\s*Q?(\d+)Q?] *)
Definition region_id_pattern : Re.regex :=
  seq (key_colon "regionId" :: quoted_digits).

(** [QregionQ\s*:\s*{\s*QidQ\s*:\s*Q?(\d+)Q?] *)
Definition alt_region_pattern : Re.regex :=
  seq ([key_colon "region"; Re.Chr "{"; Re.Star Re.space; key_colon "id"]
       ++ quoted_digits)%list.

(** [m.group(1)] of [re.search], or the value the key had. *)
Definition search_group (pattern : Re.regex) (text : string)
  (current : JValue) : JValue :=
  match Re.search pattern text with
  | Some m => JStr (Re.group1 m)
  | None => current
  end.

(** What the response of the cart service is parsed to by
    [response.json()]: a value, a [ValueError], or a [RecursionError]. *)
Inductive JsonResult : Type :=
| JsonValue (v : JValue)
| JsonInvalid
| JsonTooDeep.

(** The exceptions of the body of [get_region_info] that end in the last
    [except] clause, each with the object its message names. *)
Inductive RegionExc : Type :=
| NoGetAttribute (v : JValue)     (* AttributeError: no attribute get *)
| NotAContainer (v : JValue)      (* TypeError: [in] on a non-container *)
| BadSubscript (v : JValue)       (* TypeError: a string as index *)
| MissingKey (k : string)         (* KeyError *)
| RecursionTooDeep
| RequestFailed.

(** [k in v] *)
Definition py_in (k : string) (v : JValue) : RegionExc + bool :=
  match v with
  | JDict d =>
      inr (match dict_lookup k d with Some _ => true | None => false end)
  | JList l =>
      inr (existsb (fun x => match x with
                             | JStr s => String.eqb s k
                             | _ => false
                             end) l)
  | JStr s => inr (PyStr.contains k s)
  | _ => inl (NotAContainer v)
  end.

(** [v[k]] *)
Definition py_item (v : JValue) (k : string) : RegionExc + JValue :=
  match v with
  | JDict d =>
      match dict_lookup k d with
      | Some x => inr x
      | None => inl (MissingKey k)
      end
  | _ => inl (BadSubscript v)
  end.

(** Lines 283-289: the three address fields, [JNull] where the path to
    them is missing. *)
Definition address_fields (data : Dict)
  : RegionExc + (JValue * JValue * JValue) :=
  match dict_lookup "defaultCheckoutGroup" data with
  | None => inr (JNull, JNull, JNull)
  | Some group =>
      match py_in "delivery" group with
      | inl e => inl e
      | inr false => inr (JNull, JNull, JNull)
      | inr true =>
          match py_item group "delivery" with
          | inl e => inl e
          | inr delivery =>
              match py_in "addressDetails" delivery with
              | inl e => inl e
              | inr false => inr (JNull, JNull, JNull)
              | inr true =>
                  match py_item delivery "addressDetails" with
                  | inl e => inl e
                  | inr (JDict address) =>
                      inr (dict_get "nickname" address,
                           dict_get "displayAddress" address,
                           dict_get "postalCode" address)
                  | inr address => inl (NoGetAttribute address)
                  end
              end
          end
      end
  end.

Definition unknown_region : RegionInfo :=
  {| regionId := JStr "unknown"; nickname := JStr "Unknown Region";
     displayAddress := JStr "No address available";
     postalCode := JStr "Unknown" |}.

Definition timeout_region : RegionInfo :=
  {| regionId := JStr "unknown"; nickname := JStr "Timeout Error";
     displayAddress := JStr "API request timed out";
     postalCode := JStr "Unknown" |}.

Definition error_region (message : string) : RegionInfo :=
  {| regionId := JStr "unknown"; nickname := JStr "Error";
     displayAddress := JStr (PyStr.take 50 message);
     postalCode := JStr "Unknown" |}.

Section Region.

(** [str(v)] for a value that is not a string, as an f-string prints it. *)
Variable str_of : JValue -> string.

(** [str(e)] *)
Variable exc_text : RegionExc -> string.

(** [response.json()] on the body. *)
Variable response_json : string -> JsonResult.

Definition format_value (v : JValue) : string :=
  match v with
  | JStr s => s
  | _ => str_of v
  end.

Definition fallback_region_extraction (text_response : string)
  : RegionInfo :=
  let region_id := search_group region_id_pattern text_response JNull in
  let nick :=
    search_group (simple_string_field "nickname") text_response JNull in
  let addr :=
    search_group (simple_string_field "displayAddress") text_response JNull in
  let postal :=
    search_group (simple_string_field "postalCode") text_response JNull in
  let region_id :=
    if negb (truthy region_id)
    then search_group alt_region_pattern text_response region_id
    else region_id in
  let nick :=
    if negb (truthy nick) && truthy region_id
    then JStr ("Region " ++ format_value region_id)
    else nick in
  {| regionId := region_id; nickname := nick; displayAddress := addr;
     postalCode := postal |}.

(** Lines 275-296, with the parsed body. *)
Definition region_from_json (data : JValue) (text : string)
  : RegionExc + RegionInfo :=
  match data with
  | JDict d =>
      let region_id := dict_get "regionId" d in
      match address_fields d with
      | inl e => inl e
      | inr (nick, addr, postal) =>
          if truthy region_id
          then
            inr {| regionId := region_id;
                   nickname :=
                     if negb (truthy nick) && truthy region_id
                     then JStr ("Region " ++ format_value region_id)
                     else nick;
                   displayAddress := addr;
                   postalCode := postal |}
          else inr (fallback_region_extraction text)
      end
  | _ => inl (NoGetAttribute data)
  end.

Definition get_region_info (outcome : HttpOutcome) : RegionInfo :=
  match outcome with
  | HttpTimeout => timeout_region
  | HttpFailure => error_region (exc_text RequestFailed)
  | HttpResponse status_code text =>
      if (status_code =? 200)%Z
      then
        match response_json text with
        | JsonValue data =>
            match region_from_json data text with
            | inr region_info => region_info
            | inl e => error_region (exc_text e)
            end
        | JsonInvalid => fallback_region_extraction text
        | JsonTooDeep => error_region (exc_text RecursionTooDeep)
        end
      else unknown_region
  end.

End Region.

Lemma steps_opt_quote (m m' : Re.mstate) :
  steps (opt (Re.Chr dq)) m m' -> Re.ms_group m' = Re.ms_group m.
Proof. intros H. apply (steps_group_free _ _ _ H). reflexivity. Qed.

(** What [Q?(\d+)Q?] captures. *)
Lemma steps_quoted_digits (m m' : Re.mstate) :
  steps (seq quoted_digits) m m' ->
  exists id,
    Re.ms_group m' = Some id
    /\ id <> EmptyString
    /\ all_chars PyStr.is_digit id = true.
Proof.
  unfold quoted_digits. cbn [seq]. intros H.
  inversion H as [ | | | r1 r2 m0 m1 m4 H1 H2 | | | | | | ]; subst.
  inversion H2 as [ | | | r1 r2 m0 m2 m4' H3 H4 | | | | | | ]; subst.
  inversion H3 as [ | | | | | | | | r prev s g mg Hg | ]; subst.
  apply steps_opt_quote in H4. cbn in H4.
  change Re.digit with (Re.Cls PyStr.is_digit) in Hg.
  apply steps_plus_cls in Hg as [w [Hw [Hp [Hne _]]]]. cbn in Hw.
  exists w. split; [|now split].
  rewrite H4. f_equal. now apply consumed_text.
Qed.

Lemma steps_cat_inv (r1 r2 : Re.regex) (m m' : Re.mstate) :
  steps (Re.Cat r1 r2) m m' -> exists m1, steps r1 m m1 /\ steps r2 m1 m'.
Proof. intros H. inversion H; subst. eauto. Qed.

Lemma search_steps (r : Re.regex) (text : string) (m : Re.rmatch) :
  Re.search r text = Some m ->
  exists m0 m1, steps r m0 m1 /\ Re.m_group1 m = Re.ms_group m1.
Proof.
  unfold Re.search. intros H.
  apply search_from_matches in H as [pre [prev [s' [ms [_ [_ [Hm Hg]]]]]]].
  apply match_at_sound in Hm. eauto.
Qed.

Definition digit_string (v : JValue) : Prop :=
  exists id,
    v = JStr id /\ id <> EmptyString /\ all_chars PyStr.is_digit id = true.

Definition plain_string (v : JValue) : Prop :=
  exists s,
    v = JStr s /\ s <> EmptyString /\ all_chars not_quote s = true.

Lemma search_region_id (text : string) (current : JValue) :
  search_group region_id_pattern text current = current
  \/ digit_string (search_group region_id_pattern text current).
Proof.
  unfold search_group.
  destruct (Re.search region_id_pattern text) as [m|] eqn:Hm; [|now left].
  right. apply search_steps in Hm as [m0 [m1 [Hs Hg]]].
  unfold region_id_pattern in Hs.
  change (seq (key_colon "regionId" :: quoted_digits))
    with (Re.Cat (key_colon "regionId") (seq quoted_digits)) in Hs.
  apply steps_cat_inv in Hs as [m2 [_ Hs]].
  apply steps_quoted_digits in Hs as [id [Hid [Hne Hd]]].
  exists id. unfold Re.group1. rewrite Hg, Hid. now split.
Qed.

Lemma search_alt_region (text : string) (current : JValue) :
  search_group alt_region_pattern text current = current
  \/ digit_string (search_group alt_region_pattern text current).
Proof.
  unfold search_group.
  destruct (Re.search alt_region_pattern text) as [m|] eqn:Hm; [|now left].
  right. apply search_steps in Hm as [m0 [m1 [Hs Hg]]].
  unfold alt_region_pattern in Hs.
  change (seq ([key_colon "region"; Re.Chr "{"; Re.Star Re.space;
                key_colon "id"] ++ quoted_digits)%list)
    with (Re.Cat (key_colon "region")
            (Re.Cat (Re.Chr "{")
               (Re.Cat (Re.Star Re.space)
                  (Re.Cat (key_colon "id") (seq quoted_digits))))) in Hs.
  apply steps_cat_inv in Hs as [m2 [_ Hs]].
  apply steps_cat_inv in Hs as [m3 [_ Hs]].
  apply steps_cat_inv in Hs as [m4 [_ Hs]].
  apply steps_cat_inv in Hs as [m5 [_ Hs]].
  apply steps_quoted_digits in Hs as [id [Hid [Hne Hd]]].
  exists id. unfold Re.group1. rewrite Hg, Hid. now split.
Qed.

Lemma search_string_field (k text : string) :
  search_group (simple_string_field k) text JNull = JNull
  \/ plain_string (search_group (simple_string_field k) text JNull).
Proof.
  unfold search_group.
  destruct (Re.search (simple_string_field k) text) as [m|] eqn:Hm;
    [|now left].
  right. apply search_steps in Hm as [m0 [m1 [Hs Hg]]].
  apply steps_simple_string_field in Hs as [_ [id [Hid [Hne Hq]]]].
  exists id. unfold Re.group1. rewrite Hg, Hid. now split.
Qed.

Lemma digit_string_truthy (v : JValue) : digit_string v -> truthy v = true.
Proof.
  intros [id [-> [Hne _]]]. cbn. apply negb_true_iff, String.eqb_neq.
  exact Hne.
Qed.

Lemma plain_string_truthy (v : JValue) : plain_string v -> truthy v = true.
Proof.
  intros [s [-> [Hne _]]]. cbn. apply negb_true_iff, String.eqb_neq.
  exact Hne.
Qed.

Section RegionProperties.

Variable str_of : JValue -> string.
Variable exc_text : RegionExc -> string.
Variable response_json : string -> JsonResult.

Lemma fallback_region_id (text : string) :
  regionId (fallback_region_extraction str_of text) = JNull
  \/ digit_string (regionId (fallback_region_extraction str_of text)).
Proof.
  unfold fallback_region_extraction. cbn [regionId].
  destruct (search_region_id text JNull) as [-> | H].
  - cbn [truthy negb]. destruct (search_alt_region text JNull) as [-> | H];
      [now left | now right].
  - rewrite (digit_string_truthy _ H). cbn [negb]. now right.
Qed.

Lemma fallback_nickname (text : string) :
  (nickname (fallback_region_extraction str_of text) = JNull
   /\ regionId (fallback_region_extraction str_of text) = JNull)
  \/ plain_string (nickname (fallback_region_extraction str_of text))
  \/ exists id,
       regionId (fallback_region_extraction str_of text) = JStr id
       /\ nickname (fallback_region_extraction str_of text)
          = JStr ("Region " ++ id).
Proof.
  pose proof (fallback_region_id text) as Hid.
  unfold fallback_region_extraction in *. cbn [regionId nickname] in *.
  set (region_id := if negb (truthy (search_group region_id_pattern text
                                       JNull))
                    then search_group alt_region_pattern text
                           (search_group region_id_pattern text JNull)
                    else search_group region_id_pattern text JNull) in *.
  destruct (search_string_field "nickname" text) as [-> | H].
  - cbn [truthy negb andb]. destruct Hid as [-> | Hd].
    + left. split; reflexivity.
    + rewrite (digit_string_truthy _ Hd).
      destruct Hd as [id [-> _]]. right. right. exists id.
      split; reflexivity.
  - rewrite (plain_string_truthy _ H). cbn [negb andb]. right. now left.
Qed.

(** X19.  Whatever the text, the region the regular expressions recover is well
    formed: a region id is a non-empty run of digits, an address and a
    postal code are non-empty and hold no double quote, and a region with
    an id always has a nickname, the one of the text or the word Region
    followed by the id. *)
Theorem fallback_region_well_formed (text : string) :
  let region_info := fallback_region_extraction str_of text in
  (regionId region_info = JNull \/ digit_string (regionId region_info))
  /\ (displayAddress region_info = JNull
      \/ plain_string (displayAddress region_info))
  /\ (postalCode region_info = JNull
      \/ plain_string (postalCode region_info))
  /\ ((nickname region_info = JNull /\ regionId region_info = JNull)
      \/ plain_string (nickname region_info)
      \/ exists id,
           regionId region_info = JStr id
           /\ nickname region_info = JStr ("Region " ++ id)).
Proof.
  cbv zeta. split; [apply fallback_region_id|].
  split; [apply search_string_field|].
  split; [apply search_string_field | apply fallback_nickname].
Qed.

Lemma fallback_named (text : string) :
  truthy (regionId (fallback_region_extraction str_of text)) = true ->
  truthy (nickname (fallback_region_extraction str_of text)) = true.
Proof.
  destruct (fallback_nickname text) as [[_ ->] | [H | [id [Hid ->]]]].
  - discriminate.
  - intros _. now apply plain_string_truthy.
  - reflexivity.
Qed.

Lemma region_from_json_named (data : JValue) (text : string)
  (region_info : RegionInfo) :
  region_from_json str_of data text = inr region_info ->
  (truthy (regionId region_info) = true ->
   truthy (nickname region_info) = true)
  /\ (truthy (regionId region_info) = false ->
      region_info = fallback_region_extraction str_of text).
Proof.
  unfold region_from_json. destruct data as [ | | | | | | d]; try discriminate.
  destruct (address_fields d) as [e | [[nick addr] postal]];
    [discriminate|].
  destruct (truthy (dict_get "regionId" d)) eqn:Hid.
  - intros [= <-]. cbn [regionId nickname]. rewrite Hid. split.
    + intros _. rewrite andb_true_r.
      destruct (truthy nick) eqn:Hn; [exact Hn | reflexivity].
    + discriminate.
  - intros [= <-]. split; [apply fallback_named | reflexivity].
Qed.

Lemma region_id_has_nickname (outcome : HttpOutcome) :
  truthy (regionId (get_region_info str_of exc_text response_json outcome))
  = true ->
  truthy (nickname (get_region_info str_of exc_text response_json outcome))
  = true.
Proof.
  destruct outcome as [ | | status_code text]; cbn [get_region_info];
    [reflexivity | reflexivity |].
  destruct (status_code =? 200)%Z; [|reflexivity].
  destruct (response_json text) as [data | | ].
  - destruct (region_from_json str_of data text) as [e | r] eqn:Hr;
      [reflexivity|].
    apply (region_from_json_named _ _ _ Hr).
  - apply fallback_named.
  - reflexivity.
Qed.

(** X20.  The region lookup always names the region it finds, and it gives up
    on the region in one case only: whenever the region it returns has an
    id, it has a nickname; a timeout, a failed request, a status other
    than 200 and any exception while the body is read give the id
    [unknown], which counts as an id; the id is missing only when the
    service answered with status 200 and the result is what the regular
    expressions recovered from the body. *)
Theorem get_region_info_named (outcome : HttpOutcome) :
  let region_info := get_region_info str_of exc_text response_json outcome in
  (truthy (regionId region_info) = true ->
   truthy (nickname region_info) = true)
  /\ (truthy (regionId region_info) = false ->
      exists text,
        outcome = HttpResponse 200 text
        /\ region_info = fallback_region_extraction str_of text
        /\ regionId region_info = JNull)
  /\ ((forall text, outcome <> HttpResponse 200 text) ->
      regionId region_info = JStr "unknown").
Proof.
  cbv zeta. split; [apply region_id_has_nickname|].
  assert (Hfb : forall text,
            truthy (regionId (fallback_region_extraction str_of text))
            = false ->
            regionId (fallback_region_extraction str_of text) = JNull).
  { intros text Hf. destruct (fallback_region_id text) as [H | H];
      [exact H|]. apply digit_string_truthy in H. congruence. }
  destruct outcome as [ | | status_code text]; cbn [get_region_info].
  - split; [discriminate | reflexivity].
  - split; [discriminate | reflexivity].
  - destruct (status_code =? 200)%Z eqn:Hs.
    + apply Z.eqb_eq in Hs. subst status_code. split.
      * intros Hf. exists text. split; [reflexivity|].
        destruct (response_json text) as [data | | ].
        -- destruct (region_from_json str_of data text) as [e | r] eqn:Hr;
             [discriminate|].
           pose proof (proj2 (region_from_json_named _ _ _ Hr) Hf) as ->.
           split; [reflexivity | now apply Hfb].
        -- split; [reflexivity | now apply Hfb].
        -- discriminate.
      * intros H. now contradiction (H text).
    + split; [discriminate | reflexivity].
Qed.

End RegionProperties.

(* ================================================================== *)
(** * Configuration: [Config], [get_config], [validate_config] *)
(* ================================================================== *)

(** [os.environ]: the value of a variable, when it is set. *)
Definition Environ : Type := string -> option string.

(** [os.environ.get(key, default)] *)
Definition environ_get (environ : Environ) (key default : string) : string :=
  match environ key with
  | Some value => value
  | None => default
  end.

(** The attributes of a configuration class. *)
Record Settings : Type := {
  DB_PATH : string;
  SESSION_CLEANUP_HOURS : Z;
  CHUNK_SIZE : Z;
  MAX_WORKERS : Z;
  REQUEST_TIMEOUT : Z;
  GC_ENABLED : bool;
  MIN_REQUEST_INTERVAL : spec_float;
  MAX_REQUESTS_PER_MINUTE : Z;
  SECRET_KEY : string;
  DEBUG : bool;
  LOG_LEVEL : string
}.

(** [s.lower() == 'true']: only the letters A to Z lower to ASCII
    letters. *)
Definition is_true_text (s : string) : bool :=
  String.eqb (PyNum.lower_str s) "true".

(** The body of [class Config], run when the module is loaded: the
    conversions are made in the order of the assignments and the first
    one that fails raises. *)
Definition Config (environ : Environ) : PyResult Settings :=
  cleanup_hours <-
    PyNum.int_of_string (environ_get environ "SESSION_CLEANUP_HOURS" "24") ;;
  chunk <- PyNum.int_of_string (environ_get environ "CHUNK_SIZE" "500") ;;
  workers <- PyNum.int_of_string (environ_get environ "MAX_WORKERS" "3") ;;
  timeout <-
    PyNum.int_of_string (environ_get environ "REQUEST_TIMEOUT" "15") ;;
  interval <-
    PyNum.float_of_string (environ_get environ "MIN_REQUEST_INTERVAL" "0.1") ;;
  per_minute <-
    PyNum.int_of_string
      (environ_get environ "MAX_REQUESTS_PER_MINUTE" "200") ;;
  PyOk {| DB_PATH := environ_get environ "DB_PATH" "temp_products.db";
          SESSION_CLEANUP_HOURS := cleanup_hours;
          CHUNK_SIZE := chunk;
          MAX_WORKERS := workers;
          REQUEST_TIMEOUT := timeout;
          GC_ENABLED := is_true_text (environ_get environ "GC_ENABLED" "True");
          MIN_REQUEST_INTERVAL := interval;
          MAX_REQUESTS_PER_MINUTE := per_minute;
          SECRET_KEY :=
            environ_get environ "SECRET_KEY" "your-secret-key-change-this";
          DEBUG := is_true_text (environ_get environ "FLASK_DEBUG" "False");
          LOG_LEVEL := environ_get environ "LOG_LEVEL" "INFO" |}.

(** The subclasses: the attributes they assign, the others inherited. *)
Definition DevelopmentConfig (base : Settings) : Settings :=
  {| DB_PATH := DB_PATH base;
     SESSION_CLEANUP_HOURS := 1;
     CHUNK_SIZE := 50;
     MAX_WORKERS := 2;
     REQUEST_TIMEOUT := REQUEST_TIMEOUT base;
     GC_ENABLED := GC_ENABLED base;
     MIN_REQUEST_INTERVAL := MIN_REQUEST_INTERVAL base;
     MAX_REQUESTS_PER_MINUTE := MAX_REQUESTS_PER_MINUTE base;
     SECRET_KEY := SECRET_KEY base;
     DEBUG := true;
     LOG_LEVEL := "DEBUG" |}.

Definition ProductionConfig (base : Settings) : Settings :=
  {| DB_PATH := DB_PATH base;
     SESSION_CLEANUP_HOURS := 24;
     CHUNK_SIZE := 500;
     MAX_WORKERS := 3;
     REQUEST_TIMEOUT := REQUEST_TIMEOUT base;
     GC_ENABLED := GC_ENABLED base;
     MIN_REQUEST_INTERVAL := MIN_REQUEST_INTERVAL base;
     MAX_REQUESTS_PER_MINUTE := MAX_REQUESTS_PER_MINUTE base;
     SECRET_KEY := SECRET_KEY base;
     DEBUG := false;
     LOG_LEVEL := "INFO" |}.

Definition HighVolumeConfig (base : Settings) : Settings :=
  {| DB_PATH := DB_PATH base;
     SESSION_CLEANUP_HOURS := 6;
     CHUNK_SIZE := 300;
     MAX_WORKERS := 2;
     REQUEST_TIMEOUT := 30;
     GC_ENABLED := GC_ENABLED base;
     MIN_REQUEST_INTERVAL := MIN_REQUEST_INTERVAL base;
     MAX_REQUESTS_PER_MINUTE := MAX_REQUESTS_PER_MINUTE base;
     SECRET_KEY := SECRET_KEY base;
     DEBUG := false;
     LOG_LEVEL := "INFO" |}.

Definition LowMemoryConfig (base : Settings) : Settings :=
  {| DB_PATH := DB_PATH base;
     SESSION_CLEANUP_HOURS := 2;
     CHUNK_SIZE := 100;
     MAX_WORKERS := 1;
     REQUEST_TIMEOUT := 20;
     GC_ENABLED := true;
     MIN_REQUEST_INTERVAL := MIN_REQUEST_INTERVAL base;
     MAX_REQUESTS_PER_MINUTE := MAX_REQUESTS_PER_MINUTE base;
     SECRET_KEY := SECRET_KEY base;
     DEBUG := false;
     LOG_LEVEL := "WARNING" |}.

(** [get_config]: [base] holds the attributes of the loaded class
    [Config], [environ] is the environment at the call. *)
Definition get_config (base : Settings) (environ : Environ)
  (config_name : option string) : Settings :=
  let config_name :=
    match config_name with
    | Some given => given
    | None => environ_get environ "ENVIRONMENT" "production"
    end in
  if String.eqb config_name "development" then DevelopmentConfig base
  else if String.eqb config_name "production" then ProductionConfig base
  else if String.eqb config_name "high_volume" then HighVolumeConfig base
  else if String.eqb config_name "low_memory" then LowMemoryConfig base
  else ProductionConfig base.

Definition out_of_range (value low high : Z) : bool :=
  (value <? low)%Z || (value >? high)%Z.

Definition validate_config (config : Settings) : list string :=
  ((if out_of_range (CHUNK_SIZE config) 10 5000
    then ["CHUNK_SIZE must be between 10 and 5000"] else [])
   ++ (if out_of_range (MAX_WORKERS config) 1 20
       then ["MAX_WORKERS must be between 1 and 20"] else [])
   ++ (if out_of_range (REQUEST_TIMEOUT config) 5 300
       then ["REQUEST_TIMEOUT must be between 5 and 300 seconds"] else [])
   ++ (if out_of_range (SESSION_CLEANUP_HOURS config) 1 168
       then ["SESSION_CLEANUP_HOURS must be between 1 and 168 hours"]
       else []))%list.

(** The configurations [get_config] can return, by what they fix. *)
Lemma get_config_cases (base : Settings) (environ : Environ)
  (config_name : option string) :
  get_config base environ config_name = DevelopmentConfig base
  \/ get_config base environ config_name = ProductionConfig base
  \/ get_config base environ config_name = HighVolumeConfig base
  \/ get_config base environ config_name = LowMemoryConfig base.
Proof.
  unfold get_config.
  repeat match goal with
         | |- context [if ?b then _ else _] => destruct b
         end; tauto.
Qed.

(** X21.  Whatever the environment holds and whatever name is asked for, the
    configuration [get_config] returns has one of four fixed settings of
    chunk size, workers and cleanup hours: the environment variables
    [CHUNK_SIZE], [MAX_WORKERS] and [SESSION_CLEANUP_HOURS] never reach
    it.  So the chunk size is positive, the number of chunks is always
    defined, and the only complaint [validate_config] can have is about
    the request timeout, which two of the four configurations inherit. *)
Theorem get_config_fixed_sizes (base : Settings) (environ : Environ)
  (config_name : option string) :
  let config := get_config base environ config_name in
  In (CHUNK_SIZE config, MAX_WORKERS config, SESSION_CLEANUP_HOURS config)
    [(50, 2, 1); (500, 3, 24); (300, 2, 6); (100, 1, 2)]%Z
  /\ (forall n, exists chunks,
        total_chunks n (CHUNK_SIZE config) = PyOk chunks)
  /\ (validate_config config = []
      \/ (validate_config config
          = ["REQUEST_TIMEOUT must be between 5 and 300 seconds"]
          /\ REQUEST_TIMEOUT config = REQUEST_TIMEOUT base
          /\ out_of_range (REQUEST_TIMEOUT base) 5 300 = true)).
Proof.
  cbv zeta.
  destruct (get_config_cases base environ config_name)
    as [-> | [-> | [-> | ->]]].
  - split; [cbn; tauto|]. split; [intros n; eexists; reflexivity|].
    unfold validate_config. cbn.
    destruct (out_of_range (REQUEST_TIMEOUT base) 5 300);
      [right; repeat split | now left].
  - split; [cbn; tauto|]. split; [intros n; eexists; reflexivity|].
    unfold validate_config. cbn.
    destruct (out_of_range (REQUEST_TIMEOUT base) 5 300);
      [right; repeat split | now left].
  - split; [cbn; tauto|]. split; [intros n; eexists; reflexivity|].
    now left.
  - split; [cbn; tauto|]. split; [intros n; eexists; reflexivity|].
    now left.
Qed.

(** X22.  When the module loads and the environment sets no request timeout,
    every configuration [get_config] can return passes
    [validate_config], whatever else the environment holds. *)
Theorem default_timeout_validates (load_environ environ : Environ)
  (base : Settings) (config_name : option string) :
  Config load_environ = PyOk base ->
  load_environ "REQUEST_TIMEOUT" = None ->
  validate_config (get_config base environ config_name) = [].
Proof.
  intros Hload Hunset.
  assert (Ht : REQUEST_TIMEOUT base = 15%Z).
  { unfold Config in Hload.
    destruct (PyNum.int_of_string
                (environ_get load_environ "SESSION_CLEANUP_HOURS" "24"))
      as [cleanup_hours | e]; cbn [bind] in Hload; [|discriminate].
    destruct (PyNum.int_of_string
                (environ_get load_environ "CHUNK_SIZE" "500"))
      as [chunk | e]; cbn [bind] in Hload; [|discriminate].
    destruct (PyNum.int_of_string
                (environ_get load_environ "MAX_WORKERS" "3"))
      as [workers | e]; cbn [bind] in Hload; [|discriminate].
    unfold environ_get at 1 in Hload. rewrite Hunset in Hload.
    change (PyNum.int_of_string "15") with (PyOk 15%Z) in Hload.
    cbn [bind] in Hload.
    destruct (PyNum.float_of_string
                (environ_get load_environ "MIN_REQUEST_INTERVAL" "0.1"))
      as [interval | e]; cbn [bind] in Hload; [|discriminate].
    destruct (PyNum.int_of_string
                (environ_get load_environ "MAX_REQUESTS_PER_MINUTE" "200"))
      as [per_minute | e]; cbn [bind] in Hload; [|discriminate].
    apply PyOk_inj in Hload. now subst base. }
  destruct (get_config_cases base environ config_name)
    as [-> | [-> | [-> | ->]]]; unfold validate_config; cbn; rewrite ?Ht;
    reflexivity.
Qed.

Definition empty_environ : Environ := fun _ => None.

Definition default_settings : Settings :=
  match Config empty_environ with
  | PyOk base => base
  | PyRaise _ =>
      {| DB_PATH := EmptyString; SESSION_CLEANUP_HOURS := 0; CHUNK_SIZE := 0;
         MAX_WORKERS := 0; REQUEST_TIMEOUT := 0; GC_ENABLED := false;
         MIN_REQUEST_INTERVAL := S754_zero false;
         MAX_REQUESTS_PER_MINUTE := 0; SECRET_KEY := EmptyString;
         DEBUG := false; LOG_LEVEL := EmptyString |}
  end.

Lemma default_timeout_validates_witness :
  Config empty_environ = PyOk default_settings
  /\ CHUNK_SIZE (get_config default_settings empty_environ None) = 500%Z
  /\ validate_config (get_config default_settings empty_environ None) = [].
Proof.
  assert (H : Config empty_environ = PyOk default_settings)
    by (vm_compute; reflexivity).
  split; [exact H|]. split; [reflexivity|].
  exact (default_timeout_validates empty_environ empty_environ
           default_settings None H eq_refl).
Defined.

(* ================================================================== *)
(** * Opening a session: [cleanup_old_sessions], [start_search] *)
(* ================================================================== *)

(** What [start_search] answers with status 200. *)
Record StartPayload : Type := {
  start_session_id : string;
  start_region_info : RegionInfo;
  start_parsed_terms : list string;
  start_duplicate_count : Z;
  start_duplicates : list string;
  start_contains_ea_codes : bool;
  start_search_type : JValue;
  start_total_terms : Z;
  start_total_chunks : Z
}.

Inductive StartResponse : Type :=
| StartOk (payload : StartPayload)
| Start400 (error : string)
| Start500.

Section StartSearch.

Variable str_of : JValue -> string.
Variable exc_text : RegionExc -> string.
Variable response_json : string -> JsonResult.

(** The answer of the cart service to the lookup for a session id. *)
Variable region_service : JValue -> HttpOutcome.

(** [created_at < cutoff_time] for the session with this identifier. *)
Variable expired : string -> bool.

(** The largest number of [?] parameters SQLite takes in one statement. *)
Variable max_sql_variables : nat.

(** [CHUNK_SIZE] of the loaded configuration. *)
Variable chunk_size : Z.

(** [cleanup_old_sessions]: both DELETE statements list every old session
    as a parameter; a statement SQLite refuses raises, nothing is
    committed and the error is logged. *)
Definition cleanup_old_sessions (db : DB) : DB :=
  let old_sessions :=
    map fst (filter (fun '(sid, _) => expired sid) (sessions db)) in
  if is_empty old_sessions then db
  else if max_sql_variables <? List.length old_sessions then db
  else
    {| sessions :=
         filter (fun '(sid, _) => negb (mem sid old_sessions)) (sessions db);
       products :=
         filter (fun row => negb (mem (row_session row) old_sessions))
           (products db) |}.

(** [start_search] on the parsed request body; [fresh_uuid] is the
    identifier [create_session] draws. *)
Definition start_search (fresh_uuid : string) (db : DB) (data : JValue)
  : DB * StartResponse :=
  let db0 := cleanup_old_sessions db in
  if negb (truthy data) then (db0, Start400 "No request data provided")
  else
    match data with
    | JDict d =>
        let search_term := dict_get "searchTerm" d in
        let session_id_from_voila := dict_get "sessionId" d in
        let search_type := dict_get_default "searchType" (JStr "article") d in
        if negb (truthy search_term)
        then (db0, Start400 "Search term is required")
        else if negb (truthy session_id_from_voila)
        then (db0, Start400 "Session ID is required")
        else
          let region_info :=
            get_region_info str_of exc_text response_json
              (region_service session_id_from_voila) in
          if negb (truthy (regionId region_info))
          then (db0, Start400 "Could not determine region from session ID")
          else
            match search_term with
            | JStr search_input =>
                let parsed := parse_search_terms search_input in
                let individual_terms := unique_terms parsed in
                match create_session db0 fresh_uuid with
                | PyRaise _ => (db0, Start500)
                | PyOk db1 =>
                    let db2 :=
                      set_total_terms db1 fresh_uuid
                        (Z.of_nat (List.length individual_terms)) in
                    match total_chunks
                            (Z.of_nat (List.length individual_terms))
                            chunk_size with
                    | PyRaise _ => (db2, Start500)
                    | PyOk chunks =>
                        (db2,
                         StartOk
                           {| start_session_id := fresh_uuid;
                              start_region_info := region_info;
                              start_parsed_terms := individual_terms;
                              start_duplicate_count := duplicate_count parsed;
                              start_duplicates := duplicates parsed;
                              start_contains_ea_codes :=
                                contains_ea_codes parsed;
                              start_search_type := search_type;
                              start_total_terms :=
                                Z.of_nat (List.length individual_terms);
                              start_total_chunks := chunks |})
                    end
                end
            | _ => (db0, Start500)
            end
    | _ => (db0, Start500)
    end.

End StartSearch.

Lemma select_session_none_iff (rows : list (string * SessionRow))
  (session_id : string) :
  select_session rows session_id = None <-> ~ In session_id (map fst rows).
Proof.
  induction rows as [|[sid row] rows IH]; cbn.
  - tauto.
  - destruct (String.eqb sid session_id) eqn:E.
    + apply String.eqb_eq in E. split; [discriminate | intros H; tauto].
    + apply String.eqb_neq in E. rewrite IH. tauto.
Qed.

Lemma select_session_filter (keep : string -> bool)
  (rows : list (string * SessionRow)) (session_id : string) :
  select_session (filter (fun '(sid, _) => keep sid) rows) session_id
  = if keep session_id then select_session rows session_id else None.
Proof.
  induction rows as [|[sid row] rows IH]; cbn [filter select_session].
  - now destruct (keep session_id).
  - destruct (keep sid) eqn:Hk; cbn [select_session].
    + destruct (String.eqb sid session_id) eqn:E; [|exact IH].
      apply String.eqb_eq in E. subst sid. now rewrite Hk.
    + rewrite IH. destruct (String.eqb sid session_id) eqn:E; [|reflexivity].
      apply String.eqb_eq in E. subst sid. now rewrite Hk.
Qed.

Lemma session_rows_filter (keep : string -> bool) (db : DB)
  (new_sessions : list (string * SessionRow)) (session_id : string) :
  session_rows
    {| sessions := new_sessions;
       products := filter (fun row => keep (row_session row)) (products db) |}
    session_id
  = if keep session_id then session_rows db session_id else [].
Proof.
  unfold session_rows. cbn [products]. rewrite filter_filter_comm.
  destruct (keep session_id) eqn:Hk.
  - apply filter_all_true. apply Forall_forall. intros row Hin.
    apply filter_In in Hin as [_ Hin]. apply String.eqb_eq in Hin.
    now rewrite Hin.
  - apply filter_all_false. apply Forall_forall. intros row Hin.
    apply filter_In in Hin as [_ Hin]. apply String.eqb_eq in Hin.
    now rewrite Hin.
Qed.

Section StartSearchProperties.

Variable str_of : JValue -> string.
Variable exc_text : RegionExc -> string.
Variable response_json : string -> JsonResult.
Variable region_service : JValue -> HttpOutcome.
Variable expired : string -> bool.
Variable max_sql_variables : nat.
Variable chunk_size : Z.

(** The identifiers the SELECT of [cleanup_old_sessions] returns. *)
Definition old_sessions (db : DB) : list string :=
  map fst (filter (fun '(sid, _) => expired sid) (sessions db)).

Lemma old_sessions_spec (db : DB) (session_id : string) :
  In session_id (old_sessions db)
  <-> expired session_id = true
      /\ select_session (sessions db) session_id <> None.
Proof.
  unfold old_sessions. rewrite select_session_none_iff, in_map_iff. split.
  - intros [[sid row] [<- Hin]]. apply filter_In in Hin as [Hin He].
    cbn. split; [exact He|]. intros H. apply H.
    apply in_map_iff. now exists (sid, row).
  - intros [He Hin].
    destruct (in_dec string_dec session_id (map fst (sessions db)))
      as [Hi | Hn]; [|tauto].
    apply in_map_iff in Hi as [[sid row] [Hs Hi]]. cbn in Hs. subst sid.
    exists (session_id, row). split; [reflexivity|].
    apply filter_In. now split.
Qed.

Lemma cleanup_old_sessions_cases (db : DB) :
  cleanup_old_sessions expired max_sql_variables db = db
  \/ (List.length (old_sessions db) <= max_sql_variables
      /\ forall session_id,
           select_session
             (sessions (cleanup_old_sessions expired max_sql_variables db))
             session_id
           = (if negb (mem session_id (old_sessions db))
              then select_session (sessions db) session_id else None)
           /\ session_rows
                (cleanup_old_sessions expired max_sql_variables db)
                session_id
              = (if negb (mem session_id (old_sessions db))
                 then session_rows db session_id else [])).
Proof.
  unfold cleanup_old_sessions. fold (old_sessions db).
  destruct (is_empty (old_sessions db)); [now left|].
  destruct (max_sql_variables <? List.length (old_sessions db)) eqn:E;
    [now left|].
  right. apply Nat.ltb_ge in E. split; [exact E|].
  intros session_id. cbn [sessions]. split.
  - apply (select_session_filter
             (fun sid => negb (mem sid (old_sessions db)))).
  - apply (session_rows_filter
             (fun sid => negb (mem sid (old_sessions db)))).
Qed.

(** X23.  The cleanup of old sessions removes nothing but old sessions: a
    session that has not expired keeps its counters and its rows, and so
    do the rows stored under an identifier that has no session.  When the
    old sessions are few enough for one statement, each of them is gone
    with all its rows; when they are too many, nothing is removed. *)
Theorem cleanup_old_sessions_spares (db : DB) :
  let db' := cleanup_old_sessions expired max_sql_variables db in
  (forall session_id,
     expired session_id = false
     \/ select_session (sessions db) session_id = None ->
     select_session (sessions db') session_id
     = select_session (sessions db) session_id
     /\ session_rows db' session_id = session_rows db session_id)
  /\ (List.length (old_sessions db) <= max_sql_variables ->
      forall session_id,
        In session_id (old_sessions db) ->
        select_session (sessions db') session_id = None
        /\ session_rows db' session_id = [])
  /\ (max_sql_variables < List.length (old_sessions db) -> db' = db).
Proof.
  cbv zeta. split; [|split].
  - intros session_id Hkeep.
    destruct (cleanup_old_sessions_cases db) as [-> | [_ H]];
      [split; reflexivity|].
    destruct (H session_id) as [-> ->].
    assert (Hm : mem session_id (old_sessions db) = false).
    { destruct (mem session_id (old_sessions db)) eqn:Hm; [|reflexivity].
      apply mem_true_iff, old_sessions_spec in Hm as [He Hs].
      destruct Hkeep; congruence. }
    rewrite Hm. split; reflexivity.
  - intros Hfew session_id Hin.
    unfold cleanup_old_sessions. fold (old_sessions db).
    destruct (old_sessions db) as [|o os] eqn:Ho; [contradiction|].
    cbn [is_empty]. apply Nat.ltb_ge in Hfew. rewrite Hfew.
    cbn [sessions]. rewrite <- Ho in *.
    apply mem_true_iff in Hin. split.
    + rewrite (select_session_filter
                 (fun sid => negb (mem sid (old_sessions db)))).
      now rewrite Hin.
    + rewrite (session_rows_filter
                 (fun sid => negb (mem sid (old_sessions db)))).
      now rewrite Hin.
  - intros Hmany. unfold cleanup_old_sessions. fold (old_sessions db).
    destruct (is_empty (old_sessions db)); [reflexivity|].
    apply Nat.ltb_lt in Hmany. now rewrite Hmany.
Qed.

(** What a successful [start_search] has done. *)
Lemma start_search_ok (fresh_uuid : string) (db db' : DB) (data : JValue)
  (payload : StartPayload) :
  start_search str_of exc_text response_json region_service expired
    max_sql_variables chunk_size fresh_uuid db data
  = (db', StartOk payload) ->
  exists search_input db1,
    create_session (cleanup_old_sessions expired max_sql_variables db)
      fresh_uuid = PyOk db1
    /\ db' = set_total_terms db1 fresh_uuid (start_total_terms payload)
    /\ start_session_id payload = fresh_uuid
    /\ start_parsed_terms payload
       = unique_terms (parse_search_terms search_input)
    /\ start_total_terms payload
       = Z.of_nat (List.length (start_parsed_terms payload))
    /\ total_chunks (start_total_terms payload) chunk_size
       = PyOk (start_total_chunks payload)
    /\ truthy (regionId (start_region_info payload)) = true
    /\ truthy (nickname (start_region_info payload)) = true.
Proof.
  unfold start_search.
  destruct (negb (truthy data)); [discriminate|].
  destruct data as [ | | | | | | d]; try discriminate.
  destruct (negb (truthy (dict_get "searchTerm" d))); [discriminate|].
  destruct (negb (truthy (dict_get "sessionId" d))); [discriminate|].
  destruct (truthy (regionId (get_region_info str_of exc_text response_json
                                (region_service (dict_get "sessionId" d)))))
    eqn:Hregion; cbn [negb]; [|discriminate].
  destruct (dict_get "searchTerm" d) as [ | | | | search_input | | ];
    try discriminate.
  destruct (create_session _ fresh_uuid) as [db1 | e] eqn:Hcreate;
    [|discriminate].
  destruct (total_chunks _ chunk_size) as [chunks | e] eqn:Hchunks;
    [|discriminate].
  intros H. injection H as <- <-.
  exists search_input, db1. cbn.
  split; [reflexivity|]. split; [reflexivity|]. split; [reflexivity|].
  split; [reflexivity|]. split; [reflexivity|]. split; [exact Hchunks|].
  split; [exact Hregion | now apply region_id_has_nickname].
Qed.

Lemma new_session_row (db db1 : DB) (session_id : string) (n : Z) :
  create_session db session_id = PyOk db1 ->
  select_session (sessions db) session_id = None
  /\ select_session (sessions (set_total_terms db1 session_id n)) session_id
     = Some {| total_terms := n; processed_terms := 0; total_products := 0 |}
  /\ products (set_total_terms db1 session_id n) = products db.
Proof.
  unfold create_session.
  destruct (select_session (sessions db) session_id) eqn:Hsel;
    [discriminate|].
  intros H. apply PyOk_inj in H. subst db1.
  split; [reflexivity|]. cbn [set_total_terms sessions products].
  split; [|reflexivity].
  apply (select_set_total_same _ _ n
           {| total_terms := 0; processed_terms := 0;
              total_products := 0 |}).
  rewrite select_session_app, Hsel. cbn. now rewrite String.eqb_refl.
Qed.

(** X24.  A search that is accepted opens a session under an identifier that was
    not in use, with [total_terms] the number of parsed terms and both
    counters at 0; the parsed terms have no repetition; the region of the
    answer has an id and a nickname; no product row is written; and the
    announced number of chunks of [CHUNK_SIZE] terms holds all the terms
    when [CHUNK_SIZE] is positive. *)
Theorem start_search_opens_session (fresh_uuid : string) (db db' : DB)
  (data : JValue) (payload : StartPayload) :
  start_search str_of exc_text response_json region_service expired
    max_sql_variables chunk_size fresh_uuid db data
  = (db', StartOk payload) ->
  select_session
    (sessions (cleanup_old_sessions expired max_sql_variables db))
    (start_session_id payload) = None
  /\ select_session (sessions db') (start_session_id payload)
     = Some {| total_terms := start_total_terms payload;
               processed_terms := 0; total_products := 0 |}
  /\ start_total_terms payload
     = Z.of_nat (List.length (start_parsed_terms payload))
  /\ NoDup (start_parsed_terms payload)
  /\ products db'
     = products (cleanup_old_sessions expired max_sql_variables db)
  /\ truthy (regionId (start_region_info payload)) = true
  /\ truthy (nickname (start_region_info payload)) = true
  /\ chunk_size <> 0%Z
  /\ ((0 < chunk_size)%Z ->
      (start_total_terms payload
       <= start_total_chunks payload * chunk_size)%Z).
Proof.
  intros H.
  apply start_search_ok in H
    as [search_input [db1 [Hcreate [-> [-> [Hterms [Htotal [Hchunks
         [Hregion Hnick]]]]]]]]].
  destruct (new_session_row _ _ _ (start_total_terms payload) Hcreate)
    as [Hfresh [Hrow Hproducts]].
  split; [exact Hfresh|]. split; [exact Hrow|]. split; [exact Htotal|].
  split.
  { rewrite Hterms.
    destruct (parse_search_terms_lists search_input) as [-> _].
    apply spec_first_occurrences_NoDup. }
  split; [exact Hproducts|]. split; [exact Hregion|].
  split; [exact Hnick|].
  unfold total_chunks in Hchunks.
  destruct (chunk_size =? 0)%Z eqn:E; [discriminate|].
  apply Z.eqb_neq in E. split; [exact E|].
  intros Hpos. apply PyOk_inj in Hchunks. rewrite <- Hchunks.
  pose proof (Z.div_mod (start_total_terms payload + chunk_size - 1)
                chunk_size E) as Hdm.
  pose proof (Z.mod_pos_bound (start_total_terms payload + chunk_size - 1)
                chunk_size Hpos) as Hm.
  nia.
Qed.

Section SessionRun.

Variable json_loads : string -> LoadResult.
Variable re_compile : string -> option Re.regex.
Variable upstream : nat -> string -> HttpOutcome.
Variable as_completed : list Future -> list Future.

Hypothesis as_completed_perm :
  forall futures, Permutation (as_completed futures) futures.

(** X25.  From the opening of a session to its last chunk: when the search is
    accepted and the parsed terms are then sent in chunks of the new
    session, one request after the other and each answered with status
    200, the session ends with [processed_terms] equal to [total_terms],
    the number of parsed terms, and its [total_products] is the number of
    rows stored for it, at least one per term. *)
Theorem session_completes (fresh_uuid : string) (db db1 db2 : DB)
  (data : JValue) (payload : StartPayload) (reqs : list ChunkRequest)
  (responses : list Response) :
  start_search str_of exc_text response_json region_service expired
    max_sql_variables chunk_size fresh_uuid db data
  = (db1, StartOk payload) ->
  serve_chunks
    (process_chunk json_loads re_compile upstream as_completed) db1 reqs
  = (db2, responses) ->
  Forall (fun req => req_sessionId req = start_session_id payload) reqs ->
  List.concat (map req_searchTerms reqs) = start_parsed_terms payload ->
  Forall is_ok responses ->
  exists row,
    select_session (sessions db2) (start_session_id payload) = Some row
    /\ total_terms row = start_total_terms payload
    /\ processed_terms row = total_terms row
    /\ (total_products row
        = stat_total_products
            (get_session_stats db2 (start_session_id payload))
          - stat_total_products
              (get_session_stats db1 (start_session_id payload)))%Z
    /\ (total_terms row <= total_products row)%Z.
Proof.
  intros Hstart Hserve Hsid Hterms Hok.
  apply start_search_ok in Hstart
    as [search_input [db0 [Hcreate [-> [Hid [_ [Htotal _]]]]]]].
  rewrite Hid in *.
  destruct (new_session_row _ _ _ (start_total_terms payload) Hcreate)
    as [_ [Hrow _]].
  destruct (serve_chunks_progress json_loads re_compile upstream
              as_completed as_completed_perm fresh_uuid reqs _ _ _ _
              Hserve Hsid Hok Hrow)
    as [row [Hsel [Ht [Hp [Hs Hle]]]]].
  cbn [total_terms processed_terms total_products] in *.
  exists row. split; [exact Hsel|]. split; [exact Ht|].
  rewrite Hterms, <- Htotal in Hp.
  split; [lia|]. split; lia.
Qed.

End SessionRun.

End StartSearchProperties.

(* ================================================================== *)
(** * A session from start to end, on concrete inputs *)
(* ================================================================== *)

Lemma process_chunk_progress_witness :
  process_chunk json_rejects compile_literal_id demo_upstream
    (@List.rev Future) demo_db article_request
  = (fst article_outcome, Ok200 article_counts)
  /\ select_session (sessions (fst article_outcome)) "s1"
     = Some {| total_terms := 2; processed_terms := 2; total_products := 2 |}.
Proof.
  assert (H : process_chunk json_rejects compile_literal_id demo_upstream
                (@List.rev Future) demo_db article_request
              = (fst article_outcome, Ok200 article_counts))
    by (vm_compute; reflexivity).
  split; [exact H|].
  pose proof (proj1 (process_chunk_progress json_rejects compile_literal_id
                       demo_upstream (@List.rev Future) demo_db
                       (fst article_outcome) article_request article_counts
                       H)) as P.
  assert (C1 : processed_count article_counts = 2%Z)
    by (vm_compute; reflexivity).
  assert (C2 : products_found article_counts = 2%Z)
    by (vm_compute; reflexivity).
  rewrite C1, C2 in P. exact P.
Defined.

Lemma completion_order_irrelevant_witness :
  process_chunk json_rejects compile_literal_id demo_upstream
    (@List.rev Future) demo_db article_request
  = (fst article_outcome, Ok200 article_counts)
  /\ exists db2,
       process_chunk json_rejects compile_literal_id demo_upstream
         (fun futures => futures) demo_db article_request
       = (db2, Ok200 article_counts)
       /\ sessions db2 = sessions (fst article_outcome)
       /\ Permutation (products db2) (products (fst article_outcome))
       /\ forall session_id,
            get_session_stats db2 session_id
            = get_session_stats (fst article_outcome) session_id.
Proof.
  assert (H : process_chunk json_rejects compile_literal_id demo_upstream
                (@List.rev Future) demo_db article_request
              = (fst article_outcome, Ok200 article_counts))
    by (vm_compute; reflexivity).
  split; [exact H|].
  exact (completion_order_irrelevant json_rejects compile_literal_id
           demo_upstream (@List.rev Future) (fun futures => futures)
           rev_is_a_completion_order (fun futures => Permutation_refl futures)
           demo_db (fst article_outcome) article_request article_counts H).
Defined.

(** A request for two terms; the cart service answers with a body that
    is not JSON and names region 42. *)
Definition start_data : JValue :=
  JDict [("searchTerm", JStr "milk, tea"); ("sessionId", JStr "v1")].

Definition region_body : string := quoted "regionId" ++ ": 42 and more".

Definition demo_start : DB * StartResponse :=
  start_search (fun _ => EmptyString) (fun _ => "error")
    (fun _ => JsonInvalid) (fun _ => HttpResponse 200 region_body)
    (fun _ => false) 999 500 "s9" demo_db start_data.

Definition demo_payload : StartPayload :=
  match snd demo_start with
  | StartOk payload => payload
  | _ =>
      {| start_session_id := EmptyString;
         start_region_info := unknown_region;
         start_parsed_terms := [];
         start_duplicate_count := 0;
         start_duplicates := [];
         start_contains_ea_codes := false;
         start_search_type := JNull;
         start_total_terms := 0;
         start_total_chunks := 0 |}
  end.

Definition chunk_of (index : Z) (terms : list string) : ChunkRequest :=
  {| req_sessionId := "s9"; req_voilaSessionId := "v1";
     req_chunkIndex := index; req_searchTerms := terms;
     req_limit := JStr "all"; req_searchType := "article" |}.

Definition demo_run : DB * list Response :=
  serve_chunks
    (process_chunk json_rejects compile_literal_id demo_upstream
       (@List.rev Future))
    (fst demo_start) [chunk_of 0 ["milk"]; chunk_of 1 ["tea"]].

Lemma demo_start_accepted :
  start_search (fun _ => EmptyString) (fun _ => "error")
    (fun _ => JsonInvalid) (fun _ => HttpResponse 200 region_body)
    (fun _ => false) 999 500 "s9" demo_db start_data
  = (fst demo_start, StartOk demo_payload).
Proof. vm_compute. reflexivity. Qed.

Lemma demo_session_id : start_session_id demo_payload = "s9".
Proof. vm_compute. reflexivity. Qed.

Lemma demo_total_terms : start_total_terms demo_payload = 2%Z.
Proof. vm_compute. reflexivity. Qed.

Lemma start_search_opens_session_witness :
  select_session (sessions (fst demo_start)) "s9"
  = Some {| total_terms := 2; processed_terms := 0; total_products := 0 |}
  /\ start_parsed_terms demo_payload = ["milk"; "tea"]
  /\ nickname (start_region_info demo_payload) = JStr "Region 42"
  /\ start_total_chunks demo_payload = 1%Z.
Proof.
  destruct (start_search_opens_session _ _ _ _ _ _ _ _ _ _ _ _
              demo_start_accepted) as [_ [Hrow _]].
  rewrite demo_session_id, demo_total_terms in Hrow.
  split; [exact Hrow|].
  split; [vm_compute; reflexivity|].
  split; vm_compute; reflexivity.
Defined.

Lemma session_completes_witness :
  exists row,
    select_session (sessions (fst demo_run)) "s9" = Some row
    /\ total_terms row = 2%Z
    /\ processed_terms row = 2%Z
    /\ total_products row = 2%Z.
Proof.
  assert (Hrun : serve_chunks
                   (process_chunk json_rejects compile_literal_id
                      demo_upstream (@List.rev Future))
                   (fst demo_start) [chunk_of 0 ["milk"]; chunk_of 1 ["tea"]]
                 = (fst demo_run, snd demo_run))
    by apply surjective_pairing.
  assert (Hsid : Forall (fun req => req_sessionId req
                                    = start_session_id demo_payload)
                   [chunk_of 0 ["milk"]; chunk_of 1 ["tea"]]).
  { rewrite demo_session_id.
    constructor; [reflexivity|]. constructor; [reflexivity | constructor]. }
  assert (Hterms : List.concat
                     (map req_searchTerms
                        [chunk_of 0 ["milk"]; chunk_of 1 ["tea"]])
                   = start_parsed_terms demo_payload)
    by (vm_compute; reflexivity).
  assert (Hok : Forall is_ok (snd demo_run))
    by (apply answered_ok_all; vm_compute; reflexivity).
  destruct (session_completes _ _ _ _ _ _ _ _ _ _ _
              rev_is_a_completion_order _ _ _ _ _ _ _ _
              demo_start_accepted Hrun Hsid Hterms Hok)
    as [row [Hsel [Ht [Hp [Hs _]]]]].
  rewrite demo_session_id in Hsel, Hs. rewrite demo_total_terms in Ht.
  exists row. split; [exact Hsel|]. split; [exact Ht|].
  split; [now rewrite Hp|].
  rewrite Hs. vm_compute. reflexivity.
Defined.
